(** * EtherCard (ESP port): the DHCP client of [dhcp.cpp]

    A shallow embedding of the DHCP client: the globals of [EtherCard] and
    the file statics of [dhcp.cpp] form one record, the shared packet buffer
    [gPB] is a byte memory addressed by offset, and every function of
    [dhcp.cpp] is a function on that record.  Unsigned C integers are [Z]
    with their wrap-around written out. *)

From Stdlib Require Import ZArith List Bool Lia.
Import ListNotations.
Open Scope Z_scope.

(** ** Machine integers *)

Definition u8 (z : Z) : Z := z mod 256.
Definition u32 (z : Z) : Z := z mod 4294967296.

(** [a - b] on [uint32_t]. *)
Definition sub32 (a b : Z) : Z := u32 (a - b).

(** ** Byte memory: the packet buffer

    [gPB] is [ether.buffer]; a pointer into it is its offset from [gPB].
    A cell holds one octet: reads and writes go through [u8].  The capacity
    of the buffer is chosen by the sketch ([begin(size, ...)]) and no
    function of [dhcp.cpp] checks it, so the memory is unbounded here. *)

Definition buffer := Z -> Z.

Definition peek (m : buffer) (p : Z) : Z := u8 (m p).

Definition poke (m : buffer) (p v : Z) : buffer :=
  fun q => if q =? p then u8 v else m q.

(** [memset(gPB + p, c, n)] *)
Definition memset (m : buffer) (p c n : Z) : buffer :=
  fun q => if (p <=? q) && (q <? p + n) then u8 c else m q.

(** [n] octets starting at [p]. *)
Fixpoint peeks (m : buffer) (p : Z) (n : nat) : list Z :=
  match n with
  | O => []
  | S k => peek m p :: peeks m (p + 1) k
  end.

(** [memcpy(gPB + p, data, |data|)] *)
Fixpoint pokes (m : buffer) (p : Z) (data : list Z) : buffer :=
  match data with
  | [] => m
  | b :: rest => pokes (poke m p b) (p + 1) rest
  end.

(** A buffer holding the octets of a list from offset 0 on, zero elsewhere. *)
Definition buffer_of (l : list Z) : buffer :=
  fun q => if q <? 0 then 0 else nth (Z.to_nat q) l 0.

(** ** Addresses *)

(** Modelled from the spec: [IP_LEN] and [ETH_LEN] are defined in [net.h];
    "address fields are always exactly 4 octets" and the hardware address
    has 6 ([hlen = 6]). *)
Definition IP_LEN : Z := 4.
Definition ETH_LEN : Z := 6.

(** A [uint8_t[IP_LEN]] array. *)
Definition ip4 : Type := Z * Z * Z * Z.

Definition ip_zero : ip4 := (0, 0, 0, 0).

Definition ip_bytes (a : ip4) : list Z :=
  let '(a0, a1, a2, a3) := a in [a0; a1; a2; a3].

Definition ip_first (a : ip4) : Z := let '(a0, _, _, _) := a in a0.

(** [copyIp(dst, gPB + p)]: the array read out of the buffer. *)
Definition peek_ip (m : buffer) (p : Z) : ip4 :=
  (peek m p, peek m (p + 1), peek m (p + 2), peek m (p + 3)).

(** [copyIp(gPB + p, src)] *)
Definition poke_ip (m : buffer) (p : Z) (a : ip4) : buffer :=
  pokes m p (ip_bytes a).

(** [extern uint8_t allOnes[]] *)
Definition allOnes : list Z := [255; 255; 255; 255; 255; 255].

(** [allOnes] where a 4-octet address is expected. *)
Definition allOnes_ip : ip4 := (255, 255, 255, 255).

(** The first [n] octets of the array [data] points to. *)
Fixpoint take_bytes (n : nat) (data : list Z) : list Z :=
  match n with
  | O => []
  | S n' => hd 0 data :: take_bytes n' (tl data)
  end.

(** [copyMac(gPB + p, src)]: [memcpy] of [ETH_LEN] octets. *)
Definition poke_mac (m : buffer) (p : Z) (src : list Z) : buffer :=
  pokes m p (take_bytes (Z.to_nat ETH_LEN) src).

(** ** Constants of [dhcp.cpp] *)

Definition DHCP_BOOTP_REQUEST : Z := 1.

Definition DHCP_DISCOVER : Z := 1.
Definition DHCP_OFFER : Z := 2.
Definition DHCP_REQUEST : Z := 3.
Definition DHCP_ACK : Z := 5.
Definition DHCP_RELEASE : Z := 7.

Definition DHCP_SERVER_PORT : Z := 67.
Definition DHCP_CLIENT_PORT : Z := 68.

Definition DHCP_REQUEST_TIMEOUT : Z := 10000.
Definition DHCP_HOSTNAME_MAX_LEN : Z := 32.
Definition DHCP_INFINITE_LEASE : Z := 4294967295.

Definition DHCP_OPT_SUBNET_MASK : Z := 1.
Definition DHCP_OPT_TIME_OFFSET : Z := 2.
Definition DHCP_OPT_ROUTERS : Z := 3.
Definition DHCP_OPT_TIME_SERVERS : Z := 4.
Definition DHCP_OPT_DOMAIN_NAME_SERVERS : Z := 6.
Definition DHCP_OPT_HOSTNAME : Z := 12.
Definition DHCP_OPT_NTP_SERVERS : Z := 42.
Definition DHCP_OPT_REQUESTED_ADDRESS : Z := 50.
Definition DHCP_OPT_LEASE_TIME : Z := 51.
Definition DHCP_OPT_MESSAGE_TYPE : Z := 53.
Definition DHCP_OPT_SERVER_IDENTIFIER : Z := 54.
Definition DHCP_OPT_PARAMETER_REQUEST_LIST : Z := 55.
Definition DHCP_OPT_RENEWAL_TIME : Z := 58.
Definition DHCP_OPT_CLIENT_IDENTIFIER : Z := 61.
Definition DHCP_OPT_DOMAIN_SEARCH_LIST : Z := 119.
Definition DHCP_OPT_END : Z := 255.

Definition DHCP_HTYPE_ETHER : Z := 1.

(** [struct DHCPdata]: field offsets and [sizeof]. *)
Definition DHCPdata_op : Z := 0.
Definition DHCPdata_htype : Z := 1.
Definition DHCPdata_hlen : Z := 2.
Definition DHCPdata_xid : Z := 4.
Definition DHCPdata_ciaddr : Z := 12.
Definition DHCPdata_yiaddr : Z := 16.
Definition DHCPdata_siaddr : Z := 20.
Definition DHCPdata_chaddr : Z := 28.
Definition sizeof_DHCPdata : Z := 236.

(** The magic cookie. *)
Definition cookie : list Z := [99; 130; 83; 99].

(** ** The state *)

(** The anonymous [enum] of [class EtherCard]. *)
Inductive DhcpState : Type :=
| DHCP_STATE_INIT
| DHCP_STATE_SELECTING
| DHCP_STATE_REQUESTING
| DHCP_STATE_BOUND
| DHCP_STATE_RENEWING
| DHCP_STATE_RELEASING
| DHCP_STATE_RELEASED.

Definition DhcpState_eqb (a b : DhcpState) : bool :=
  match a, b with
  | DHCP_STATE_INIT, DHCP_STATE_INIT
  | DHCP_STATE_SELECTING, DHCP_STATE_SELECTING
  | DHCP_STATE_REQUESTING, DHCP_STATE_REQUESTING
  | DHCP_STATE_BOUND, DHCP_STATE_BOUND
  | DHCP_STATE_RENEWING, DHCP_STATE_RENEWING
  | DHCP_STATE_RELEASING, DHCP_STATE_RELEASING
  | DHCP_STATE_RELEASED, DHCP_STATE_RELEASED => true
  | _, _ => false
  end.

(** What the client does to its collaborators, most recent first.  A
    [DhcpOptionCallback] is a function pointer: it is identified by a
    number, and calling it is an event carrying its three arguments (the
    option number, the [len] octets [data] points to, and [len]). *)
Inductive Event : Type :=
| EvUdpPrepare (sport : Z) (dip : ip4) (dport : Z)
| EvUdpTransmit (len : Z) (payload : list Z)
| EvSetGwIp (gw : ip4)
| EvCallback (fn : nat) (opt : Z) (data : list Z) (len : Z).

(** The static members of [EtherCard] that [dhcp.cpp] touches, the file
    statics of [dhcp.cpp], the packet buffer and the event log. *)
Record State : Type := mkState {
  mymac : list Z;
  myip : ip4;
  netmask : ip4;
  broadcastip : ip4;
  gwip : ip4;
  dhcpip : ip4;
  dnsip : ip4;
  hisip : ip4;
  using_dhcp : bool;
  dhcpState : DhcpState;
  hostname : list Z;
  currentXid : Z;
  stateTimer : Z;
  leaseStart : Z;
  leaseTime : Z;
  bufPtr : Z;
  dhcpCustomOptionNum : Z;
  dhcpCustomOptionCallback : option nat;
  gPB : buffer;
  trace : list Event
}.

Definition set_myip (v : ip4) (s : State) : State :=
  mkState (mymac s) v (netmask s) (broadcastip s) (gwip s) (dhcpip s)
    (dnsip s) (hisip s) (using_dhcp s) (dhcpState s) (hostname s)
    (currentXid s) (stateTimer s) (leaseStart s) (leaseTime s) (bufPtr s)
    (dhcpCustomOptionNum s) (dhcpCustomOptionCallback s) (gPB s) (trace s).

Definition set_netmask (v : ip4) (s : State) : State :=
  mkState (mymac s) (myip s) v (broadcastip s) (gwip s) (dhcpip s)
    (dnsip s) (hisip s) (using_dhcp s) (dhcpState s) (hostname s)
    (currentXid s) (stateTimer s) (leaseStart s) (leaseTime s) (bufPtr s)
    (dhcpCustomOptionNum s) (dhcpCustomOptionCallback s) (gPB s) (trace s).

Definition set_broadcastip (v : ip4) (s : State) : State :=
  mkState (mymac s) (myip s) (netmask s) v (gwip s) (dhcpip s)
    (dnsip s) (hisip s) (using_dhcp s) (dhcpState s) (hostname s)
    (currentXid s) (stateTimer s) (leaseStart s) (leaseTime s) (bufPtr s)
    (dhcpCustomOptionNum s) (dhcpCustomOptionCallback s) (gPB s) (trace s).

Definition set_gwip (v : ip4) (s : State) : State :=
  mkState (mymac s) (myip s) (netmask s) (broadcastip s) v (dhcpip s)
    (dnsip s) (hisip s) (using_dhcp s) (dhcpState s) (hostname s)
    (currentXid s) (stateTimer s) (leaseStart s) (leaseTime s) (bufPtr s)
    (dhcpCustomOptionNum s) (dhcpCustomOptionCallback s) (gPB s) (trace s).

Definition set_dhcpip (v : ip4) (s : State) : State :=
  mkState (mymac s) (myip s) (netmask s) (broadcastip s) (gwip s) v
    (dnsip s) (hisip s) (using_dhcp s) (dhcpState s) (hostname s)
    (currentXid s) (stateTimer s) (leaseStart s) (leaseTime s) (bufPtr s)
    (dhcpCustomOptionNum s) (dhcpCustomOptionCallback s) (gPB s) (trace s).

Definition set_dnsip (v : ip4) (s : State) : State :=
  mkState (mymac s) (myip s) (netmask s) (broadcastip s) (gwip s) (dhcpip s)
    v (hisip s) (using_dhcp s) (dhcpState s) (hostname s)
    (currentXid s) (stateTimer s) (leaseStart s) (leaseTime s) (bufPtr s)
    (dhcpCustomOptionNum s) (dhcpCustomOptionCallback s) (gPB s) (trace s).

Definition set_hisip (v : ip4) (s : State) : State :=
  mkState (mymac s) (myip s) (netmask s) (broadcastip s) (gwip s) (dhcpip s)
    (dnsip s) v (using_dhcp s) (dhcpState s) (hostname s)
    (currentXid s) (stateTimer s) (leaseStart s) (leaseTime s) (bufPtr s)
    (dhcpCustomOptionNum s) (dhcpCustomOptionCallback s) (gPB s) (trace s).

Definition set_using_dhcp (v : bool) (s : State) : State :=
  mkState (mymac s) (myip s) (netmask s) (broadcastip s) (gwip s) (dhcpip s)
    (dnsip s) (hisip s) v (dhcpState s) (hostname s)
    (currentXid s) (stateTimer s) (leaseStart s) (leaseTime s) (bufPtr s)
    (dhcpCustomOptionNum s) (dhcpCustomOptionCallback s) (gPB s) (trace s).

Definition set_dhcpState (v : DhcpState) (s : State) : State :=
  mkState (mymac s) (myip s) (netmask s) (broadcastip s) (gwip s) (dhcpip s)
    (dnsip s) (hisip s) (using_dhcp s) v (hostname s)
    (currentXid s) (stateTimer s) (leaseStart s) (leaseTime s) (bufPtr s)
    (dhcpCustomOptionNum s) (dhcpCustomOptionCallback s) (gPB s) (trace s).

Definition set_hostname (v : list Z) (s : State) : State :=
  mkState (mymac s) (myip s) (netmask s) (broadcastip s) (gwip s) (dhcpip s)
    (dnsip s) (hisip s) (using_dhcp s) (dhcpState s) v
    (currentXid s) (stateTimer s) (leaseStart s) (leaseTime s) (bufPtr s)
    (dhcpCustomOptionNum s) (dhcpCustomOptionCallback s) (gPB s) (trace s).

Definition set_currentXid (v : Z) (s : State) : State :=
  mkState (mymac s) (myip s) (netmask s) (broadcastip s) (gwip s) (dhcpip s)
    (dnsip s) (hisip s) (using_dhcp s) (dhcpState s) (hostname s)
    v (stateTimer s) (leaseStart s) (leaseTime s) (bufPtr s)
    (dhcpCustomOptionNum s) (dhcpCustomOptionCallback s) (gPB s) (trace s).

Definition set_stateTimer (v : Z) (s : State) : State :=
  mkState (mymac s) (myip s) (netmask s) (broadcastip s) (gwip s) (dhcpip s)
    (dnsip s) (hisip s) (using_dhcp s) (dhcpState s) (hostname s)
    (currentXid s) v (leaseStart s) (leaseTime s) (bufPtr s)
    (dhcpCustomOptionNum s) (dhcpCustomOptionCallback s) (gPB s) (trace s).

Definition set_leaseStart (v : Z) (s : State) : State :=
  mkState (mymac s) (myip s) (netmask s) (broadcastip s) (gwip s) (dhcpip s)
    (dnsip s) (hisip s) (using_dhcp s) (dhcpState s) (hostname s)
    (currentXid s) (stateTimer s) v (leaseTime s) (bufPtr s)
    (dhcpCustomOptionNum s) (dhcpCustomOptionCallback s) (gPB s) (trace s).

Definition set_leaseTime (v : Z) (s : State) : State :=
  mkState (mymac s) (myip s) (netmask s) (broadcastip s) (gwip s) (dhcpip s)
    (dnsip s) (hisip s) (using_dhcp s) (dhcpState s) (hostname s)
    (currentXid s) (stateTimer s) (leaseStart s) v (bufPtr s)
    (dhcpCustomOptionNum s) (dhcpCustomOptionCallback s) (gPB s) (trace s).

Definition set_bufPtr (v : Z) (s : State) : State :=
  mkState (mymac s) (myip s) (netmask s) (broadcastip s) (gwip s) (dhcpip s)
    (dnsip s) (hisip s) (using_dhcp s) (dhcpState s) (hostname s)
    (currentXid s) (stateTimer s) (leaseStart s) (leaseTime s) v
    (dhcpCustomOptionNum s) (dhcpCustomOptionCallback s) (gPB s) (trace s).

Definition set_dhcpCustomOptionNum (v : Z) (s : State) : State :=
  mkState (mymac s) (myip s) (netmask s) (broadcastip s) (gwip s) (dhcpip s)
    (dnsip s) (hisip s) (using_dhcp s) (dhcpState s) (hostname s)
    (currentXid s) (stateTimer s) (leaseStart s) (leaseTime s) (bufPtr s)
    v (dhcpCustomOptionCallback s) (gPB s) (trace s).

Definition set_dhcpCustomOptionCallback (v : option nat) (s : State) : State :=
  mkState (mymac s) (myip s) (netmask s) (broadcastip s) (gwip s) (dhcpip s)
    (dnsip s) (hisip s) (using_dhcp s) (dhcpState s) (hostname s)
    (currentXid s) (stateTimer s) (leaseStart s) (leaseTime s) (bufPtr s)
    (dhcpCustomOptionNum s) v (gPB s) (trace s).

Definition set_gPB (v : buffer) (s : State) : State :=
  mkState (mymac s) (myip s) (netmask s) (broadcastip s) (gwip s) (dhcpip s)
    (dnsip s) (hisip s) (using_dhcp s) (dhcpState s) (hostname s)
    (currentXid s) (stateTimer s) (leaseStart s) (leaseTime s) (bufPtr s)
    (dhcpCustomOptionNum s) (dhcpCustomOptionCallback s) v (trace s).

(** Record one call to a collaborator. *)
Definition emit (e : Event) (s : State) : State :=
  mkState (mymac s) (myip s) (netmask s) (broadcastip s) (gwip s) (dhcpip s)
    (dnsip s) (hisip s) (using_dhcp s) (dhcpState s) (hostname s)
    (currentXid s) (stateTimer s) (leaseStart s) (leaseTime s) (bufPtr s)
    (dhcpCustomOptionNum s) (dhcpCustomOptionCallback s) (gPB s)
    (e :: trace s).

(** ** Outcome of a call

    The only way [dhcp.cpp] can go wrong inside the model is a call through
    a null [DhcpOptionCallback]. *)
Inductive res (A : Type) : Type :=
| Ok (a : A)
| NullCall.
Arguments Ok {A} a.
Arguments NullCall {A}.

Definition bind {A B : Type} (r : res A) (k : A -> res B) : res B :=
  match r with
  | Ok a => k a
  | NullCall => NullCall
  end.

Notation "x <- r ;; k" := (bind r (fun x => k))
  (at level 61, r at next level, right associativity).

(** ** The link layer ([net.h], [udp.cpp], [tcpip.cpp])

    The link layer is not modelled.  The buffer offsets of [net.h] and
    what [udpPrepare] and [udpTransmit] leave in the buffer are parameters
    of the development; [dhcp.cpp] is read against any instance.
    [UDP_SRC_PORT_H_P] is not used by [dhcp.cpp]; it is here to say what the
    source port of a frame is. *)
Class Link : Type := {
  ETH_DST_MAC : Z;
  UDP_SRC_PORT_H_P : Z;
  UDP_SRC_PORT_L_P : Z;
  UDP_DATA_P : Z;
  udpPrepare_buf : Z -> ip4 -> Z -> State -> buffer;
  udpTransmit_buf : Z -> State -> buffer
}.

Section Dhcp.

Context {link : Link}.

(** [EtherCard::udpPrepare(sport, dip, dport)] *)
Definition udpPrepare (sport : Z) (dip : ip4) (dport : Z) (s : State) : State :=
  emit (EvUdpPrepare sport dip dport)
    (set_gPB (udpPrepare_buf sport dip dport s) s).

(** [EtherCard::udpTransmit(len)]: the [len] octets at [gPB + UDP_DATA_P]
    go out as the UDP payload. *)
Definition udpTransmit (len : Z) (s : State) : State :=
  emit (EvUdpTransmit len (peeks (gPB s) UDP_DATA_P (Z.to_nat len)))
    (set_gPB (udpTransmit_buf len s) s).

(** [EtherCard::setGwIp(gwip)] *)
Definition setGwIp (gw : ip4) (s : State) : State := emit (EvSetGwIp gw) s.

(** ** Writing through [bufPtr] *)

Definition addToBuf (b : Z) (s : State) : State :=
  set_bufPtr (bufPtr s + 1) (set_gPB (poke (gPB s) (bufPtr s) b) s).

(** The [while (len-- > 0)] loop of [addBytes]: one [addToBuf] per octet of
    [data]. *)
Fixpoint addBytes_loop (len : nat) (data : list Z) (s : State) : State :=
  match len with
  | O => s
  | S len' => addBytes_loop len' (tl data) (addToBuf (hd 0 data) s)
  end.

Definition addBytes (len : Z) (data : list Z) (s : State) : State :=
  addBytes_loop (Z.to_nat (u8 len)) data s.

Definition addOption (opt len : Z) (data : list Z) (s : State) : State :=
  addBytes len data (addToBuf len (addToBuf opt s)).

(** [strlen] of a [char] array that holds a NUL: the number of characters
    before the first NUL.  On an array without a NUL the C function reads
    past the array, which no list can tell; the value here is then the
    length of the list, and the properties of the host name that do not
    hold whatever it is are stated for an array with a NUL
    ([terminated]). *)
Fixpoint strlen (a : list Z) : Z :=
  match a with
  | [] => 0
  | c :: rest => if c =? 0 then 0 else 1 + strlen rest
  end.

(** A [uint32_t] stored at [gPB + p], least significant octet first (the
    targets of this port are little-endian). *)
Definition poke32 (m : buffer) (p v : Z) : buffer :=
  pokes m p [v; Z.shiftr v 8; Z.shiftr v 16; Z.shiftr v 24].

Definition peek32 (m : buffer) (p : Z) : Z :=
  peek m p + 256 * peek m (p + 1) + 65536 * peek m (p + 2)
  + 16777216 * peek m (p + 3).

(** ** [send_dhcp_message] *)

Definition send_dhcp_message (requestip : option ip4) (s : State) : State :=
  let s := set_gPB (memset (gPB s) 0 0 (UDP_DATA_P + sizeof_DHCPdata)) s in
  let s := udpPrepare DHCP_CLIENT_PORT
             (if DhcpState_eqb (dhcpState s) DHCP_STATE_BOUND
              then dhcpip s else allOnes_ip)
             DHCP_SERVER_PORT s in
  let s := set_gPB (poke_mac (gPB s) ETH_DST_MAC allOnes) s in
  let dhcpPtr := UDP_DATA_P in
  let s := set_gPB (poke (gPB s) (dhcpPtr + DHCPdata_op) DHCP_BOOTP_REQUEST) s in
  let s := set_gPB (poke (gPB s) (dhcpPtr + DHCPdata_htype) 1) s in
  let s := set_gPB (poke (gPB s) (dhcpPtr + DHCPdata_hlen) 6) s in
  let s := set_gPB (poke32 (gPB s) (dhcpPtr + DHCPdata_xid) (currentXid s)) s in
  let s := if DhcpState_eqb (dhcpState s) DHCP_STATE_BOUND
           then set_gPB (poke_ip (gPB s) (dhcpPtr + DHCPdata_ciaddr) (myip s)) s
           else s in
  let s := set_gPB (poke_mac (gPB s) (dhcpPtr + DHCPdata_chaddr) (mymac s)) s in
  let s := set_bufPtr (UDP_DATA_P + sizeof_DHCPdata) s in
  let s := fold_left (fun s b => addToBuf b s) cookie s in
  let s := addToBuf DHCP_OPT_MESSAGE_TYPE s in
  let s := addToBuf 1 s in
  let s := addToBuf (if DhcpState_eqb (dhcpState s) DHCP_STATE_INIT
                     then DHCP_DISCOVER else DHCP_REQUEST) s in
  let s := addToBuf DHCP_OPT_CLIENT_IDENTIFIER s in
  let s := addToBuf (1 + ETH_LEN) s in
  let s := addToBuf DHCP_HTYPE_ETHER s in
  let s := addBytes ETH_LEN (mymac s) s in
  let s := if hd 0 (hostname s) =? 0 then s
           else addOption DHCP_OPT_HOSTNAME (strlen (hostname s)) (hostname s) s in
  let s := match requestip with
           | None => s
           | Some ip =>
             let s := addOption DHCP_OPT_REQUESTED_ADDRESS IP_LEN (ip_bytes ip) s in
             addOption DHCP_OPT_SERVER_IDENTIFIER IP_LEN (ip_bytes (dhcpip s)) s
           end in
  let len := 8 in
  let len := if dhcpCustomOptionNum s =? 0 then len else len + 1 in
  let s := addToBuf DHCP_OPT_PARAMETER_REQUEST_LIST s in
  let s := addToBuf len s in
  let s := addToBuf DHCP_OPT_SUBNET_MASK s in
  let s := addToBuf DHCP_OPT_TIME_OFFSET s in
  let s := addToBuf DHCP_OPT_ROUTERS s in
  let s := addToBuf DHCP_OPT_TIME_SERVERS s in
  let s := addToBuf DHCP_OPT_DOMAIN_NAME_SERVERS s in
  let s := addToBuf DHCP_OPT_NTP_SERVERS s in
  let s := addToBuf DHCP_OPT_DOMAIN_SEARCH_LIST s in
  let s := if dhcpCustomOptionNum s =? 0 then s
           else addToBuf (dhcpCustomOptionNum s) s in
  let s := addToBuf DHCP_OPT_END s in
  udpTransmit (bufPtr s - UDP_DATA_P) s.

(** ** Reading a received frame *)

(** Where the options start: 4 octets (the cookie) past the [DHCPdata]
    that [dhcpPtr] points to. *)
Definition first_option : Z := UDP_DATA_P + sizeof_DHCPdata + 4.

(** The [do ... while (ptr < gPB + len)] of [process_dhcp_offer].  Every
    turn moves [ptr] forward by at least 2, so [len - ptr] turns are enough
    ([fuel]). *)
Fixpoint offer_scan (fuel : nat) (len ptr : Z) (s : State) : State :=
  let option := peek (gPB s) ptr in
  let optionLen := peek (gPB s) (ptr + 1) in
  let ptr := ptr + 2 in
  if option =? DHCP_OPT_SERVER_IDENTIFIER then
    set_dhcpip (peek_ip (gPB s) ptr) s
  else
    let ptr := ptr + optionLen in
    if ptr <? len then
      match fuel with
      | O => s
      | S fuel' => offer_scan fuel' len ptr s
      end
    else s.

(** [process_dhcp_offer(len, offeredip)]; the out-parameter is returned. *)
Definition process_dhcp_offer (len : Z) (s : State) : ip4 * State :=
  let dhcpPtr := UDP_DATA_P in
  let offeredip := peek_ip (gPB s) (dhcpPtr + DHCPdata_yiaddr) in
  (offeredip, offer_scan (Z.to_nat (len - first_option)) len first_option s).

(** [leaseTime = 0; for (i = 0; i < 4; i++) leaseTime = (leaseTime << 8) + ptr[i];] *)
Definition read_lease (m : buffer) (ptr : Z) : Z :=
  fold_left (fun leaseTime i => u32 (Z.shiftl leaseTime 8 + peek m (ptr + i)))
    [0; 1; 2; 3] 0.

(** The [switch (option)] of [process_dhcp_ack]; [ptr] is past the length
    octet. *)
Definition ack_switch (option ptr : Z) (s : State) : State :=
  if option =? DHCP_OPT_SUBNET_MASK then set_netmask (peek_ip (gPB s) ptr) s
  else if option =? DHCP_OPT_ROUTERS then set_gwip (peek_ip (gPB s) ptr) s
  else if option =? DHCP_OPT_DOMAIN_NAME_SERVERS then
    set_dnsip (peek_ip (gPB s) ptr) s
  else if (option =? DHCP_OPT_LEASE_TIME) || (option =? DHCP_OPT_RENEWAL_TIME) then
    let s := set_leaseTime (read_lease (gPB s) ptr) s in
    if leaseTime s =? DHCP_INFINITE_LEASE then s
    else set_leaseTime (u32 (leaseTime s * 1000)) s
  else s.

(** [dhcpCustomOptionCallback(option, ptr, optionLen);] *)
Definition call_callback (option ptr optionLen : Z) (s : State) : res State :=
  match dhcpCustomOptionCallback s with
  | None => NullCall
  | Some fn =>
    Ok (emit (EvCallback fn option (peeks (gPB s) ptr (Z.to_nat optionLen))
                optionLen) s)
  end.

(** One turn of the [do ... while] of [process_dhcp_ack]: the state, the
    new [ptr] and [done]. *)
Definition ack_turn (ptr : Z) (s : State) : res (State * Z * bool) :=
  let option := peek (gPB s) ptr in
  let optionLen := peek (gPB s) (ptr + 1) in
  let ptr := ptr + 2 in
  let s := ack_switch option ptr s in
  let done := option =? DHCP_OPT_END in
  s <- call_callback option ptr optionLen s ;;
  Ok (s, ptr + optionLen, done).

Fixpoint ack_scan (fuel : nat) (len ptr : Z) (s : State) : res State :=
  r <- ack_turn ptr s ;;
  let '(s, ptr, done) := r in
  if negb done && (ptr <? len) then
    match fuel with
    | O => Ok s
    | S fuel' => ack_scan fuel' len ptr s
    end
  else Ok s.

Definition process_dhcp_ack (len : Z) (s : State) : res State :=
  let dhcpPtr := UDP_DATA_P in
  let s := set_myip (peek_ip (gPB s) (dhcpPtr + DHCPdata_yiaddr)) s in
  ack_scan (Z.to_nat (len - first_option)) len first_option s.

(** The [do ... while] of [dhcp_received_message_type]. *)
Fixpoint message_type_scan (fuel : nat) (m : buffer) (len msgType ptr : Z) : bool :=
  let option := peek m ptr in
  let optionLen := peek m (ptr + 1) in
  let ptr := ptr + 2 in
  if (option =? DHCP_OPT_MESSAGE_TYPE) && (peek m ptr =? msgType) then true
  else
    let ptr := ptr + optionLen in
    if ptr <? len then
      match fuel with
      | O => false
      | S fuel' => message_type_scan fuel' m len msgType ptr
      end
    else false.

Definition dhcp_received_message_type (len msgType : Z) (s : State) : bool :=
  let dhcpPtr := UDP_DATA_P in
  if (70 <=? len)
     && (peek (gPB s) UDP_SRC_PORT_L_P =? DHCP_SERVER_PORT)
     && (peek32 (gPB s) (dhcpPtr + DHCPdata_xid) =? currentXid s)
  then message_type_scan (Z.to_nat (len - first_option)) (gPB s) len msgType
         first_option
  else false.

(** ** [dhcpSetup], [dhcpRelease], [dhcpAddOptionCallback] *)

Definition toAsciiHex (b : Z) : Z :=
  let c := Z.land b 15 in
  c + (if c <=? 9 then 48 else 65 - 10).

Fixpoint store_at (a : list Z) (i : nat) (v : Z) : list Z :=
  match a, i with
  | [], _ => []
  | _ :: rest, O => v :: rest
  | c :: rest, S i' => c :: store_at rest i' v
  end.

(** [a[i] = v]; a store outside the array is left out of the model. *)
Definition store (a : list Z) (i v : Z) : list Z :=
  if i <? 0 then a else store_at a (Z.to_nat i) v.

(** [strncpy(dst, src, n)] into an array of [n] [char]: the characters of
    [src] up to its terminator, at most [n] of them, the rest zero. *)
Fixpoint strncpy (src : list Z) (n : nat) : list Z :=
  match n with
  | O => []
  | S n' =>
    match src with
    | [] => 0 :: strncpy [] n'
    | c :: rest => if c =? 0 then 0 :: strncpy [] n' else c :: strncpy rest n'
    end
  end.

(** [static char hostname[DHCP_HOSTNAME_MAX_LEN] = "Arduino-ENC28j60-00"] *)
Definition hostname_init : list Z :=
  strncpy [65; 114; 100; 117; 105; 110; 111; 45; 69; 78; 67; 50; 56; 106;
           54; 48; 45; 48; 48] (Z.to_nat DHCP_HOSTNAME_MAX_LEN).

(** [hname] is [None] for [NULL]; [fromRam] only selects between [strncpy]
    and [strncpy_P], which differ in the address space they read. *)
Definition dhcpSetup (hname : option (list Z)) (fromRam : bool) (s : State)
  : bool * State :=
  let s := set_using_dhcp true s in
  let s :=
    match hname with
    | Some name =>
      set_hostname (strncpy name (Z.to_nat DHCP_HOSTNAME_MAX_LEN)) s
    | None =>
      let s := set_hostname
                 (store (hostname s) (strlen (hostname s) - 2)
                    (toAsciiHex (Z.shiftr (nth 5 (mymac s) 0) 4))) s in
      set_hostname
        (store (hostname s) (strlen (hostname s) - 1)
           (toAsciiHex (nth 5 (mymac s) 0))) s
    end in
  let s := set_dhcpState DHCP_STATE_INIT s in
  (true, s).

Definition dhcpRelease (s : State) : State :=
  let s := set_dhcpState DHCP_STATE_RELEASING s in
  let s := set_gPB (memset (gPB s) 0 0 (UDP_DATA_P + sizeof_DHCPdata)) s in
  let s := udpPrepare DHCP_CLIENT_PORT allOnes_ip DHCP_SERVER_PORT s in
  let s := set_gPB (poke_mac (gPB s) ETH_DST_MAC allOnes) s in
  let dhcpPtr := UDP_DATA_P in
  let s := set_gPB (poke (gPB s) (dhcpPtr + DHCPdata_op) DHCP_BOOTP_REQUEST) s in
  let s := set_gPB (poke (gPB s) (dhcpPtr + DHCPdata_htype) 1) s in
  let s := set_gPB (poke (gPB s) (dhcpPtr + DHCPdata_hlen) 6) s in
  let s := set_gPB (poke32 (gPB s) (dhcpPtr + DHCPdata_xid) (currentXid s)) s in
  let s := set_gPB (poke_ip (gPB s) (dhcpPtr + DHCPdata_ciaddr) (myip s)) s in
  let s := set_gPB (poke_mac (gPB s) (dhcpPtr + DHCPdata_chaddr) (mymac s)) s in
  let s := set_gPB (poke_ip (gPB s) (dhcpPtr + DHCPdata_siaddr) (dhcpip s)) s in
  let s := set_bufPtr (UDP_DATA_P + sizeof_DHCPdata) s in
  let s := fold_left (fun s b => addToBuf b s) cookie s in
  let s := addToBuf DHCP_OPT_MESSAGE_TYPE s in
  let s := addToBuf 1 s in
  let s := addToBuf DHCP_RELEASE s in
  let s := addToBuf DHCP_OPT_CLIENT_IDENTIFIER s in
  let s := addToBuf (1 + ETH_LEN) s in
  let s := addToBuf DHCP_HTYPE_ETHER s in
  let s := addBytes ETH_LEN (mymac s) s in
  let s := addOption DHCP_OPT_SERVER_IDENTIFIER IP_LEN (ip_bytes (dhcpip s)) s in
  let s := addToBuf DHCP_OPT_END s in
  let s := udpTransmit (bufPtr s - UDP_DATA_P) s in
  let s := set_gPB (memset (gPB s) 0 0 (UDP_DATA_P + sizeof_DHCPdata)) s in
  let s := set_myip ip_zero s in
  let s := set_netmask ip_zero s in
  let s := set_broadcastip ip_zero s in
  let s := set_gwip ip_zero s in
  let s := set_dhcpip ip_zero s in
  let s := set_dnsip ip_zero s in
  let s := set_hisip ip_zero s in
  let s := set_dhcpState DHCP_STATE_RELEASED s in
  set_using_dhcp false s.

Definition dhcpAddOptionCallback (opt : Z) (callback : option nat)
  (s : State) : State :=
  set_dhcpCustomOptionCallback callback (set_dhcpCustomOptionNum (u8 opt) s).

(** ** [DhcpStateMachine]

    [millis k] is what the [k]-th call of [millis()] inside this invocation
    returns.  The [DEBUG_PRINT]s expand to nothing. *)
Definition DhcpStateMachine (millis : nat -> Z) (len : Z) (s : State)
  : res State :=
  match dhcpState s with
  | DHCP_STATE_INIT =>
    let s := set_currentXid (u32 (millis 0%nat)) s in
    let s := set_myip ip_zero s in
    let s := send_dhcp_message None s in
    let s := set_dhcpState DHCP_STATE_SELECTING s in
    Ok (set_stateTimer (u32 (millis 1%nat)) s)
  | DHCP_STATE_SELECTING =>
    if dhcp_received_message_type len DHCP_OFFER s then
      let '(offeredip, s) := process_dhcp_offer len s in
      let s := send_dhcp_message (Some offeredip) s in
      let s := set_dhcpState DHCP_STATE_REQUESTING s in
      Ok (set_stateTimer (u32 (millis 0%nat)) s)
    else if DHCP_REQUEST_TIMEOUT <? sub32 (u32 (millis 0%nat)) (stateTimer s)
    then Ok (set_dhcpState DHCP_STATE_INIT s)
    else Ok s
  | DHCP_STATE_REQUESTING
  | DHCP_STATE_RENEWING =>
    if dhcp_received_message_type len DHCP_ACK s then
      s <- process_dhcp_ack len s ;;
      let s := set_leaseStart (u32 (millis 0%nat)) s in
      let s := if ip_first (gwip s) =? 0 then s else setGwIp (gwip s) s in
      Ok (set_dhcpState DHCP_STATE_BOUND s)
    else if DHCP_REQUEST_TIMEOUT <? sub32 (u32 (millis 0%nat)) (stateTimer s)
    then Ok (set_dhcpState DHCP_STATE_INIT s)
    else Ok s
  | DHCP_STATE_BOUND =>
    if negb (leaseTime s =? DHCP_INFINITE_LEASE)
       && (leaseTime s <=? sub32 (u32 (millis 0%nat)) (leaseStart s))
    then
      let s := send_dhcp_message (Some (myip s)) s in
      let s := set_dhcpState DHCP_STATE_RENEWING s in
      Ok (set_stateTimer (u32 (millis 1%nat)) s)
    else Ok s
  | DHCP_STATE_RELEASING => Ok s
  | DHCP_STATE_RELEASED => Ok s
  end.

End Dhcp.

(** ** An instance of the link layer

    The frame layout of the ENC28J60 driver (Ethernet header 14 octets, IPv4
    header 20, UDP header 8), with a [udpPrepare] that fills in the two
    ports and a [udpTransmit] that fills in the UDP length.  The examples
    run the client on it. *)
Definition enc28j60_udpPrepare (sport : Z) (dip : ip4) (dport : Z) (s : State)
  : buffer :=
  pokes (pokes (gPB s) 30 (ip_bytes dip))
    34 [Z.shiftr sport 8; sport; Z.shiftr dport 8; dport].

Definition enc28j60_udpTransmit (len : Z) (s : State) : buffer :=
  pokes (gPB s) 38 [Z.shiftr (len + 8) 8; len + 8].

#[export] Instance enc28j60 : Link := {|
  ETH_DST_MAC := 0;
  UDP_SRC_PORT_H_P := 34;
  UDP_SRC_PORT_L_P := 35;
  UDP_DATA_P := 42;
  udpPrepare_buf := enc28j60_udpPrepare;
  udpTransmit_buf := enc28j60_udpTransmit
|}.

(** The client before [dhcpSetup]: zero-initialised statics. *)
Definition boot (mac : list Z) : State :=
  mkState mac ip_zero ip_zero ip_zero ip_zero ip_zero ip_zero ip_zero false
    DHCP_STATE_INIT hostname_init 0 0 0 0 0 0 None (fun _ => 0) [].

Definition sample_mac : list Z := [170; 187; 204; 221; 238; 255].

(** A received BOOTP reply in the ENC28J60 layout: source port [sport_h],
    [sport_l], transaction id [xid] (as it lies in memory), [yiaddr] and the
    octets after the cookie. *)
Definition reply_frame (sport_h sport_l : Z) (xid : list Z) (yiaddr : ip4)
  (options : list Z) : list Z :=
  repeat 0 34 ++ [sport_h; sport_l] ++ repeat 0 6
  ++ [2; 1; 6; 0] ++ xid ++ repeat 0 8 ++ ip_bytes yiaddr ++ repeat 0 8
  ++ repeat 0 208 ++ cookie ++ options.

(** The source port of the UDP header in the buffer. *)
Definition udp_src_port {link : Link} (m : buffer) : Z :=
  256 * peek m UDP_SRC_PORT_H_P + peek m UDP_SRC_PORT_L_P.

(** A client waiting in [st] since [t0] for an answer to transaction
    [xid], with [frame] in the buffer. *)
Definition waiting (st : DhcpState) (xid t0 : Z) (frame : list Z) : State :=
  set_gPB (buffer_of frame)
    (set_stateTimer t0 (set_currentXid xid (set_dhcpState st (boot sample_mac)))).

(** What a tick does in SELECTING, REQUESTING or RENEWING once the frame in
    the buffer has been rejected: only the timeout is looked at. *)
Definition timeout_tick (millis : nat -> Z) (s : State) : State :=
  if DHCP_REQUEST_TIMEOUT <? sub32 (u32 (millis 0%nat)) (stateTimer s)
  then set_dhcpState DHCP_STATE_INIT s
  else s.

(** An OFFER from port 67 answering transaction 7. *)
Definition sample_offer : list Z :=
  reply_frame 0 67 [7; 0; 0; 0] (192, 168, 1, 50)
    [53; 1; 2; 54; 4; 192; 168; 1; 1; 255].

(** The same answer, sent from UDP port 323 = 0x0143. *)
Definition offer_from_port_323 : list Z :=
  reply_frame 1 67 [7; 0; 0; 0] (192, 168, 1, 50)
    [53; 1; 2; 54; 4; 192; 168; 1; 1; 255].

(** ** The options of an ACK *)

(** The options the loop of [process_dhcp_ack] visits, in order: the option
    number, the offset of its value and its length octet. *)
Fixpoint ack_options (fuel : nat) (m : buffer) (len ptr : Z)
  : list (Z * Z * Z) :=
  let option := peek m ptr in
  let optionLen := peek m (ptr + 1) in
  let ptr := ptr + 2 in
  (option, ptr, optionLen)
  :: if negb (option =? DHCP_OPT_END) && (ptr + optionLen <? len) then
       match fuel with
       | O => []
       | S fuel' => ack_options fuel' m len (ptr + optionLen)
       end
     else [].

(** The call the registered callback [fn] gets for a visited option. *)
Definition callback_event (fn : nat) (m : buffer) (o : Z * Z * Z) : Event :=
  let '(option, ptr, optionLen) := o in
  EvCallback fn option (peeks m ptr (Z.to_nat optionLen)) optionLen.

(** What one visited option does when [fn] is registered. *)
Definition ack_effect (fn : nat) (s : State) (o : Z * Z * Z) : State :=
  let '(option, ptr, optionLen) := o in
  let s := ack_switch option ptr s in
  emit (callback_event fn (gPB s) o) s.

(** Four octets, most significant first. *)
Definition be32 (b0 b1 b2 b3 : Z) : Z :=
  ((b0 * 256 + b1) * 256 + b2) * 256 + b3.

(** The value of the Lease Time or Renewal Time option at [ptr]. *)
Definition lease_seconds (m : buffer) (ptr : Z) : Z :=
  be32 (peek m ptr) (peek m (ptr + 1)) (peek m (ptr + 2)) (peek m (ptr + 3)).

(** The duration stored for a lease of [v] seconds. *)
Definition lease_ms (v : Z) : Z :=
  if v =? DHCP_INFINITE_LEASE then v else (v * 1000) mod 2 ^ 32.

(** The lease duration after the visited options [opts]: the last Lease
    Time or Renewal Time option decides. *)
Definition lease_after (m : buffer) (opts : list (Z * Z * Z)) (lt0 : Z) : Z :=
  fold_left
    (fun lt o =>
       let '(option, ptr, _) := o in
       if (option =? DHCP_OPT_LEASE_TIME) || (option =? DHCP_OPT_RENEWAL_TIME)
       then lease_ms (lease_seconds m ptr)
       else lt)
    opts lt0.

(** An ACK for transaction 7 with mask, router and a lease of 3600 s. *)
Definition sample_ack : list Z :=
  reply_frame 0 67 [7; 0; 0; 0] (192, 168, 1, 50)
    [53; 1; 5; 1; 4; 255; 255; 255; 0; 3; 4; 192; 168; 1; 1;
     51; 4; 0; 0; 14; 16; 43; 2; 171; 205; 255].

(** An ACK for transaction 7 with a Lease Time of 3600 s, then a Renewal
    Time of 1800 s. *)
Definition two_lease_ack : list Z :=
  reply_frame 0 67 [7; 0; 0; 0] (192, 168, 1, 50)
    [53; 1; 5; 51; 4; 0; 0; 14; 16; 58; 4; 0; 0; 7; 8; 255].

(** ** What goes out *)

(** A run of [addToBuf]: the octets [l] written at [bufPtr]. *)
Definition emit_bytes (l : list Z) (s : State) : State :=
  set_bufPtr (bufPtr s + Z.of_nat (length l))
    (set_gPB (pokes (gPB s) (bufPtr s) l) s).

(** The octets [send_dhcp_message] writes after the [DHCPdata]: up to the
    host name, the two options of a request for an address, and from the
    parameter request list on. *)
Definition request_options_head (s : State) : list Z :=
  cookie
  ++ [DHCP_OPT_MESSAGE_TYPE; 1;
      if DhcpState_eqb (dhcpState s) DHCP_STATE_INIT
      then DHCP_DISCOVER else DHCP_REQUEST]
  ++ [DHCP_OPT_CLIENT_IDENTIFIER; 1 + ETH_LEN; DHCP_HTYPE_ETHER]
  ++ take_bytes 6 (mymac s)
  ++ (if hd 0 (hostname s) =? 0 then []
      else [DHCP_OPT_HOSTNAME; strlen (hostname s)]
           ++ take_bytes (Z.to_nat (u8 (strlen (hostname s)))) (hostname s)).

Definition requested_address (s : State) (requestip : option ip4) : list Z :=
  match requestip with
  | None => []
  | Some ip =>
    [DHCP_OPT_REQUESTED_ADDRESS; IP_LEN] ++ ip_bytes ip
    ++ [DHCP_OPT_SERVER_IDENTIFIER; IP_LEN] ++ ip_bytes (dhcpip s)
  end.

Definition request_options_tail (s : State) : list Z :=
  [DHCP_OPT_PARAMETER_REQUEST_LIST;
   if dhcpCustomOptionNum s =? 0 then 8 else 8 + 1;
   DHCP_OPT_SUBNET_MASK; DHCP_OPT_TIME_OFFSET; DHCP_OPT_ROUTERS;
   DHCP_OPT_TIME_SERVERS; DHCP_OPT_DOMAIN_NAME_SERVERS;
   DHCP_OPT_NTP_SERVERS; DHCP_OPT_DOMAIN_SEARCH_LIST]
  ++ (if dhcpCustomOptionNum s =? 0 then [] else [dhcpCustomOptionNum s])
  ++ [DHCP_OPT_END].

Definition request_options (s : State) (requestip : option ip4) : list Z :=
  request_options_head s ++ requested_address s requestip
  ++ request_options_tail s.

(** The octets [dhcpRelease] writes after the [DHCPdata]. *)
Definition release_options (s : State) : list Z :=
  cookie
  ++ [DHCP_OPT_MESSAGE_TYPE; 1; DHCP_RELEASE]
  ++ [DHCP_OPT_CLIENT_IDENTIFIER; 1 + ETH_LEN; DHCP_HTYPE_ETHER]
  ++ take_bytes 6 (mymac s)
  ++ [DHCP_OPT_SERVER_IDENTIFIER; IP_LEN] ++ ip_bytes (dhcpip s)
  ++ [DHCP_OPT_END].

(** Fields of a UDP payload that holds a DHCP message. *)
Definition payload_ciaddr (payload : list Z) : list Z :=
  firstn 4 (skipn 12 payload).

Definition payload_siaddr (payload : list Z) : list Z :=
  firstn 4 (skipn 20 payload).

Definition payload_options (payload : list Z) : list Z :=
  skipn 236 payload.

(** The option numbers met when the octets after the cookie are walked as
    tag, length, value, up to End. *)
Fixpoint tlv_tags (fuel : nat) (l : list Z) : list Z :=
  match fuel, l with
  | S fuel', tag :: len :: rest =>
    if tag =? DHCP_OPT_END then []
    else tag :: tlv_tags fuel' (skipn (Z.to_nat len) rest)
  | _, _ => []
  end.

(** The state [send_dhcp_message] has reached when it starts on the
    options: the buffer holds the [DHCPdata], [bufPtr] is just past it. *)
Definition request_header {link : Link} (s : State) : State :=
  let bound := DhcpState_eqb (dhcpState s) DHCP_STATE_BOUND in
  let dip := if bound then dhcpip s else allOnes_ip in
  let m := udpPrepare_buf DHCP_CLIENT_PORT dip DHCP_SERVER_PORT
             (set_gPB (memset (gPB s) 0 0 (UDP_DATA_P + sizeof_DHCPdata)) s) in
  let m := poke_mac m ETH_DST_MAC allOnes in
  let m := poke m (UDP_DATA_P + DHCPdata_op) DHCP_BOOTP_REQUEST in
  let m := poke m (UDP_DATA_P + DHCPdata_htype) 1 in
  let m := poke m (UDP_DATA_P + DHCPdata_hlen) 6 in
  let m := poke32 m (UDP_DATA_P + DHCPdata_xid) (currentXid s) in
  let m := if bound then poke_ip m (UDP_DATA_P + DHCPdata_ciaddr) (myip s)
           else m in
  let m := poke_mac m (UDP_DATA_P + DHCPdata_chaddr) (mymac s) in
  set_bufPtr (UDP_DATA_P + sizeof_DHCPdata)
    (set_gPB m (emit (EvUdpPrepare DHCP_CLIENT_PORT dip DHCP_SERVER_PORT) s)).

(** The same point in [dhcpRelease]. *)
Definition release_header {link : Link} (s : State) : State :=
  let s := set_dhcpState DHCP_STATE_RELEASING s in
  let m := udpPrepare_buf DHCP_CLIENT_PORT allOnes_ip DHCP_SERVER_PORT
             (set_gPB (memset (gPB s) 0 0 (UDP_DATA_P + sizeof_DHCPdata)) s) in
  let m := poke_mac m ETH_DST_MAC allOnes in
  let m := poke m (UDP_DATA_P + DHCPdata_op) DHCP_BOOTP_REQUEST in
  let m := poke m (UDP_DATA_P + DHCPdata_htype) 1 in
  let m := poke m (UDP_DATA_P + DHCPdata_hlen) 6 in
  let m := poke32 m (UDP_DATA_P + DHCPdata_xid) (currentXid s) in
  let m := poke_ip m (UDP_DATA_P + DHCPdata_ciaddr) (myip s) in
  let m := poke_mac m (UDP_DATA_P + DHCPdata_chaddr) (mymac s) in
  let m := poke_ip m (UDP_DATA_P + DHCPdata_siaddr) (dhcpip s) in
  set_bufPtr (UDP_DATA_P + sizeof_DHCPdata)
    (set_gPB m
       (emit (EvUdpPrepare DHCP_CLIENT_PORT allOnes_ip DHCP_SERVER_PORT) s)).

(** What [dhcpRelease] does after [udpTransmit]. *)
Definition release_cleanup {link : Link} (s : State) : State :=
  let s := set_gPB (memset (gPB s) 0 0 (UDP_DATA_P + sizeof_DHCPdata)) s in
  let s := set_myip ip_zero s in
  let s := set_netmask ip_zero s in
  let s := set_broadcastip ip_zero s in
  let s := set_gwip ip_zero s in
  let s := set_dhcpip ip_zero s in
  let s := set_dnsip ip_zero s in
  let s := set_hisip ip_zero s in
  let s := set_dhcpState DHCP_STATE_RELEASED s in
  set_using_dhcp false s.

(** A client that has held 192.168.1.50 from server 192.168.1.1 since
    t = 100 ms, for 3600 s. *)
Definition bound_sample : State :=
  set_leaseTime 3600000
    (set_leaseStart 100
       (set_dhcpip (192, 168, 1, 1)
          (set_myip (192, 168, 1, 50)
             (set_dhcpState DHCP_STATE_BOUND
                (snd (dhcpSetup None false (boot sample_mac))))))).

(** ** The options of a frame *)

(** The options of a received frame as all three loops of [dhcp.cpp] step
    through them: option number, offset of the value, length octet.  The
    first option is read whatever [len] is; the walk goes on while the next
    option starts before [len]. *)
Fixpoint tlv_walk (fuel : nat) (m : buffer) (len ptr : Z) : list (Z * Z * Z) :=
  let option := peek m ptr in
  let optionLen := peek m (ptr + 1) in
  let ptr := ptr + 2 in
  (option, ptr, optionLen)
  :: if ptr + optionLen <? len then
       match fuel with
       | O => []
       | S fuel' => tlv_walk fuel' m len (ptr + optionLen)
       end
     else [].

(** The options of the frame in the buffer. *)
Definition frame_options {link : Link} (m : buffer) (len : Z) : list (Z * Z * Z) :=
  tlv_walk (Z.to_nat (len - first_option)) m len first_option.

Definition is_message_type (m : buffer) (msgType : Z) (o : Z * Z * Z) : bool :=
  let '(option, ptr, _) := o in
  (option =? DHCP_OPT_MESSAGE_TYPE) && (peek m ptr =? msgType).

Definition has_tag (tag : Z) (o : Z * Z * Z) : bool :=
  let '(option, _, _) := o in option =? tag.

(** The options up to and including the first End. *)
Fixpoint upto_end (opts : list (Z * Z * Z)) : list (Z * Z * Z) :=
  match opts with
  | [] => []
  | o :: rest => o :: if has_tag DHCP_OPT_END o then [] else upto_end rest
  end.

(** The last value among [opts] of the address option [tag], [old] if there
    is none. *)
Definition last_address (m : buffer) (tag : Z) (opts : list (Z * Z * Z))
  (old : ip4) : ip4 :=
  fold_left (fun a o => if has_tag tag o then peek_ip m (snd (fst o)) else a)
    opts old.

(** The server address after [process_dhcp_offer]: the value of the first
    Server Identifier option, [old] without one. *)
Definition offered_server (m : buffer) (opts : list (Z * Z * Z)) (old : ip4)
  : ip4 :=
  match find (has_tag DHCP_OPT_SERVER_IDENTIFIER) opts with
  | Some (_, p, _) => peek_ip m p
  | None => old
  end.

(** An option as tag and value, and the octets [addOption] writes for it. *)
Definition encode_tlv (o : Z * list Z) : list Z :=
  fst o :: Z.of_nat (length (snd o)) :: snd o.

Definition encode_tlvs (l : list (Z * list Z)) : list Z :=
  flat_map encode_tlv l.

(** The walked options with their values read out of the buffer. *)
Definition decode_options (m : buffer) (opts : list (Z * Z * Z))
  : list (Z * list Z) :=
  map (fun o => (fst (fst o), peeks m (snd (fst o)) (Z.to_nat (snd o)))) opts.

Definition tlv_octets (o : Z * list Z) : Z * list Z :=
  (u8 (fst o), map u8 (snd o)).

(** The options of a message of [send_dhcp_message], as tag and value. *)
Definition request_tlvs (s : State) (requestip : option ip4)
  : list (Z * list Z) :=
  [(DHCP_OPT_MESSAGE_TYPE,
    [if DhcpState_eqb (dhcpState s) DHCP_STATE_INIT
     then DHCP_DISCOVER else DHCP_REQUEST]);
   (DHCP_OPT_CLIENT_IDENTIFIER, DHCP_HTYPE_ETHER :: take_bytes 6 (mymac s))]
  ++ (if hd 0 (hostname s) =? 0 then []
      else [(DHCP_OPT_HOSTNAME,
             take_bytes (Z.to_nat (u8 (strlen (hostname s)))) (hostname s))])
  ++ match requestip with
     | None => []
     | Some ip => [(DHCP_OPT_REQUESTED_ADDRESS, ip_bytes ip);
                   (DHCP_OPT_SERVER_IDENTIFIER, ip_bytes (dhcpip s))]
     end
  ++ [(DHCP_OPT_PARAMETER_REQUEST_LIST,
       [DHCP_OPT_SUBNET_MASK; DHCP_OPT_TIME_OFFSET; DHCP_OPT_ROUTERS;
        DHCP_OPT_TIME_SERVERS; DHCP_OPT_DOMAIN_NAME_SERVERS;
        DHCP_OPT_NTP_SERVERS; DHCP_OPT_DOMAIN_SEARCH_LIST]
       ++ (if dhcpCustomOptionNum s =? 0 then [] else [dhcpCustomOptionNum s])
       ++ [DHCP_OPT_END])].

(** A [uint32_t] from its four octets in memory order. *)
Definition le32 (l : list Z) : Z :=
  match l with
  | [b0; b1; b2; b3] => b0 + 256 * b1 + 65536 * b2 + 16777216 * b3
  | _ => 0
  end.

(** More fields of a UDP payload that holds a DHCP message. *)
Definition payload_op (payload : list Z) : list Z := firstn 3 payload.
Definition payload_xid (payload : list Z) : Z := le32 (firstn 4 (skipn 4 payload)).
Definition payload_chaddr (payload : list Z) : list Z := firstn 6 (skipn 28 payload).

(** ** Runs of the state machine *)

(** What a tick never touches. *)
Definition settings (s : State)
  : list Z * list Z * Z * option nat * ip4 * ip4 * bool :=
  (mymac s, hostname s, dhcpCustomOptionNum s, dhcpCustomOptionCallback s,
   broadcastip s, hisip s, using_dhcp s).

(** The array holds a NUL. *)
Definition terminated (a : list Z) : bool := existsb (fun c => c =? 0) a.

(** A run of the caller's loop: before each tick the driver may receive a
    frame into the packet buffer, so each turn is given by the clock of the
    tick, the contents of the buffer at the tick (whatever they are: a new
    frame, or what was there) and the length handed to the tick. *)
Fixpoint ticks {link : Link} (l : list ((nat -> Z) * buffer * Z)) (s : State)
  : res State :=
  match l with
  | [] => Ok s
  | (millis, frame, len) :: rest =>
    s <- DhcpStateMachine millis len (set_gPB frame s) ;; ticks rest s
  end.

(** The contents of the buffer at the last tick of a run, [m] for the
    empty run. *)
Definition last_frame (l : list ((nat -> Z) * buffer * Z)) (m : buffer)
  : buffer :=
  fold_left (fun _ t => snd (fst t)) l m.

(** A handshake: the tick at t = 7 finds nothing in the buffer, the tick at
    t = 40 the OFFER and the tick at t = 100 the ACK. *)
Definition handshake : list ((nat -> Z) * buffer * Z) :=
  [(fun _ => 7, buffer_of [], 0);
   (fun _ => 40, buffer_of sample_offer, 292);
   (fun _ => 100, buffer_of sample_ack, 308)].

(** ** [webutil.cpp]: hexadecimal digits *)

(** [h2int(c)]; [c] is the value of the [char]. *)
Definition h2int (c : Z) : Z :=
  if (48 <=? c) && (c <=? 57) then u8 (c - 48)
  else if (97 <=? c) && (c <=? 102) then u8 (c - 97 + 10)
  else if (65 <=? c) && (c <=? 70) then u8 (c - 65 + 10)
  else 0.

(** [int2h(c, hstr)]: the three [char]s stored at [hstr]. *)
Definition int2h (c : Z) : list Z :=
  let hstr1 := Z.land c 15 + 48 in
  let hstr1 := if 9 <? Z.land c 15 then Z.land c 15 - 10 + 97 else hstr1 in
  let c := Z.land (Z.shiftr c 4) 15 in
  let hstr0 := c + 48 in
  let hstr0 := if 9 <? c then c - 10 + 97 else hstr0 in
  [hstr0; hstr1; 0].

(** ** [webutil.cpp]: addresses as text *)

(** [isdigit] of [ctype.h]. *)
Definition isdigit (c : Z) : bool := (48 <=? c) && (c <=? 57).

(** The C string at the start of a [char] array: the characters before the
    first NUL.  A NUL follows the last element of every array. *)
Fixpoint cstring (a : list Z) : list Z :=
  match a with
  | [] => []
  | c :: rest => if c =? 0 then [] else c :: cstring rest
  end.

Section ParseIp.

(** [atoi] of [stdlib.h], given the C string its argument points to. *)
Variable atoi : list Z -> Z.

(** The second loop of [parseIp].  [a] is the array [str] points into, [p]
    the offset of [str] in it, [sptr] the offset of [sptr] ([None] for
    [NULL]) and [n] the number of elements from [str] on.  The result is
    [None] when [atoi] is called with [NULL]. *)
Fixpoint parseIp_loop (n : nat) (a : list Z) (p : nat) (sptr : option nat)
  (i : Z) (bytestr : list Z)
  : option (list Z * nat * option nat * Z * list Z) :=
  if negb (nth p a 0 =? 0) && (i <? IP_LEN) then
    match n with
    | O => Some (a, p, sptr, i, bytestr)
    | S n' =>
      let sptr :=
        match sptr with
        | None => if isdigit (nth p a 0) then Some p else None
        | Some q => Some q
        end in
      if nth p a 0 =? 46 then
        let a := store_at a p 0 in
        match sptr with
        | None => None
        | Some q =>
          let bytestr :=
            store bytestr i (Z.land (atoi (cstring (skipn q a))) 255) in
          parseIp_loop n' a (S p) None (u8 (i + 1)) bytestr
        end
      else parseIp_loop n' a (S p) sptr i bytestr
    end
  else Some (a, p, sptr, i, bytestr).

(** [parseIp(bytestr, str)]: the value returned, [bytestr] and the array of
    [str] afterwards; [None] when [atoi] is called with [NULL]. *)
Definition parseIp (bytestr str : list Z) : option (Z * list Z * list Z) :=
  let bytestr := fold_left (fun b i => store b i 0) [0; 1; 2; 3] bytestr in
  match parseIp_loop (length str) str 0 None 0 bytestr with
  | None => None
  | Some (a, p, sptr, i, bytestr) =>
    let a := store_at a p 0 in
    if i =? 3 then
      match sptr with
      | None => None
      | Some q =>
        Some (0, store bytestr i (Z.land (atoi (cstring (skipn q a))) 255), a)
      end
    else Some (1, bytestr, a)
  end.

End ParseIp.

(** A field of an address in text: no NUL and no dot. *)
Definition plain (s : list Z) : Prop := Forall (fun c => c <> 0 /\ c <> 46) s.

Definition has_digit (s : list Z) : bool := existsb isdigit s.

(** The field from its first digit on. *)
Fixpoint from_digit (s : list Z) : list Z :=
  match s with
  | [] => []
  | c :: rest => if isdigit c then s else from_digit rest
  end.

Definition count_dots (s : list Z) : nat := count_occ Z.eq_dec s 46.

(** The characters before the first dot. *)
Fixpoint first_field (s : list Z) : list Z :=
  match s with
  | [] => []
  | c :: rest => if c =? 46 then [] else c :: first_field rest
  end.

Section MakeNetStr.

(** [ltoa] of the Arduino core, by the characters it stores for a value and
    a base before the terminating NUL. *)
Variable ltoa : Z -> Z -> list Z.

(** [while (resultstr[j]) j++] with [j] a [uint8_t]: the [j] it ends with;
    [None] when none of the 256 elements [j] can reach is a NUL, and the
    loop does not end. *)
Fixpoint find_nul (fuel : nat) (resultstr : buffer) (j : Z) : option Z :=
  if peek resultstr j =? 0 then Some j
  else match fuel with
       | O => None
       | S fuel' => find_nul fuel' resultstr (u8 (j + 1))
       end.

(** The outer loop of [makeNetStr] with [n] = [len - i] elements to go. *)
Fixpoint makeNetStr_loop (n : nat) (resultstr : buffer) (bytestr : list Z)
  (separator base i j : Z) : option (buffer * Z) :=
  match n with
  | O => Some (resultstr, j)
  | S n' =>
    let resultstr :=
      pokes resultstr j (ltoa (nth (Z.to_nat i) bytestr 0) base ++ [0]) in
    match find_nul 255 resultstr j with
    | None => None
    | Some j =>
      let resultstr := poke resultstr j separator in
      makeNetStr_loop n' resultstr bytestr separator base (i + 1) (u8 (j + 1))
    end
  end.

(** [makeNetStr(resultstr, bytestr, len, separator, base)]: the memory
    [resultstr] points into, addressed from [resultstr]; [None] when the
    search for the end of a number does not end. *)
Definition makeNetStr (resultstr : buffer) (bytestr : list Z)
  (len separator base : Z) : option buffer :=
  match makeNetStr_loop (Z.to_nat (u8 len)) resultstr bytestr separator base
          0 0 with
  | None => None
  | Some (resultstr, j) => Some (poke resultstr (u8 (j - 1)) 0)
  end.

(** The numbers of [bytestr], each followed by the separator. *)
Definition joined (bytes : list Z) (separator base : Z) : list Z :=
  flat_map (fun b => ltoa b base ++ [separator]) bytes.

End MakeNetStr.

(** *** A C library for the examples *)

(** The decimal digits of a number below 1000. *)
Definition decimal (v : Z) : list Z :=
  (if 100 <=? v then [48 + v / 100] else [])
  ++ (if 10 <=? v then [48 + (v / 10) mod 10] else [])
  ++ [48 + v mod 10].

(** The value of the digits a string begins with, after [v]. *)
Fixpoint digits_value (v : Z) (s : list Z) : Z :=
  match s with
  | [] => v
  | c :: rest => if isdigit c then digits_value (10 * v + (c - 48)) rest else v
  end.

(** * Properties *)

Section Properties.

Context {link : Link}.

(** ** The tick in the states without a [case] *)

(** C9: a tick in RELEASING or RELEASED, with any frame length and at any
    time, returns normally and leaves the whole state as it was: session
    state, configuration, buffer and event log (so nothing is sent). *)
Theorem released_is_terminal (millis : nat -> Z) (len : Z) (s : State) :
  dhcpState s = DHCP_STATE_RELEASING \/ dhcpState s = DHCP_STATE_RELEASED ->
  DhcpStateMachine millis len s = Ok s.
Proof.
  intros [H | H]; unfold DhcpStateMachine; rewrite H; reflexivity.
Qed.

(** C7: in BOUND with the lease duration at the sentinel [0xFFFFFFFF], a
    tick at any time and with any frame length leaves the state as it was;
    in particular it stays BOUND and sends nothing. *)
Theorem infinite_lease_never_renews (millis : nat -> Z) (len : Z) (s : State) :
  dhcpState s = DHCP_STATE_BOUND ->
  leaseTime s = DHCP_INFINITE_LEASE ->
  DhcpStateMachine millis len s = Ok s
  /\ forall s', DhcpStateMachine millis len s = Ok s' ->
                dhcpState s' <> DHCP_STATE_RENEWING.
Proof.
  intros Hb Hl.
  assert (E : DhcpStateMachine millis len s = Ok s).
  { unfold DhcpStateMachine. rewrite Hb, Hl. reflexivity. }
  split; [exact E|].
  intros s' H. rewrite E in H. injection H as <-. rewrite Hb. discriminate.
Qed.

(** ** Frames that are not the awaited answer *)

Lemma rejected_tick (millis : nat -> Z) (len : Z) (s : State) :
  dhcpState s = DHCP_STATE_SELECTING
  /\ dhcp_received_message_type len DHCP_OFFER s = false
  \/ (dhcpState s = DHCP_STATE_REQUESTING \/ dhcpState s = DHCP_STATE_RENEWING)
     /\ dhcp_received_message_type len DHCP_ACK s = false ->
  DhcpStateMachine millis len s = Ok (timeout_tick millis s).
Proof.
  unfold DhcpStateMachine, timeout_tick.
  intros [[Hs Hr] | [[Hs | Hs] Hr]]; rewrite Hs, Hr;
    destruct (_ <? _); reflexivity.
Qed.

Lemma xid_mismatch_rejected (len msgType : Z) (s : State) :
  peek32 (gPB s) (UDP_DATA_P + DHCPdata_xid) <> currentXid s ->
  dhcp_received_message_type len msgType s = false.
Proof.
  intros H. unfold dhcp_received_message_type.
  apply Z.eqb_neq in H. rewrite H.
  rewrite !andb_false_r. reflexivity.
Qed.

(** C5, as the code has it: in SELECTING or REQUESTING a frame whose
    transaction id differs from [currentXid] is never taken as the OFFER or
    ACK.  The tick returns normally and does what a tick without a frame
    does: nothing while at most 10000 ms have passed since the state was
    entered, and the restart from INIT after that; besides [dhcpState]
    nothing changes and nothing is sent. *)
Theorem stale_xid_is_dropped (millis : nat -> Z) (len : Z) (s : State) :
  dhcpState s = DHCP_STATE_SELECTING \/ dhcpState s = DHCP_STATE_REQUESTING ->
  peek32 (gPB s) (UDP_DATA_P + DHCPdata_xid) <> currentXid s ->
  DhcpStateMachine millis len s = Ok (timeout_tick millis s)
  /\ (sub32 (u32 (millis 0%nat)) (stateTimer s) <= DHCP_REQUEST_TIMEOUT ->
      DhcpStateMachine millis len s = Ok s)
  /\ (DHCP_REQUEST_TIMEOUT < sub32 (u32 (millis 0%nat)) (stateTimer s) ->
      DhcpStateMachine millis len s = Ok (set_dhcpState DHCP_STATE_INIT s)).
Proof.
  intros Hs Hx.
  assert (E : DhcpStateMachine millis len s = Ok (timeout_tick millis s)).
  { apply rejected_tick.
    destruct Hs as [Hs | Hs]; [left | right]; split; auto;
      now apply xid_mismatch_rejected. }
  rewrite E. unfold timeout_tick. repeat split.
  - intros Hle. apply Z.ltb_ge in Hle. now rewrite Hle.
  - intros Hlt. apply Z.ltb_lt in Hlt. now rewrite Hlt.
Qed.

(** C6, as the code has it: in SELECTING without a matching OFFER the
    comparison is strict.  A tick taken when exactly 10000 ms have passed
    since the state was entered (or less) leaves the state as it was; the
    first tick for which more than 10000 ms have passed, so from 10001 ms
    on, sets INIT and changes nothing else. *)
Theorem selecting_timeout_is_strict (millis : nat -> Z) (len : Z) (s : State) :
  dhcpState s = DHCP_STATE_SELECTING ->
  dhcp_received_message_type len DHCP_OFFER s = false ->
  (sub32 (u32 (millis 0%nat)) (stateTimer s) <= 10000 ->
   DhcpStateMachine millis len s = Ok s)
  /\ (10000 < sub32 (u32 (millis 0%nat)) (stateTimer s) ->
      DhcpStateMachine millis len s = Ok (set_dhcpState DHCP_STATE_INIT s)).
Proof.
  intros Hs Hr.
  rewrite (rejected_tick millis len s) by (left; auto).
  unfold timeout_tick, DHCP_REQUEST_TIMEOUT. split.
  - intros Hle. apply Z.ltb_ge in Hle. now rewrite Hle.
  - intros Hlt. apply Z.ltb_lt in Hlt. now rewrite Hlt.
Qed.

(** ** [dhcpSetup] *)

(** C1, what the code does: [dhcpSetup] returns [true] at once, with the
    session in INIT, without a tick of the state machine and without having
    sent or awaited anything. *)
Theorem dhcpSetup_returns_at_once (hname : option (list Z)) (fromRam : bool)
  (s : State) :
  fst (dhcpSetup hname fromRam s) = true
  /\ dhcpState (snd (dhcpSetup hname fromRam s)) = DHCP_STATE_INIT
  /\ dhcpState (snd (dhcpSetup hname fromRam s)) <> DHCP_STATE_BOUND
  /\ trace (snd (dhcpSetup hname fromRam s)) = trace s.
Proof.
  unfold dhcpSetup. destruct hname; cbn; repeat split; discriminate.
Qed.

(** ** [dhcp_received_message_type] *)

Lemma peek_range (m : buffer) (p : Z) : 0 <= peek m p < 256.
Proof. unfold peek, u8. apply Z.mod_pos_bound. lia. Qed.

(** The fuel never runs out: any two amounts of at least [len - ptr] give
    the same scan. *)
Lemma message_type_scan_fuel (m : buffer) (len msgType : Z) :
  forall (f1 f2 : nat) (ptr : Z),
    (Z.to_nat (len - ptr) <= f1)%nat ->
    (Z.to_nat (len - ptr) <= f2)%nat ->
    message_type_scan f1 m len msgType ptr
    = message_type_scan f2 m len msgType ptr.
Proof.
  induction f1 as [|f1 IH]; intros f2 ptr H1 H2; destruct f2 as [|f2]; cbn;
    try reflexivity;
    pose proof (peek_range m (ptr + 1)) as Hlen;
    destruct (_ && _); try reflexivity;
    destruct (Z.ltb_spec (ptr + 2 + peek m (ptr + 1)) len) as [Hlt | Hge];
    try reflexivity; try lia.
  apply IH; lia.
Qed.

(** The scan is the [do ... while] loop: one turn, then the loop again
    while [ptr < gPB + len]. *)
Lemma message_type_scan_unfold (m : buffer) (len msgType ptr : Z) :
  message_type_scan (Z.to_nat (len - ptr)) m len msgType ptr
  = if (peek m ptr =? DHCP_OPT_MESSAGE_TYPE) && (peek m (ptr + 2) =? msgType)
    then true
    else
      let ptr' := ptr + 2 + peek m (ptr + 1) in
      if ptr' <? len
      then message_type_scan (Z.to_nat (len - ptr')) m len msgType ptr'
      else false.
Proof.
  pose proof (peek_range m (ptr + 1)) as Hlen.
  destruct (Z.to_nat (len - ptr)) as [|n] eqn:E; cbn;
    destruct (_ && _); try reflexivity;
    destruct (Z.ltb_spec (ptr + 2 + peek m (ptr + 1)) len) as [Hlt | Hge];
    try reflexivity; try lia.
  apply message_type_scan_fuel; lia.
Qed.

Lemma message_type_scan_found (m : buffer) (len msgType : Z) :
  forall (fuel : nat) (ptr : Z),
    message_type_scan fuel m len msgType ptr = true ->
    exists p, (p = ptr \/ ptr < p < len)
              /\ peek m p = DHCP_OPT_MESSAGE_TYPE
              /\ peek m (p + 2) = msgType.
Proof.
  induction fuel as [|fuel IH]; intros ptr; cbn;
    pose proof (peek_range m (ptr + 1)) as Hlen;
    destruct (andb _ _) eqn:E.
  1, 3: intros _; apply andb_prop in E as [E1 E2];
        apply Z.eqb_eq in E1, E2; exists ptr; auto.
  - destruct (_ <? _); discriminate.
  - destruct (Z.ltb_spec (ptr + 2 + peek m (ptr + 1)) len) as [Hlt | Hge];
      [|discriminate].
    intros H. apply IH in H as (p & Hp & H53 & HK).
    exists p. split; [right; lia | auto].
Qed.

(** C4, as the code has it: a frame is taken as a message of kind
    [msgType] only if its length is at least 70, the low-order octet of its
    UDP source port is 67 and its transaction id is [currentXid]; it then
    has a Message Type option (tag 53) of value [msgType], at the first
    option or at an option that starts before [len].  A frame that fails one
    of the three checks is rejected. *)
Theorem message_accepted_only_if (len msgType : Z) (s : State) :
  (dhcp_received_message_type len msgType s = true ->
   70 <= len
   /\ peek (gPB s) UDP_SRC_PORT_L_P = DHCP_SERVER_PORT
   /\ peek32 (gPB s) (UDP_DATA_P + DHCPdata_xid) = currentXid s
   /\ exists p, (p = first_option \/ first_option < p < len)
                /\ peek (gPB s) p = DHCP_OPT_MESSAGE_TYPE
                /\ peek (gPB s) (p + 2) = msgType)
  /\ (len < 70
      \/ peek (gPB s) UDP_SRC_PORT_L_P <> DHCP_SERVER_PORT
      \/ peek32 (gPB s) (UDP_DATA_P + DHCPdata_xid) <> currentXid s ->
      dhcp_received_message_type len msgType s = false).
Proof.
  unfold dhcp_received_message_type. split.
  - destruct (Z.leb_spec 70 len) as [H70 | H70]; [|discriminate].
    destruct (Z.eqb_spec (peek (gPB s) UDP_SRC_PORT_L_P) DHCP_SERVER_PORT)
      as [Hp | Hp]; [|discriminate].
    destruct (Z.eqb_spec (peek32 (gPB s) (UDP_DATA_P + DHCPdata_xid))
                (currentXid s)) as [Hx | Hx]; [|discriminate].
    cbn [andb]. intros H. repeat split; auto.
    now apply message_type_scan_found in H.
  - intros [H | [H | H]].
    + apply Z.leb_gt in H. now rewrite H.
    + apply Z.eqb_neq in H. rewrite H. now rewrite andb_false_r.
    + apply Z.eqb_neq in H. rewrite H. now rewrite andb_false_r.
Qed.

(** ** [process_dhcp_ack] *)

Lemma ack_switch_frame (option ptr : Z) (s : State) :
  gPB (ack_switch option ptr s) = gPB s
  /\ dhcpCustomOptionCallback (ack_switch option ptr s)
     = dhcpCustomOptionCallback s
  /\ trace (ack_switch option ptr s) = trace s
  /\ dhcpState (ack_switch option ptr s) = dhcpState s.
Proof.
  unfold ack_switch.
  repeat (destruct (_ =? _); cbn; auto).
Qed.

(** Without a registered callback the first turn of the loop already calls
    through the null pointer. *)
Lemma ack_turn_null (ptr : Z) (s : State) :
  dhcpCustomOptionCallback s = None -> ack_turn ptr s = NullCall.
Proof.
  intros H. unfold ack_turn, call_callback.
  destruct (ack_switch_frame (peek (gPB s) ptr) (ptr + 2) s) as (_ & E & _).
  rewrite E, H. reflexivity.
Qed.

Lemma ack_turn_ok (fn : nat) (ptr : Z) (s : State) :
  dhcpCustomOptionCallback s = Some fn ->
  ack_turn ptr s
  = Ok (ack_effect fn s (peek (gPB s) ptr, ptr + 2, peek (gPB s) (ptr + 1)),
        ptr + 2 + peek (gPB s) (ptr + 1),
        peek (gPB s) ptr =? DHCP_OPT_END).
Proof.
  intros H. unfold ack_turn, call_callback, ack_effect, callback_event.
  destruct (ack_switch_frame (peek (gPB s) ptr) (ptr + 2) s) as (Eg & E & _).
  rewrite E, H, Eg. reflexivity.
Qed.

Lemma ack_effect_frame (fn : nat) (s : State) (o : Z * Z * Z) :
  gPB (ack_effect fn s o) = gPB s
  /\ dhcpCustomOptionCallback (ack_effect fn s o) = dhcpCustomOptionCallback s.
Proof.
  destruct o as [[option ptr] optionLen]. unfold ack_effect. cbn.
  destruct (ack_switch_frame option ptr s) as (Eg & E & _). auto.
Qed.

(** With a callback registered the loop returns, and it is the visited
    options applied in order. *)
Lemma ack_scan_ok (fn : nat) (len : Z) :
  forall (fuel : nat) (ptr : Z) (s : State),
    dhcpCustomOptionCallback s = Some fn ->
    ack_scan fuel len ptr s
    = Ok (fold_left (ack_effect fn) (ack_options fuel (gPB s) len ptr) s).
Proof.
  induction fuel as [|fuel IH]; intros ptr s H; cbn [ack_scan ack_options];
    rewrite (ack_turn_ok fn) by assumption; cbn [bind];
    destruct (negb _ && _); cbn [fold_left]; try reflexivity.
  set (o := (peek (gPB s) ptr, ptr + 2, peek (gPB s) (ptr + 1))).
  destruct (ack_effect_frame fn s o) as (Eg & Ec).
  rewrite IH by (rewrite Ec; assumption).
  rewrite Eg. reflexivity.
Qed.

(** The fuel of [ack_options] never runs out. *)
Lemma ack_options_fuel (m : buffer) (len : Z) :
  forall (f1 f2 : nat) (ptr : Z),
    (Z.to_nat (len - ptr) <= f1)%nat ->
    (Z.to_nat (len - ptr) <= f2)%nat ->
    ack_options f1 m len ptr = ack_options f2 m len ptr.
Proof.
  induction f1 as [|f1 IH]; intros f2 ptr H1 H2; destruct f2 as [|f2]; cbn;
    try reflexivity;
    pose proof (peek_range m (ptr + 1)) as Hlen;
    destruct (negb _); cbn [andb]; try reflexivity;
    destruct (Z.ltb_spec (ptr + 2 + peek m (ptr + 1)) len) as [Hlt | Hge];
    try reflexivity; try lia.
  f_equal. apply IH; lia.
Qed.

(** The visited options are those of the [do ... while (!done && ptr < gPB +
    len)] loop: one option, then the loop again unless it was End or [ptr]
    has reached [len]. *)
Lemma ack_options_unfold (m : buffer) (len ptr : Z) :
  ack_options (Z.to_nat (len - ptr)) m len ptr
  = (peek m ptr, ptr + 2, peek m (ptr + 1))
    :: let ptr' := ptr + 2 + peek m (ptr + 1) in
       if negb (peek m ptr =? DHCP_OPT_END) && (ptr' <? len)
       then ack_options (Z.to_nat (len - ptr')) m len ptr'
       else [].
Proof.
  pose proof (peek_range m (ptr + 1)) as Hlen.
  destruct (Z.to_nat (len - ptr)) as [|n] eqn:E; cbn; f_equal;
    destruct (negb _); cbn [andb]; try reflexivity;
    destruct (Z.ltb_spec (ptr + 2 + peek m (ptr + 1)) len) as [Hlt | Hge];
    try reflexivity; try lia.
  apply ack_options_fuel; lia.
Qed.

Lemma fold_ack_effect_trace (fn : nat) :
  forall (opts : list (Z * Z * Z)) (s : State),
    trace (fold_left (ack_effect fn) opts s)
    = rev (map (callback_event fn (gPB s)) opts) ++ trace s
    /\ gPB (fold_left (ack_effect fn) opts s) = gPB s.
Proof.
  induction opts as [|o opts IH]; intros s; cbn [fold_left map rev].
  - auto.
  - destruct (IH (ack_effect fn s o)) as (Et & Eg).
    destruct (ack_effect_frame fn s o) as (Eg' & _).
    rewrite Et, Eg, Eg'. split; [|reflexivity].
    rewrite <- app_assoc. cbn [app]. f_equal. f_equal.
    destruct o as [[option ptr] optionLen]. unfold ack_effect.
    destruct (ack_switch_frame option ptr s) as (Eg2 & _ & Et2 & _).
    cbn. rewrite Et2, Eg2. reflexivity.
Qed.

(** With a callback registered, [process_dhcp_ack] returns and has called
    it once for each visited option, in order, with the option number, its
    value and its length; it has called nothing else. *)
Lemma ack_calls_callback_once_per_option (fn : nat) (len : Z) (s : State) :
  dhcpCustomOptionCallback s = Some fn ->
  exists s',
    process_dhcp_ack len s = Ok s'
    /\ trace s'
       = rev (map (callback_event fn (gPB s))
                (ack_options (Z.to_nat (len - first_option)) (gPB s) len
                   first_option))
         ++ trace s.
Proof.
  intros H. unfold process_dhcp_ack.
  rewrite (ack_scan_ok fn) by exact H.
  eexists. split; [reflexivity|].
  destruct (fold_ack_effect_trace fn
              (ack_options (Z.to_nat (len - first_option))
                 (gPB (set_myip (peek_ip (gPB s) (UDP_DATA_P + DHCPdata_yiaddr)) s))
                 len first_option)
              (set_myip (peek_ip (gPB s) (UDP_DATA_P + DHCPdata_yiaddr)) s))
    as (Et & _).
  exact Et.
Qed.

(** C2, what the code does when no callback is registered: the loop of
    [process_dhcp_ack] calls [dhcpCustomOptionCallback] without looking at
    it, so the first option of any ACK is a call through the null pointer;
    and so is the tick of the state machine that accepts an ACK. *)
Theorem ack_without_callback_calls_null (millis : nat -> Z) (len : Z)
  (s : State) :
  dhcpCustomOptionCallback s = None ->
  process_dhcp_ack len s = NullCall
  /\ (dhcpState s = DHCP_STATE_REQUESTING \/ dhcpState s = DHCP_STATE_RENEWING ->
      dhcp_received_message_type len DHCP_ACK s = true ->
      DhcpStateMachine millis len s = NullCall).
Proof.
  intros H.
  assert (E : process_dhcp_ack len s = NullCall).
  { unfold process_dhcp_ack.
    destruct (Z.to_nat (len - first_option)); cbn [ack_scan];
      rewrite ack_turn_null by exact H; reflexivity. }
  split; [exact E|].
  intros [Hs | Hs] Hr; unfold DhcpStateMachine; rewrite Hs, Hr, E; reflexivity.
Qed.

(** ** The lease duration *)

Lemma lease_seconds_range (m : buffer) (ptr : Z) :
  0 <= lease_seconds m ptr < 4294967296.
Proof.
  unfold lease_seconds, be32.
  pose proof (peek_range m ptr). pose proof (peek_range m (ptr + 1)).
  pose proof (peek_range m (ptr + 2)). pose proof (peek_range m (ptr + 3)).
  lia.
Qed.

(** The [for] loop assembles the four octets most significant first; the
    sum never leaves 32 bits. *)
Lemma read_lease_be32 (m : buffer) (ptr : Z) :
  read_lease m ptr = lease_seconds m ptr.
Proof.
  unfold read_lease, lease_seconds, be32, u32. cbn [fold_left].
  rewrite Z.add_0_r, !Z.shiftl_mul_pow2 by lia.
  pose proof (peek_range m ptr). pose proof (peek_range m (ptr + 1)).
  pose proof (peek_range m (ptr + 2)). pose proof (peek_range m (ptr + 3)).
  change (2 ^ 8) with 256.
  rewrite (Z.mod_small (0 * 256 + peek m ptr)) by lia.
  rewrite (Z.mod_small ((0 * 256 + peek m ptr) * 256 + _)) by lia.
  rewrite (Z.mod_small (((0 * 256 + peek m ptr) * 256 + _) * 256 + _)) by lia.
  rewrite Z.mod_small by lia.
  lia.
Qed.

(** One turn of the [switch]: a Lease Time (51) or Renewal Time (58) option
    whose four octets, most significant first, are [v] sets [leaseTime] to
    [v] itself when [v] is [0xFFFFFFFF] and to [(v * 1000) mod 2^32]
    otherwise.  From [v] = 4294968 s (about 49.7 days) on the stored
    duration is shorter than the lease; it is a multiple of 8 and so never
    the sentinel. *)
Lemma lease_option_stored (option ptr : Z) (s : State) :
  option = DHCP_OPT_LEASE_TIME \/ option = DHCP_OPT_RENEWAL_TIME ->
  let v := lease_seconds (gPB s) ptr in
  (v = DHCP_INFINITE_LEASE ->
   leaseTime (ack_switch option ptr s) = DHCP_INFINITE_LEASE)
  /\ (v <> DHCP_INFINITE_LEASE ->
      leaseTime (ack_switch option ptr s) = (v * 1000) mod 2 ^ 32
      /\ leaseTime (ack_switch option ptr s) <> DHCP_INFINITE_LEASE
      /\ leaseTime (ack_switch option ptr s) mod 8 = 0
      /\ (4294968 <= v -> leaseTime (ack_switch option ptr s) < v * 1000)
      /\ (v < 4294968 -> leaseTime (ack_switch option ptr s) = v * 1000)).
Proof.
  intros Ho v.
  assert (E : leaseTime (ack_switch option ptr s)
              = if v =? DHCP_INFINITE_LEASE then v else u32 (v * 1000)).
  { unfold ack_switch.
    destruct Ho as [-> | ->]; cbn -[read_lease u32 Z.mul];
      rewrite read_lease_be32; fold v;
      destruct (v =? DHCP_INFINITE_LEASE); reflexivity. }
  pose proof (lease_seconds_range (gPB s) ptr) as Hv. fold v in Hv.
  rewrite E. unfold u32, DHCP_INFINITE_LEASE. change (2 ^ 32) with 4294967296.
  split.
  - intros ->. reflexivity.
  - intros Hne. apply Z.eqb_neq in Hne. unfold DHCP_INFINITE_LEASE in Hne.
    rewrite Hne.
    pose proof (Z.div_mod (v * 1000) 4294967296 ltac:(lia)) as Hdm.
    pose proof (Z.mod_pos_bound (v * 1000) 4294967296 ltac:(lia)) as Hb.
    set (r := (v * 1000) mod 4294967296) in *.
    set (q := v * 1000 / 4294967296) in *.
    repeat split.
    + lia.
    + replace r with ((125 * v - 536870912 * q) * 8) by lia.
      apply Z.mod_mul. lia.
    + intros Hbig. lia.
    + intros Hsmall. lia.
Qed.

Lemma ack_switch_leaseTime (option ptr : Z) (s : State) :
  leaseTime (ack_switch option ptr s)
  = if (option =? DHCP_OPT_LEASE_TIME) || (option =? DHCP_OPT_RENEWAL_TIME)
    then lease_ms (lease_seconds (gPB s) ptr)
    else leaseTime s.
Proof.
  unfold ack_switch.
  destruct (Z.eqb_spec option DHCP_OPT_SUBNET_MASK) as [-> | _];
    [reflexivity|].
  destruct (Z.eqb_spec option DHCP_OPT_ROUTERS) as [-> | _]; [reflexivity|].
  destruct (Z.eqb_spec option DHCP_OPT_DOMAIN_NAME_SERVERS) as [-> | _];
    [reflexivity|].
  destruct (_ || _); [|reflexivity].
  cbn -[read_lease u32 Z.mul]. rewrite read_lease_be32.
  unfold lease_ms, u32. change (2 ^ 32) with 4294967296.
  destruct (_ =? _); reflexivity.
Qed.

Lemma fold_ack_effect_lease (fn : nat) :
  forall (opts : list (Z * Z * Z)) (s : State),
    leaseTime (fold_left (ack_effect fn) opts s)
    = lease_after (gPB s) opts (leaseTime s).
Proof.
  induction opts as [|o opts IH]; intros s; [reflexivity|].
  unfold lease_after. cbn [fold_left]. rewrite IH.
  destruct (ack_effect_frame fn s o) as (Eg & _). rewrite Eg.
  unfold lease_after. f_equal.
  destruct o as [[option ptr] optionLen]. unfold ack_effect.
  change (leaseTime (emit ?e ?x)) with (leaseTime x).
  apply ack_switch_leaseTime.
Qed.

(** With a callback registered, the ACK leaves the duration of its last
    Lease Time or Renewal Time option in [leaseTime], and the old duration
    if it has none. *)
Lemma process_dhcp_ack_lease (fn : nat) (len : Z) (s : State) :
  dhcpCustomOptionCallback s = Some fn ->
  exists s',
    process_dhcp_ack len s = Ok s'
    /\ leaseTime s'
       = lease_after (gPB s)
           (ack_options (Z.to_nat (len - first_option)) (gPB s) len
              first_option)
           (leaseTime s).
Proof.
  intros H. unfold process_dhcp_ack.
  rewrite (ack_scan_ok fn) by exact H.
  eexists. split; [reflexivity|].
  exact (fold_ack_effect_lease fn _
           (set_myip (peek_ip (gPB s) (UDP_DATA_P + DHCPdata_yiaddr)) s)).
Qed.

(** The duration stored for [v]. *)
Lemma lease_ms_facts (v : Z) :
  0 <= v < 4294967296 ->
  (v = DHCP_INFINITE_LEASE -> lease_ms v = DHCP_INFINITE_LEASE)
  /\ (v <> DHCP_INFINITE_LEASE ->
      lease_ms v = (v * 1000) mod 2 ^ 32
      /\ lease_ms v <> DHCP_INFINITE_LEASE
      /\ lease_ms v mod 8 = 0
      /\ (4294968 <= v -> lease_ms v < v * 1000)
      /\ (v < 4294968 -> lease_ms v = v * 1000)).
Proof.
  intros Hv. unfold lease_ms. split.
  - intros ->. reflexivity.
  - intros Hne. apply Z.eqb_neq in Hne. rewrite Hne.
    unfold DHCP_INFINITE_LEASE. change (2 ^ 32) with 4294967296.
    pose proof (Z.div_mod (v * 1000) 4294967296 ltac:(lia)) as Hdm.
    pose proof (Z.mod_pos_bound (v * 1000) 4294967296 ltac:(lia)) as Hb.
    set (r := (v * 1000) mod 4294967296) in *.
    set (q := v * 1000 / 4294967296) in *.
    assert (H8 : r mod 8 = 0).
    { replace r with ((125 * v - 536870912 * q) * 8) by lia.
      apply Z.mod_mul. lia. }
    repeat split; lia.
Qed.

(** Options other than 51 and 58 leave the duration alone. *)
Lemma lease_after_none (m : buffer) (opts : list (Z * Z * Z)) (lt0 : Z) :
  (forall o, In o opts ->
             fst (fst o) <> DHCP_OPT_LEASE_TIME
             /\ fst (fst o) <> DHCP_OPT_RENEWAL_TIME) ->
  lease_after m opts lt0 = lt0.
Proof.
  unfold lease_after. revert lt0.
  induction opts as [|[[option ptr] l] opts IH]; intros lt0 H;
    cbn [fold_left]; [reflexivity|].
  destruct (H (option, ptr, l) (or_introl eq_refl)) as (H1 & H2).
  cbn [fst] in H1, H2. apply Z.eqb_neq in H1, H2. rewrite H1, H2.
  cbn [orb]. apply IH. intros o Ho. apply H. right. exact Ho.
Qed.

(** The last option 51 or 58 decides. *)
Lemma lease_after_last (m : buffer) (before after : list (Z * Z * Z))
  (option ptr l lt0 : Z) :
  option = DHCP_OPT_LEASE_TIME \/ option = DHCP_OPT_RENEWAL_TIME ->
  (forall o, In o after ->
             fst (fst o) <> DHCP_OPT_LEASE_TIME
             /\ fst (fst o) <> DHCP_OPT_RENEWAL_TIME) ->
  lease_after m (before ++ (option, ptr, l) :: after) lt0
  = lease_ms (lease_seconds m ptr).
Proof.
  intros Ho Hafter.
  pose proof (lease_after_none m after) as Hn.
  unfold lease_after in *. rewrite fold_left_app. cbn [fold_left].
  rewrite Hn by exact Hafter.
  destruct Ho as [-> | ->]; reflexivity.
Qed.

(** The fuel of [offer_scan] never runs out either. *)
Lemma offer_scan_fuel (len : Z) (s : State) :
  forall (f1 f2 : nat) (ptr : Z),
    (Z.to_nat (len - ptr) <= f1)%nat ->
    (Z.to_nat (len - ptr) <= f2)%nat ->
    offer_scan f1 len ptr s = offer_scan f2 len ptr s.
Proof.
  induction f1 as [|f1 IH]; intros f2 ptr H1 H2; destruct f2 as [|f2]; cbn;
    try reflexivity;
    pose proof (peek_range (gPB s) (ptr + 1)) as Hlen;
    destruct (_ =? _); try reflexivity;
    destruct (Z.ltb_spec (ptr + 2 + peek (gPB s) (ptr + 1)) len) as [Hlt | Hge];
    try reflexivity; try lia.
  apply IH; lia.
Qed.

(** ** The packet buffer *)

Lemma peek_poke (m : buffer) (p v q : Z) :
  peek (poke m p v) q = if q =? p then u8 v else peek m q.
Proof.
  unfold peek, poke. destruct (q =? p); [|reflexivity].
  unfold u8. apply Z.mod_mod. lia.
Qed.

Lemma peek_pokes_out (l : list Z) :
  forall (m : buffer) (p q : Z),
    q < p \/ p + Z.of_nat (length l) <= q ->
    peek (pokes m p l) q = peek m q.
Proof.
  induction l as [|b l IH]; intros m p q H; cbn [pokes]; [reflexivity|].
  cbn [length] in H.
  rewrite IH by lia. rewrite peek_poke.
  destruct (Z.eqb_spec q p); [lia | reflexivity].
Qed.

Lemma peeks_pokes_out (n : nat) :
  forall (l : list Z) (m : buffer) (p q : Z),
    q + Z.of_nat n <= p \/ p + Z.of_nat (length l) <= q ->
    peeks (pokes m p l) q n = peeks m q n.
Proof.
  induction n as [|n IH]; intros l m p q H; cbn [peeks]; [reflexivity|].
  rewrite peek_pokes_out by lia. rewrite IH by lia. reflexivity.
Qed.

Lemma peeks_pokes (l : list Z) :
  forall (m : buffer) (p : Z),
    peeks (pokes m p l) p (length l) = map u8 l.
Proof.
  induction l as [|b l IH]; intros m p; cbn [pokes peeks length map];
    [reflexivity|].
  rewrite IH. rewrite peek_pokes_out by lia.
  rewrite peek_poke, Z.eqb_refl. reflexivity.
Qed.

Lemma pokes_app (l1 l2 : list Z) :
  forall (m : buffer) (p : Z),
    pokes m p (l1 ++ l2) = pokes (pokes m p l1) (p + Z.of_nat (length l1)) l2.
Proof.
  induction l1 as [|b l1 IH]; intros m p; cbn [pokes app length].
  - rewrite Z.add_0_r. reflexivity.
  - rewrite IH. f_equal. lia.
Qed.

Lemma peeks_app (n1 n2 : nat) :
  forall (m : buffer) (p : Z),
    peeks m p (n1 + n2) = peeks m p n1 ++ peeks m (p + Z.of_nat n1) n2.
Proof.
  induction n1 as [|n1 IH]; intros m p; cbn [peeks Nat.add app].
  - rewrite Z.add_0_r. reflexivity.
  - rewrite IH. do 3 f_equal. lia.
Qed.

Lemma peeks_length (n : nat) :
  forall (m : buffer) (p : Z), length (peeks m p n) = n.
Proof. induction n; intros; cbn; auto. Qed.

Lemma emit_bytes_nil (s : State) : emit_bytes [] s = s.
Proof.
  destruct s. unfold emit_bytes. cbn. rewrite Z.add_0_r. reflexivity.
Qed.

Lemma emit_bytes_app (l1 l2 : list Z) (s : State) :
  emit_bytes l2 (emit_bytes l1 s) = emit_bytes (l1 ++ l2) s.
Proof.
  destruct s. unfold emit_bytes. cbn.
  rewrite pokes_app, length_app, Nat2Z.inj_add, Z.add_assoc. reflexivity.
Qed.

Lemma addToBuf_emit (b : Z) (s : State) : addToBuf b s = emit_bytes [b] s.
Proof. reflexivity. Qed.

Lemma fold_addToBuf_emit (l : list Z) :
  forall s : State, fold_left (fun s b => addToBuf b s) l s = emit_bytes l s.
Proof.
  induction l as [|b l IH]; intros s; cbn [fold_left].
  - symmetry. apply emit_bytes_nil.
  - rewrite IH, addToBuf_emit, emit_bytes_app. reflexivity.
Qed.

Lemma addBytes_loop_emit (n : nat) :
  forall (data : list Z) (s : State),
    addBytes_loop n data s = emit_bytes (take_bytes n data) s.
Proof.
  induction n as [|n IH]; intros data s; cbn [addBytes_loop take_bytes].
  - symmetry. apply emit_bytes_nil.
  - rewrite IH, addToBuf_emit, emit_bytes_app. reflexivity.
Qed.

Lemma addOption_emit (opt len : Z) (data : list Z) (s : State) :
  addOption opt len data s
  = emit_bytes ([opt; len] ++ take_bytes (Z.to_nat (u8 len)) data) s.
Proof.
  unfold addOption, addBytes.
  rewrite addBytes_loop_emit, !addToBuf_emit, !emit_bytes_app. reflexivity.
Qed.

Lemma if_emit_bytes (c : bool) (l1 l2 : list Z) (s : State) :
  (if c then emit_bytes l1 s else emit_bytes (l1 ++ l2) s)
  = emit_bytes (l1 ++ if c then [] else l2) s.
Proof. destruct c; [rewrite app_nil_r|]; reflexivity. Qed.

(** ** What [send_dhcp_message] and [dhcpRelease] transmit

    Both functions are long runs of assignments to the same variables; the
    proofs walk them one [let] at a time. *)

(** Name the value of the outermost [let] of the left-hand side [y], with
    [E : y = value], and go on with the body. *)
Ltac step_let y E :=
  lazymatch goal with
  | |- (let x := ?a in ?b) = ?r =>
    change (let x := a in b = r);
    intro y; assert (E : y = a) by reflexivity; clearbody y
  end.

(** Bring a state built with the setters into constructor form. *)
Ltac norm_state E :=
  cbv beta iota delta
    [udpPrepare emit set_gPB set_bufPtr set_myip set_dhcpState
     mymac myip netmask broadcastip gwip dhcpip dnsip hisip using_dhcp
     dhcpState hostname currentXid stateTimer leaseStart leaseTime bufPtr
     dhcpCustomOptionNum dhcpCustomOptionCallback gPB trace] in E.

(** One assignment of the header part: the state [y] it gives, in
    constructor form, from the constructor form [Eprev] of [yprev]. *)
Ltac header_step y E yprev Eprev :=
  step_let y E; rewrite Eprev in E; norm_state E; clear yprev Eprev.

(** Fields that [addToBuf] leaves alone, read after a run of them. *)
Ltac emit_fields E h :=
  repeat match type of E with
  | context [mymac (emit_bytes ?l h)] =>
    change (mymac (emit_bytes l h)) with (mymac h) in E
  | context [dhcpState (emit_bytes ?l h)] =>
    change (dhcpState (emit_bytes l h)) with (dhcpState h) in E
  | context [hostname (emit_bytes ?l h)] =>
    change (hostname (emit_bytes l h)) with (hostname h) in E
  | context [dhcpip (emit_bytes ?l h)] =>
    change (dhcpip (emit_bytes l h)) with (dhcpip h) in E
  | context [dhcpCustomOptionNum (emit_bytes ?l h)] =>
    change (dhcpCustomOptionNum (emit_bytes l h)) with (dhcpCustomOptionNum h) in E
  end.

(** One [addToBuf] of the options part: [yprev] is [emit_bytes l h], so [y]
    is [emit_bytes (l ++ [b]) h]. *)
Ltac byte_step y E yprev Eprev h :=
  step_let y E; rewrite Eprev in E; emit_fields E h;
  rewrite addToBuf_emit, emit_bytes_app in E; clear yprev Eprev.

Lemma take_bytes_ip (a : ip4) :
  take_bytes (Z.to_nat (u8 IP_LEN)) (ip_bytes a) = ip_bytes a.
Proof. destruct a as [[[a0 a1] a2] a3]. reflexivity. Qed.

(** [send_dhcp_message] is: build the header, write [request_options]
    through [bufPtr], transmit header and options. *)
Lemma send_dhcp_message_eq (requestip : option ip4) (s : State) :
  send_dhcp_message requestip s
  = udpTransmit
      (sizeof_DHCPdata + Z.of_nat (length (request_options s requestip)))
      (emit_bytes (request_options s requestip) (request_header s)).
Proof.
  destruct s as [mac ip nm bc gw dip dns his ud st hn xid stt ls lt bp num cb
                   m tr].
  cbv beta delta [send_dhcp_message].
  destruct (DhcpState_eqb st DHCP_STATE_BOUND) eqn:Hb;
    destruct requestip as [rip|].
  (* the header *)
  all: step_let x1 E1; norm_state E1.
  all: header_step x2 E2 x1 E1; rewrite Hb in E2; cbv beta iota in E2.
  all: header_step x3 E3 x2 E2.
  all: step_let p Ep; subst p.
  all: header_step x4 E4 x3 E3.
  all: header_step x5 E5 x4 E4.
  all: header_step x6 E6 x5 E5.
  all: header_step x7 E7 x6 E6.
  all: header_step x8 E8 x7 E7; rewrite Hb in E8; cbv beta iota in E8.
  all: header_step x9 E9 x8 E8.
  all: header_step h Eh x9 E9.
  all: match goal with
       | |- _ = udpTransmit _ (emit_bytes (request_options ?s0 ?r)
                                 (request_header ?s0)) =>
         assert (Hh : h = request_header s0)
           by (rewrite Eh; unfold request_header;
               cbv beta iota zeta delta [dhcpState dhcpip myip mymac currentXid];
               rewrite Hb; reflexivity);
         rewrite <- Hh;
         replace (request_options s0 r)
           with (request_options h r) by (rewrite Eh; reflexivity)
       end.
  all: assert (Hptr : bufPtr h = UDP_DATA_P + sizeof_DHCPdata)
         by (rewrite Eh; reflexivity).
  all: clear Hh Eh Hb.
  (* the options *)
  all: step_let y1 F1; rewrite fold_addToBuf_emit in F1.
  all: byte_step y2 F2 y1 F1 h.
  all: byte_step y3 F3 y2 F2 h.
  all: byte_step y4 F4 y3 F3 h.
  all: byte_step y5 F5 y4 F4 h.
  all: byte_step y6 F6 y5 F5 h.
  all: byte_step y7 F7 y6 F6 h.
  all: step_let y8 F8; rewrite F7 in F8; emit_fields F8 h; unfold addBytes in F8;
    rewrite addBytes_loop_emit, emit_bytes_app in F8; clear y7 F7.
  all: step_let y9 F9; rewrite F8 in F9; emit_fields F9 h;
    rewrite addOption_emit, emit_bytes_app, if_emit_bytes in F9; clear y8 F8.
  all: step_let y10 F10; rewrite F9 in F10; cbv beta iota zeta in F10;
    rewrite ?addOption_emit, ?emit_bytes_app in F10; emit_fields F10 h;
    clear y9 F9.
  all: step_let n1 G1; subst n1.
  all: step_let n2 G2; rewrite F10 in G2; emit_fields G2 h.
  all: byte_step z1 H1 y10 F10 h.
  all: byte_step z2 H2 z1 H1 h.
  all: byte_step z3 H3 z2 H2 h.
  all: byte_step z4 H4 z3 H3 h.
  all: byte_step z5 H5 z4 H4 h.
  all: byte_step z6 H6 z5 H5 h.
  all: byte_step z7 H7 z6 H6 h.
  all: byte_step z8 H8 z7 H7 h.
  all: byte_step z9 H9 z8 H8 h.
  all: step_let z10 H10; rewrite H9 in H10; emit_fields H10 h;
    rewrite addToBuf_emit, emit_bytes_app, if_emit_bytes in H10; clear z9 H9.
  all: byte_step z11 H11 z10 H10 h.
  all: subst n2.
  (* [udpTransmit] *)
  all: rewrite H11; clear z11 H11.
  all: match goal with
       | |- udpTransmit _ (emit_bytes ?L _) = udpTransmit _ (emit_bytes ?R _) =>
         assert (HL : L = R)
           by (unfold request_options, request_options_head,
                 requested_address, request_options_tail;
               rewrite ?take_bytes_ip;
               repeat rewrite <- app_assoc; reflexivity);
         rewrite HL
       end.
  all: f_equal.
  all: change (bufPtr (emit_bytes ?l h)) with (bufPtr h + Z.of_nat (length l)).
  all: rewrite Hptr; lia.
Qed.

(** [dhcpRelease] is: set RELEASING and build the header, write
    [release_options], transmit, clean up. *)
Lemma dhcpRelease_eq (s : State) :
  dhcpRelease s
  = release_cleanup
      (udpTransmit
         (sizeof_DHCPdata + Z.of_nat (length (release_options s)))
         (emit_bytes (release_options s) (release_header s))).
Proof.
  destruct s as [mac ip nm bc gw dip dns his ud st hn xid stt ls lt bp num cb
                   m tr].
  cbv beta delta [dhcpRelease].
  (* the header *)
  step_let x0 E0; norm_state E0.
  header_step x1 E1 x0 E0.
  header_step x2 E2 x1 E1.
  header_step x3 E3 x2 E2.
  step_let p Ep; subst p.
  header_step x4 E4 x3 E3.
  header_step x5 E5 x4 E4.
  header_step x6 E6 x5 E5.
  header_step x7 E7 x6 E6.
  header_step x8 E8 x7 E7.
  header_step x9 E9 x8 E8.
  header_step x10 E10 x9 E9.
  header_step h Eh x10 E10.
  match goal with
  | |- _ = release_cleanup
             (udpTransmit _ (emit_bytes (release_options ?s0)
                               (release_header ?s0))) =>
    assert (Hh : h = release_header s0) by (rewrite Eh; reflexivity);
    rewrite <- Hh;
    replace (release_options s0)
      with (release_options h) by (rewrite Eh; reflexivity)
  end.
  assert (Hptr : bufPtr h = UDP_DATA_P + sizeof_DHCPdata)
    by (rewrite Eh; reflexivity).
  clear Hh Eh.
  (* the options *)
  step_let y1 F1; rewrite fold_addToBuf_emit in F1.
  byte_step y2 F2 y1 F1 h.
  byte_step y3 F3 y2 F2 h.
  byte_step y4 F4 y3 F3 h.
  byte_step y5 F5 y4 F4 h.
  byte_step y6 F6 y5 F5 h.
  byte_step y7 F7 y6 F6 h.
  step_let y8 F8; rewrite F7 in F8; emit_fields F8 h; unfold addBytes in F8;
    rewrite addBytes_loop_emit, emit_bytes_app in F8; clear y7 F7.
  step_let y9 F9; rewrite F8 in F9; emit_fields F9 h;
    rewrite addOption_emit, emit_bytes_app in F9; clear y8 F8.
  byte_step y10 F10 y9 F9 h.
  (* [udpTransmit] and the clean-up *)
  step_let y11 F11; rewrite F10 in F11; clear y10 F10.
  cbv beta zeta. unfold release_cleanup. cbv beta zeta.
  rewrite F11. clear y11 F11.
  match goal with
  | |- context [udpTransmit _ (emit_bytes ?L _)] =>
    assert (HL : L = release_options h)
      by (unfold release_options; rewrite ?take_bytes_ip;
          repeat rewrite <- app_assoc; reflexivity);
    rewrite HL
  end.
  change (bufPtr (emit_bytes ?l h)) with (bufPtr h + Z.of_nat (length l)).
  rewrite Hptr.
  replace (UDP_DATA_P + sizeof_DHCPdata
           + Z.of_nat (length (release_options h)) - UDP_DATA_P)
    with (sizeof_DHCPdata + Z.of_nat (length (release_options h))) by lia.
  reflexivity.
Qed.


Lemma take_bytes_length (n : nat) :
  forall data : list Z, length (take_bytes n data) = n.
Proof. induction n; intros; cbn; auto. Qed.

Lemma ip_bytes_length (a : ip4) : length (ip_bytes a) = 4%nat.
Proof. destruct a as [[[a0 a1] a2] a3]. reflexivity. Qed.

(** The payload handed to [udpTransmit]: the [DHCPdata] as the header left
    it, then the options. *)
Lemma sent_payload (opts : list Z) (h : State) :
  bufPtr h = UDP_DATA_P + sizeof_DHCPdata ->
  peeks (gPB (emit_bytes opts h)) UDP_DATA_P
    (Z.to_nat (sizeof_DHCPdata + Z.of_nat (length opts)))
  = peeks (gPB h) UDP_DATA_P (Z.to_nat sizeof_DHCPdata) ++ map u8 opts.
Proof.
  intros Hptr.
  change (gPB (emit_bytes opts h)) with (pokes (gPB h) (bufPtr h) opts).
  rewrite Hptr.
  rewrite Z2Nat.inj_add, Nat2Z.id by (unfold sizeof_DHCPdata; lia).
  rewrite peeks_app. f_equal.
  - apply peeks_pokes_out. left. unfold sizeof_DHCPdata. lia.
  - rewrite Z2Nat.id by (unfold sizeof_DHCPdata; lia). apply peeks_pokes.
Qed.

Lemma payload_field (m : buffer) (p : Z) (a b c : nat) (rest : list Z) :
  firstn b (skipn a (peeks m p (a + b + c) ++ rest))
  = peeks m (p + Z.of_nat a) b.
Proof.
  rewrite <- Nat.add_assoc, peeks_app, <- app_assoc.
  rewrite skipn_app, peeks_length, Nat.sub_diag, skipn_all2
    by (rewrite peeks_length; lia).
  cbn [app skipn].
  rewrite peeks_app, <- app_assoc.
  rewrite firstn_app, peeks_length, Nat.sub_diag, firstn_all2
    by (rewrite peeks_length; lia).
  cbn [firstn]. apply app_nil_r.
Qed.

Lemma payload_options_sent (m : buffer) (p : Z) (opts : list Z) :
  payload_options (peeks m p (Z.to_nat sizeof_DHCPdata) ++ opts) = opts.
Proof.
  unfold payload_options.
  rewrite skipn_app, peeks_length.
  change (Z.to_nat sizeof_DHCPdata) with 236%nat.
  rewrite Nat.sub_diag, skipn_all2 by (rewrite peeks_length; lia).
  reflexivity.
Qed.

Lemma request_header_ciaddr (s : State) :
  dhcpState s = DHCP_STATE_BOUND ->
  peeks (gPB (request_header s)) (UDP_DATA_P + 12) 4
  = map u8 (ip_bytes (myip s)).
Proof.
  intros Hb. unfold request_header. rewrite Hb. cbn [DhcpState_eqb].
  cbv beta zeta. cbn [gPB set_bufPtr set_gPB].
  unfold poke_mac at 1.
  rewrite peeks_pokes_out
    by (left; unfold DHCPdata_chaddr; cbn; lia).
  unfold poke_ip, DHCPdata_ciaddr.
  rewrite <- (ip_bytes_length (myip s)). apply peeks_pokes.
Qed.

Lemma release_header_addrs (s : State) :
  peeks (gPB (release_header s)) (UDP_DATA_P + 12) 4
  = map u8 (ip_bytes (myip s))
  /\ peeks (gPB (release_header s)) (UDP_DATA_P + 20) 4
     = map u8 (ip_bytes (dhcpip s)).
Proof.
  unfold release_header. cbv beta zeta.
  cbn [gPB set_bufPtr set_gPB myip dhcpip mymac set_dhcpState].
  split.
  - unfold poke_ip at 1.
    rewrite peeks_pokes_out
      by (left; unfold DHCPdata_siaddr; cbn; lia).
    unfold poke_mac at 1.
    rewrite peeks_pokes_out
      by (left; unfold DHCPdata_chaddr; cbn; lia).
    unfold poke_ip, DHCPdata_ciaddr.
    rewrite <- (ip_bytes_length (myip s)). apply peeks_pokes.
  - unfold poke_ip at 1, DHCPdata_siaddr.
    rewrite <- (ip_bytes_length (dhcpip s)). apply peeks_pokes.
Qed.

Lemma udpTransmit_trace (n : Z) (s : State) :
  trace (udpTransmit n s)
  = EvUdpTransmit n (peeks (gPB s) UDP_DATA_P (Z.to_nat n)) :: trace s.
Proof. reflexivity. Qed.

Lemma request_header_trace (s : State) :
  trace (request_header s)
  = EvUdpPrepare DHCP_CLIENT_PORT
      (if DhcpState_eqb (dhcpState s) DHCP_STATE_BOUND
       then dhcpip s else allOnes_ip) DHCP_SERVER_PORT
    :: trace s.
Proof. reflexivity. Qed.

(** C3, what the code does: when the finite lease has run out, the tick in
    BOUND returns with the session in RENEWING after one [udpPrepare] to the
    DHCP server and one [udpTransmit].  The message has [ciaddr] set to
    [myip], as the claim says; but [DhcpStateMachine] passes [myip] as
    [requestip], so after the host name the options go on with the
    requested address (tag 50, [myip]) and the server identifier (tag 54,
    [dhcpip]). *)
Theorem renewal_request_sent (millis : nat -> Z) (len : Z) (s : State) :
  dhcpState s = DHCP_STATE_BOUND ->
  leaseTime s <> DHCP_INFINITE_LEASE ->
  leaseTime s <= sub32 (u32 (millis 0%nat)) (leaseStart s) ->
  exists (s' : State) (n : Z) (payload : list Z),
    DhcpStateMachine millis len s = Ok s'
    /\ dhcpState s' = DHCP_STATE_RENEWING
    /\ trace s'
       = EvUdpTransmit n payload
         :: EvUdpPrepare DHCP_CLIENT_PORT (dhcpip s) DHCP_SERVER_PORT
         :: trace s
    /\ payload_ciaddr payload = map u8 (ip_bytes (myip s))
    /\ payload_options payload
       = map u8 (request_options_head s
                 ++ [DHCP_OPT_REQUESTED_ADDRESS; 4] ++ ip_bytes (myip s)
                 ++ [DHCP_OPT_SERVER_IDENTIFIER; 4] ++ ip_bytes (dhcpip s)
                 ++ request_options_tail s).
Proof.
  intros Hb Hfin Hdue.
  unfold DhcpStateMachine. rewrite Hb.
  apply Z.eqb_neq in Hfin. apply Z.leb_le in Hdue.
  rewrite Hfin, Hdue. cbn [negb andb].
  rewrite send_dhcp_message_eq.
  set (opts := request_options s (Some (myip s))).
  set (h := request_header s).
  assert (Hptr : bufPtr h = UDP_DATA_P + sizeof_DHCPdata) by reflexivity.
  pose proof (sent_payload opts h Hptr) as Hpay.
  pose proof (request_header_trace s) as Htr. fold h in Htr.
  rewrite Hb in Htr. cbn [DhcpState_eqb] in Htr.
  pose proof (request_header_ciaddr s Hb) as Hci. fold h in Hci.
  clearbody h.
  exists (set_stateTimer (u32 (millis 1%nat))
            (set_dhcpState DHCP_STATE_RENEWING
               (udpTransmit (sizeof_DHCPdata + Z.of_nat (length opts))
                  (emit_bytes opts h)))),
    (sizeof_DHCPdata + Z.of_nat (length opts)),
    (peeks (gPB h) UDP_DATA_P (Z.to_nat sizeof_DHCPdata) ++ map u8 opts).
  split; [reflexivity|].
  split; [reflexivity|].
  split.
  { change (trace (set_stateTimer ?a (set_dhcpState ?b ?x))) with (trace x).
    rewrite udpTransmit_trace, Hpay.
    change (trace (emit_bytes opts h)) with (trace h).
    rewrite Htr. reflexivity. }
  split.
  { unfold payload_ciaddr.
    change (Z.to_nat sizeof_DHCPdata) with (12 + 4 + 220)%nat.
    rewrite payload_field. exact Hci. }
  rewrite payload_options_sent. subst opts.
  unfold request_options, requested_address.
  rewrite <- !app_assoc. reflexivity.
Qed.
Lemma release_header_trace (s : State) :
  trace (release_header s)
  = EvUdpPrepare DHCP_CLIENT_PORT allOnes_ip DHCP_SERVER_PORT :: trace s.
Proof. reflexivity. Qed.

(** C8: [dhcpRelease], from any state, first sets RELEASING; in that state
    it builds and transmits one message, to the broadcast address, whose
    [ciaddr] is the current [myip], whose [siaddr] is [dhcpip] and whose
    options are the cookie, Message Type RELEASE, the client identifier, the
    server identifier (tag 54) with [dhcpip], and End; then it zeroes
    [myip], [netmask], [broadcastip], [gwip], [dhcpip], [dnsip] (and
    [hisip]) and ends in RELEASED with [using_dhcp] off. *)
Theorem release_sends_and_clears (s : State) :
  exists (n : Z) (payload : list Z),
    dhcpRelease s
    = release_cleanup
        (udpTransmit n (emit_bytes (release_options s) (release_header s)))
    /\ dhcpState (release_header s) = DHCP_STATE_RELEASING
    /\ trace (dhcpRelease s)
       = EvUdpTransmit n payload
         :: EvUdpPrepare DHCP_CLIENT_PORT allOnes_ip DHCP_SERVER_PORT
         :: trace s
    /\ payload_ciaddr payload = map u8 (ip_bytes (myip s))
    /\ payload_siaddr payload = map u8 (ip_bytes (dhcpip s))
    /\ payload_options payload
       = map u8 (cookie
                 ++ [DHCP_OPT_MESSAGE_TYPE; 1; DHCP_RELEASE]
                 ++ [DHCP_OPT_CLIENT_IDENTIFIER; 7; 1]
                 ++ take_bytes 6 (mymac s)
                 ++ [DHCP_OPT_SERVER_IDENTIFIER; 4] ++ ip_bytes (dhcpip s)
                 ++ [DHCP_OPT_END])
    /\ myip (dhcpRelease s) = ip_zero
    /\ netmask (dhcpRelease s) = ip_zero
    /\ broadcastip (dhcpRelease s) = ip_zero
    /\ gwip (dhcpRelease s) = ip_zero
    /\ dhcpip (dhcpRelease s) = ip_zero
    /\ dnsip (dhcpRelease s) = ip_zero
    /\ hisip (dhcpRelease s) = ip_zero
    /\ dhcpState (dhcpRelease s) = DHCP_STATE_RELEASED
    /\ using_dhcp (dhcpRelease s) = false.
Proof.
  rewrite dhcpRelease_eq.
  set (opts := release_options s).
  set (h := release_header s).
  assert (Hptr : bufPtr h = UDP_DATA_P + sizeof_DHCPdata) by reflexivity.
  assert (Hst : dhcpState h = DHCP_STATE_RELEASING) by reflexivity.
  pose proof (sent_payload opts h Hptr) as Hpay.
  pose proof (release_header_trace s) as Htr. fold h in Htr.
  destruct (release_header_addrs s) as (Hci & Hsi). fold h in Hci, Hsi.
  clearbody h.
  exists (sizeof_DHCPdata + Z.of_nat (length opts)),
    (peeks (gPB h) UDP_DATA_P (Z.to_nat sizeof_DHCPdata) ++ map u8 opts).
  split; [reflexivity|].
  split; [exact Hst|].
  split.
  { change (trace (release_cleanup ?x)) with (trace x).
    rewrite udpTransmit_trace, Hpay.
    change (trace (emit_bytes opts h)) with (trace h).
    rewrite Htr. reflexivity. }
  split.
  { unfold payload_ciaddr.
    change (Z.to_nat sizeof_DHCPdata) with (12 + 4 + 220)%nat.
    rewrite payload_field. exact Hci. }
  split.
  { unfold payload_siaddr.
    change (Z.to_nat sizeof_DHCPdata) with (20 + 4 + 212)%nat.
    rewrite payload_field. exact Hsi. }
  split.
  { rewrite payload_options_sent. reflexivity. }
  repeat split.
Qed.


End Properties.

(** ** Concrete runs *)

Lemma released_is_terminal_witness :
  DhcpStateMachine (fun _ => 5) 0 (set_dhcpState DHCP_STATE_RELEASED (boot sample_mac))
  = Ok (set_dhcpState DHCP_STATE_RELEASED (boot sample_mac)).
Proof.
  apply (released_is_terminal (fun _ => 5) 0
           (set_dhcpState DHCP_STATE_RELEASED (boot sample_mac))).
  right. reflexivity.
Defined.

Lemma infinite_lease_never_renews_witness :
  let s := set_leaseTime DHCP_INFINITE_LEASE
             (set_dhcpState DHCP_STATE_BOUND (boot sample_mac)) in
  DhcpStateMachine (fun _ => 4000000000) 0 s = Ok s
  /\ forall s', DhcpStateMachine (fun _ => 4000000000) 0 s = Ok s' ->
                dhcpState s' <> DHCP_STATE_RENEWING.
Proof.
  intros s.
  apply (infinite_lease_never_renews (fun _ => 4000000000) 0 s); reflexivity.
Defined.

(** C5 as stated fails: the client waits in SELECTING since t = 0 for
    transaction 9, the buffer holds an answer to transaction 7, and a tick
    at t = 20000 changes the state to INIT. *)
Lemma stale_frame_tick_leaves_selecting :
  let s := waiting DHCP_STATE_SELECTING 9 0 sample_offer in
  dhcpState s = DHCP_STATE_SELECTING
  /\ peek32 (gPB s) (UDP_DATA_P + DHCPdata_xid) <> currentXid s
  /\ DhcpStateMachine (fun _ => 20000) 300 s
     = Ok (set_dhcpState DHCP_STATE_INIT s)
  /\ dhcpState (set_dhcpState DHCP_STATE_INIT s) <> dhcpState s.
Proof.
  cbv zeta. repeat split; try reflexivity; vm_compute; discriminate.
Qed.

Lemma stale_xid_is_dropped_witness :
  let s := waiting DHCP_STATE_SELECTING 9 0 sample_offer in
  DhcpStateMachine (fun _ => 3000) 300 s = Ok s.
Proof.
  intros s.
  apply (stale_xid_is_dropped (fun _ => 3000) 300 s).
  - left. reflexivity.
  - vm_compute. discriminate.
  - vm_compute. discriminate.
Defined.

(** C6 as stated fails: the client entered SELECTING at t = 0 and no frame
    arrives; the tick at t = 10000 leaves it in SELECTING. *)
Lemma tick_at_10000_stays_selecting :
  let s := waiting DHCP_STATE_SELECTING 0 0 [] in
  dhcp_received_message_type 0 DHCP_OFFER s = false
  /\ sub32 (u32 10000) (stateTimer s) = 10000
  /\ DhcpStateMachine (fun _ => 10000) 0 s = Ok s
  /\ dhcpState s = DHCP_STATE_SELECTING
  /\ dhcpState s <> DHCP_STATE_INIT.
Proof.
  cbv zeta. repeat split; discriminate.
Qed.

Lemma selecting_timeout_is_strict_witness :
  let s := waiting DHCP_STATE_SELECTING 0 0 [] in
  DhcpStateMachine (fun _ => 10001) 0 s = Ok (set_dhcpState DHCP_STATE_INIT s).
Proof.
  intros s.
  apply (selecting_timeout_is_strict (fun _ => 10001) 0 s).
  - reflexivity.
  - reflexivity.
  - vm_compute. reflexivity.
Defined.

(** C4 as stated fails: an answer to the current transaction that comes
    from UDP port 323 is taken as a valid OFFER. *)
Lemma offer_from_port_323_accepted :
  let s := waiting DHCP_STATE_SELECTING 7 0 offer_from_port_323 in
  dhcp_received_message_type 292 DHCP_OFFER s = true
  /\ udp_src_port (gPB s) = 323
  /\ udp_src_port (gPB s) <> DHCP_SERVER_PORT.
Proof.
  cbv zeta. repeat split; vm_compute; discriminate.
Qed.

Lemma message_accepted_only_if_witness :
  let s := waiting DHCP_STATE_SELECTING 7 0 sample_offer in
  70 <= 292
  /\ peek (gPB s) UDP_SRC_PORT_L_P = DHCP_SERVER_PORT
  /\ peek32 (gPB s) (UDP_DATA_P + DHCPdata_xid) = currentXid s
  /\ exists p, (p = first_option \/ first_option < p < 292)
               /\ peek (gPB s) p = DHCP_OPT_MESSAGE_TYPE
               /\ peek (gPB s) (p + 2) = DHCP_OFFER.
Proof.
  intros s.
  apply (proj1 (message_accepted_only_if 292 DHCP_OFFER s)).
  vm_compute. reflexivity.
Defined.

Lemma ack_without_callback_calls_null_witness :
  let s := waiting DHCP_STATE_REQUESTING 7 0 sample_ack in
  dhcp_received_message_type 308 DHCP_ACK s = true
  /\ process_dhcp_ack 308 s = NullCall
  /\ DhcpStateMachine (fun _ => 100) 308 s = NullCall.
Proof.
  intros s.
  assert (Hr : dhcp_received_message_type 308 DHCP_ACK s = true)
    by (vm_compute; reflexivity).
  destruct (ack_without_callback_calls_null (fun _ => 100) 308 s eq_refl)
    as (E1 & E2).
  split; [exact Hr|]. split; [exact E1|].
  apply E2; [left; reflexivity | exact Hr].
Defined.

(** With callback 1 registered for option 43 the same ACK gives one call per
    option, option 43 among them, and the session is BOUND. *)
Example ack_with_callback :
  let s := dhcpAddOptionCallback 43 (Some 1%nat)
             (waiting DHCP_STATE_REQUESTING 7 0 sample_ack) in
  exists s',
    DhcpStateMachine (fun _ => 100) 308 s = Ok s'
    /\ dhcpState s' = DHCP_STATE_BOUND
    /\ myip s' = (192, 168, 1, 50)
    /\ netmask s' = (255, 255, 255, 0)
    /\ gwip s' = (192, 168, 1, 1)
    /\ leaseTime s' = 3600000
    /\ leaseStart s' = 100
    /\ trace s'
       = [EvSetGwIp (192, 168, 1, 1);
          EvCallback 1 255 [] 0;
          EvCallback 1 43 [171; 205] 2;
          EvCallback 1 51 [0; 0; 14; 16] 4;
          EvCallback 1 3 [192; 168; 1; 1] 4;
          EvCallback 1 1 [255; 255; 255; 0] 4;
          EvCallback 1 53 [5] 1].
Proof.
  cbv zeta. eexists. split; [vm_compute; reflexivity|].
  repeat split.
Qed.

(** The Lease Time option of [sample_ack], taken alone. *)
Example lease_option_of_3600 :
  let s := waiting DHCP_STATE_REQUESTING 7 0 sample_ack in
  lease_seconds (gPB s) 299 = 3600
  /\ leaseTime (ack_switch DHCP_OPT_LEASE_TIME 299 s) = 3600 * 1000.
Proof.
  intros s. split; [reflexivity|].
  destruct (lease_option_stored DHCP_OPT_LEASE_TIME 299 s (or_introl eq_refl))
    as (_ & H).
  assert (Hne : lease_seconds (gPB s) 299 <> DHCP_INFINITE_LEASE)
    by (vm_compute; discriminate).
  destruct (H Hne) as (_ & _ & _ & _ & H5).
  rewrite H5; [reflexivity | vm_compute; reflexivity].
Qed.

(** No finite value of a single option makes the code store the
    sentinel. *)
Lemma finite_lease_never_aliases_infinite :
  ~ exists (s : State) (ptr : Z),
      lease_seconds (gPB s) ptr <> DHCP_INFINITE_LEASE
      /\ leaseTime (ack_switch DHCP_OPT_LEASE_TIME ptr s) = DHCP_INFINITE_LEASE.
Proof.
  intros (s & ptr & Hne & H).
  revert H. unfold ack_switch. cbn -[read_lease u32 Z.mul].
  rewrite read_lease_be32.
  apply Z.eqb_neq in Hne. rewrite Hne. cbn -[u32 Z.mul].
  unfold u32, DHCP_INFINITE_LEASE.
  pose proof (Z.div_mod (lease_seconds (gPB s) ptr * 1000) 4294967296
                ltac:(lia)) as Hdm.
  intros H. rewrite H in Hdm. lia.
Qed.

(** A lease of 4294968 s is stored as 704 ms. *)
Example long_lease_wraps :
  let s := set_gPB (buffer_of [0; 65; 137; 56]) (boot sample_mac) in
  lease_seconds (gPB s) 0 = 4294968
  /\ leaseTime (ack_switch DHCP_OPT_LEASE_TIME 0 s) = 704.
Proof. split; reflexivity. Qed.

Lemma renewal_request_sent_witness :
  exists (s' : State) (n : Z) (payload : list Z),
    DhcpStateMachine (fun _ => 3600100) 0 bound_sample = Ok s'
    /\ dhcpState s' = DHCP_STATE_RENEWING
    /\ trace s'
       = EvUdpTransmit n payload
         :: EvUdpPrepare DHCP_CLIENT_PORT (dhcpip bound_sample) DHCP_SERVER_PORT
         :: trace bound_sample
    /\ payload_ciaddr payload = map u8 (ip_bytes (myip bound_sample))
    /\ payload_options payload
       = map u8 (request_options_head bound_sample
                 ++ [DHCP_OPT_REQUESTED_ADDRESS; 4]
                 ++ ip_bytes (myip bound_sample)
                 ++ [DHCP_OPT_SERVER_IDENTIFIER; 4]
                 ++ ip_bytes (dhcpip bound_sample)
                 ++ request_options_tail bound_sample).
Proof.
  apply (renewal_request_sent (fun _ => 3600100) 0 bound_sample).
  - reflexivity.
  - vm_compute. discriminate.
  - vm_compute. discriminate.
Defined.

(** The renewal of [bound_sample] byte by byte: [ciaddr] is 192.168.1.50
    and a walk over the options meets tags 50 and 54. *)
Example renewal_request_bytes :
  exists (s' : State) (n : Z) (payload : list Z) (rest : list Event),
    DhcpStateMachine (fun _ => 3600100) 0 bound_sample = Ok s'
    /\ trace s' = EvUdpTransmit n payload :: rest
    /\ n = 295
    /\ payload_ciaddr payload = [192; 168; 1; 50]
    /\ payload_options payload
       = [99; 130; 83; 99; 53; 1; 3; 61; 7; 1; 170; 187; 204; 221; 238; 255;
          12; 19; 65; 114; 100; 117; 105; 110; 111; 45; 69; 78; 67; 50; 56;
          106; 54; 48; 45; 70; 70;
          50; 4; 192; 168; 1; 50; 54; 4; 192; 168; 1; 1;
          55; 8; 1; 2; 3; 4; 6; 42; 119; 255]
    /\ tlv_tags 16 (skipn 4 (payload_options payload))
       = [53; 61; 12; 50; 54; 55].
Proof.
  do 4 eexists. split; [vm_compute; reflexivity|].
  split; [reflexivity|].
  repeat split.
Qed.

(** [dhcpRelease] on the same client. *)
Example release_bytes :
  exists (n : Z) (payload : list Z) (rest : list Event),
    trace (dhcpRelease bound_sample) = EvUdpTransmit n payload :: rest
    /\ payload_ciaddr payload = [192; 168; 1; 50]
    /\ payload_options payload
       = [99; 130; 83; 99; 53; 1; 7; 61; 7; 1; 170; 187; 204; 221; 238; 255;
          54; 4; 192; 168; 1; 1; 255]
    /\ dhcpState (dhcpRelease bound_sample) = DHCP_STATE_RELEASED
    /\ myip (dhcpRelease bound_sample) = ip_zero.
Proof.
  do 3 eexists. split; [vm_compute; reflexivity|].
  repeat split.
Qed.

(** The OFFER for the current transaction is answered by a REQUEST that
    names the offered address and the server, and the session is
    REQUESTING. *)
Example offer_answered_by_request :
  exists (s' : State) (payload : list Z) (rest : list Event),
    DhcpStateMachine (fun _ => 40) 292
      (waiting DHCP_STATE_SELECTING 7 0 sample_offer) = Ok s'
    /\ dhcpState s' = DHCP_STATE_REQUESTING
    /\ dhcpip s' = (192, 168, 1, 1)
    /\ stateTimer s' = 40
    /\ trace s' = EvUdpTransmit 295 payload :: rest
    /\ payload_ciaddr payload = [0; 0; 0; 0]
    /\ tlv_tags 16 (skipn 4 (payload_options payload)) = [53; 61; 12; 50; 54; 55]
    /\ firstn 12 (skipn 37 (payload_options payload))
       = [50; 4; 192; 168; 1; 50; 54; 4; 192; 168; 1; 1].
Proof.
  do 3 eexists. split; [vm_compute; reflexivity|].
  repeat split.
Qed.

(** A client that is started and never hears from a server: DISCOVER at
    t = 0, still SELECTING at t = 10000, INIT at t = 10001, and the next
    tick sends a DISCOVER under a new transaction id. *)
Example silent_network :
  let s0 := snd (dhcpSetup None false (boot sample_mac)) in
  exists s1 s2 s3 : State,
    DhcpStateMachine (fun _ => 0) 0 s0 = Ok s1
    /\ dhcpState s1 = DHCP_STATE_SELECTING
    /\ DhcpStateMachine (fun _ => 10000) 0 s1 = Ok s1
    /\ DhcpStateMachine (fun _ => 10001) 0 s1 = Ok s2
    /\ dhcpState s2 = DHCP_STATE_INIT
    /\ DhcpStateMachine (fun _ => 10002) 0 s2 = Ok s3
    /\ dhcpState s3 = DHCP_STATE_SELECTING
    /\ currentXid s1 = 0
    /\ currentXid s3 = 10002.
Proof.
  cbv zeta. do 3 eexists.
  split; [reflexivity|]. split; [reflexivity|].
  split; [reflexivity|]. split; [reflexivity|].
  split; [reflexivity|]. split; [reflexivity|].
  repeat split.
Qed.

(** * Further properties *)

Section More.

Context {link : Link}.

(** ** The three loops over the options of a frame *)

Lemma tlv_walk_fuel (m : buffer) (len : Z) :
  forall (f1 f2 : nat) (ptr : Z),
    (Z.to_nat (len - ptr) <= f1)%nat ->
    (Z.to_nat (len - ptr) <= f2)%nat ->
    tlv_walk f1 m len ptr = tlv_walk f2 m len ptr.
Proof.
  induction f1 as [|f1 IH]; intros f2 ptr H1 H2; destruct f2 as [|f2]; cbn;
    try reflexivity;
    pose proof (peek_range m (ptr + 1)) as Hlen;
    destruct (Z.ltb_spec (ptr + 2 + peek m (ptr + 1)) len) as [Hlt | Hge];
    try reflexivity; try lia.
  f_equal. apply IH; lia.
Qed.

Lemma message_type_scan_walk (m : buffer) (len msgType : Z) :
  forall (fuel : nat) (ptr : Z),
    message_type_scan fuel m len msgType ptr
    = existsb (is_message_type m msgType) (tlv_walk fuel m len ptr).
Proof.
  induction fuel as [|fuel IH]; intros ptr; cbn;
    destruct (_ && _); cbn; try reflexivity;
    destruct (_ <? _); cbn; try reflexivity.
  apply IH.
Qed.

Lemma offer_scan_walk (len : Z) (s : State) :
  forall (fuel : nat) (ptr : Z),
    offer_scan fuel len ptr s
    = match find (has_tag DHCP_OPT_SERVER_IDENTIFIER)
              (tlv_walk fuel (gPB s) len ptr) with
      | Some (_, p, _) => set_dhcpip (peek_ip (gPB s) p) s
      | None => s
      end.
Proof.
  induction fuel as [|fuel IH]; intros ptr; cbn;
    destruct (_ =? _); cbn; try reflexivity;
    destruct (_ <? _); cbn; try reflexivity.
  apply IH.
Qed.

Lemma ack_options_walk (m : buffer) (len : Z) :
  forall (fuel : nat) (ptr : Z),
    ack_options fuel m len ptr = upto_end (tlv_walk fuel m len ptr).
Proof.
  induction fuel as [|fuel IH]; intros ptr; cbn; f_equal;
    destruct (_ =? _); cbn; try reflexivity;
    destruct (_ <? _); cbn; try reflexivity.
  apply IH.
Qed.


Lemma ack_switch_addresses (option ptr : Z) (s : State) :
  netmask (ack_switch option ptr s)
  = (if option =? DHCP_OPT_SUBNET_MASK then peek_ip (gPB s) ptr else netmask s)
  /\ gwip (ack_switch option ptr s)
     = (if option =? DHCP_OPT_ROUTERS then peek_ip (gPB s) ptr else gwip s)
  /\ dnsip (ack_switch option ptr s)
     = (if option =? DHCP_OPT_DOMAIN_NAME_SERVERS then peek_ip (gPB s) ptr
        else dnsip s).
Proof.
  unfold ack_switch.
  destruct (Z.eqb_spec option DHCP_OPT_SUBNET_MASK) as [-> | _];
    [repeat split|].
  destruct (Z.eqb_spec option DHCP_OPT_ROUTERS) as [-> | _]; [repeat split|].
  destruct (Z.eqb_spec option DHCP_OPT_DOMAIN_NAME_SERVERS) as [-> | _];
    [repeat split|].
  destruct (_ || _); [|repeat split].
  cbn -[read_lease u32 Z.mul]. destruct (_ =? _); repeat split.
Qed.

Lemma ack_switch_rest (option ptr : Z) (s : State) :
  myip (ack_switch option ptr s) = myip s
  /\ dhcpip (ack_switch option ptr s) = dhcpip s
  /\ stateTimer (ack_switch option ptr s) = stateTimer s
  /\ leaseStart (ack_switch option ptr s) = leaseStart s
  /\ currentXid (ack_switch option ptr s) = currentXid s
  /\ settings (ack_switch option ptr s) = settings s.
Proof.
  unfold ack_switch.
  repeat (destruct (_ =? _); cbn -[read_lease u32 Z.mul]; auto 10).
Qed.

Lemma fold_ack_effect_addresses (fn : nat) :
  forall (opts : list (Z * Z * Z)) (s : State),
    netmask (fold_left (ack_effect fn) opts s)
    = last_address (gPB s) DHCP_OPT_SUBNET_MASK opts (netmask s)
    /\ gwip (fold_left (ack_effect fn) opts s)
       = last_address (gPB s) DHCP_OPT_ROUTERS opts (gwip s)
    /\ dnsip (fold_left (ack_effect fn) opts s)
       = last_address (gPB s) DHCP_OPT_DOMAIN_NAME_SERVERS opts (dnsip s).
Proof.
  induction opts as [|o opts IH]; intros s; [repeat split|].
  unfold last_address. cbn [fold_left].
  destruct (IH (ack_effect fn s o)) as (E1 & E2 & E3).
  destruct (ack_effect_frame fn s o) as (Eg & _).
  rewrite E1, E2, E3, Eg. unfold last_address.
  destruct o as [[option ptr] optionLen]. unfold ack_effect.
  change (netmask (emit ?e ?x)) with (netmask x).
  change (gwip (emit ?e ?x)) with (gwip x).
  change (dnsip (emit ?e ?x)) with (dnsip x).
  destruct (ack_switch_addresses option ptr s) as (A1 & A2 & A3).
  rewrite A1, A2, A3. repeat split.
Qed.

Lemma fold_ack_effect_rest (fn : nat) :
  forall (opts : list (Z * Z * Z)) (s : State),
    myip (fold_left (ack_effect fn) opts s) = myip s
    /\ dhcpip (fold_left (ack_effect fn) opts s) = dhcpip s
    /\ stateTimer (fold_left (ack_effect fn) opts s) = stateTimer s
    /\ leaseStart (fold_left (ack_effect fn) opts s) = leaseStart s
    /\ currentXid (fold_left (ack_effect fn) opts s) = currentXid s
    /\ dhcpState (fold_left (ack_effect fn) opts s) = dhcpState s
    /\ settings (fold_left (ack_effect fn) opts s) = settings s.
Proof.
  induction opts as [|o opts IH]; intros s; [repeat split|].
  cbn [fold_left].
  destruct (IH (ack_effect fn s o)) as (E1 & E2 & E3 & E4 & E5 & E6 & E7).
  rewrite E1, E2, E3, E4, E5, E6, E7.
  destruct o as [[option ptr] optionLen]. unfold ack_effect.
  destruct (ack_switch_rest option ptr s) as (A1 & A2 & A3 & A4 & A5 & A6).
  destruct (ack_switch_frame option ptr s) as (_ & _ & _ & A7).
  repeat split; assumption.
Qed.

(** With a callback registered [process_dhcp_ack] returns the frame's
    options up to the first End applied in order to the state with the new
    [myip]. *)
Lemma process_dhcp_ack_ok (fn : nat) (len : Z) (s : State) :
  dhcpCustomOptionCallback s = Some fn ->
  process_dhcp_ack len s
  = Ok (fold_left (ack_effect fn) (upto_end (frame_options (gPB s) len))
          (set_myip (peek_ip (gPB s) (UDP_DATA_P + DHCPdata_yiaddr)) s)).
Proof.
  intros H. unfold process_dhcp_ack.
  rewrite (ack_scan_ok fn) by exact H.
  cbn [gPB set_myip]. rewrite ack_options_walk. reflexivity.
Qed.

Lemma process_dhcp_ack_result (fn : nat) (len : Z) (s : State) :
  dhcpCustomOptionCallback s = Some fn ->
  let m := gPB s in
  let opts := upto_end (frame_options m len) in
  exists s',
    process_dhcp_ack len s = Ok s'
    /\ myip s' = peek_ip m (UDP_DATA_P + DHCPdata_yiaddr)
    /\ netmask s' = last_address m DHCP_OPT_SUBNET_MASK opts (netmask s)
    /\ gwip s' = last_address m DHCP_OPT_ROUTERS opts (gwip s)
    /\ dnsip s' = last_address m DHCP_OPT_DOMAIN_NAME_SERVERS opts (dnsip s)
    /\ leaseTime s' = lease_after m opts (leaseTime s)
    /\ dhcpip s' = dhcpip s
    /\ dhcpState s' = dhcpState s
    /\ gPB s' = m
    /\ trace s' = rev (map (callback_event fn m) opts) ++ trace s.
Proof.
  intros H m opts.
  rewrite (process_dhcp_ack_ok fn) by exact H. fold m. fold opts.
  set (s0 := set_myip (peek_ip m (UDP_DATA_P + DHCPdata_yiaddr)) s).
  eexists. split; [reflexivity|].
  destruct (fold_ack_effect_rest fn opts s0) as (E1 & E2 & _ & _ & _ & E6 & _).
  destruct (fold_ack_effect_addresses fn opts s0) as (N1 & N2 & N3).
  destruct (fold_ack_effect_trace fn opts s0) as (Et & Eg).
  pose proof (fold_ack_effect_lease fn opts s0) as El.
  rewrite E1, E2, E6, N1, N2, N3, El, Et, Eg.
  repeat split.
Qed.

(** C10, as the code has it: with a callback registered [process_dhcp_ack]
    returns, and so does the tick that accepts the frame as an ACK in
    REQUESTING or RENEWING, which keeps the duration and binds.  The
    duration stored is decided by the last Lease Time (51) or Renewal Time
    (58) option among those the loop visits, up to the first End: with
    four octets [v], most significant first, [leaseTime] is [v] itself
    when [v] is [0xFFFFFFFF] and [(v * 1000) mod 2^32] otherwise; without
    such an option [leaseTime] is what it was.  From [v] = 4294968 s
    (about 49.7 days) on the stored duration is shorter than the lease; it
    is a multiple of 8 and so never the sentinel. *)
Theorem lease_time_stored (millis : nat -> Z) (fn : nat) (len : Z)
  (s : State) :
  dhcpCustomOptionCallback s = Some fn ->
  let m := gPB s in
  let opts := upto_end (frame_options m len) in
  exists s1,
    process_dhcp_ack len s = Ok s1
    /\ (dhcpState s = DHCP_STATE_REQUESTING
        \/ dhcpState s = DHCP_STATE_RENEWING ->
        dhcp_received_message_type len DHCP_ACK s = true ->
        exists s',
          DhcpStateMachine millis len s = Ok s'
          /\ dhcpState s' = DHCP_STATE_BOUND
          /\ leaseTime s' = leaseTime s1)
    /\ ((forall o, In o opts ->
                   fst (fst o) <> DHCP_OPT_LEASE_TIME
                   /\ fst (fst o) <> DHCP_OPT_RENEWAL_TIME) ->
        leaseTime s1 = leaseTime s)
    /\ (forall (before after : list (Z * Z * Z)) (option ptr l : Z),
          opts = before ++ (option, ptr, l) :: after ->
          option = DHCP_OPT_LEASE_TIME \/ option = DHCP_OPT_RENEWAL_TIME ->
          (forall o, In o after ->
                     fst (fst o) <> DHCP_OPT_LEASE_TIME
                     /\ fst (fst o) <> DHCP_OPT_RENEWAL_TIME) ->
          let v := lease_seconds m ptr in
          (v = DHCP_INFINITE_LEASE -> leaseTime s1 = DHCP_INFINITE_LEASE)
          /\ (v <> DHCP_INFINITE_LEASE ->
              leaseTime s1 = (v * 1000) mod 2 ^ 32
              /\ leaseTime s1 <> DHCP_INFINITE_LEASE
              /\ leaseTime s1 mod 8 = 0
              /\ (4294968 <= v -> leaseTime s1 < v * 1000)
              /\ (v < 4294968 -> leaseTime s1 = v * 1000))).
Proof.
  intros Hcb m opts.
  destruct (process_dhcp_ack_result fn len s Hcb)
    as (s1 & E & _ & _ & _ & _ & E5 & _).
  fold m in E5. fold opts in E5.
  exists s1. split; [exact E|].
  split.
  { intros Hs Hacc.
    exists (set_dhcpState DHCP_STATE_BOUND
              (if ip_first (gwip s1) =? 0
               then set_leaseStart (u32 (millis 0%nat)) s1
               else setGwIp (gwip s1)
                      (set_leaseStart (u32 (millis 0%nat)) s1))).
    split.
    - unfold DhcpStateMachine.
      destruct Hs as [Hs | Hs]; rewrite Hs, Hacc, E; reflexivity.
    - split; destruct (ip_first (gwip s1) =? 0); reflexivity. }
  split.
  { intros Hnone. rewrite E5. apply lease_after_none. exact Hnone. }
  intros before after option ptr l Hopts Ho Hafter v.
  rewrite E5, Hopts, (lease_after_last m before after option ptr l) by assumption.
  apply lease_ms_facts. apply lease_seconds_range.
Qed.


Lemma ack_without_callback_null (len : Z) (s : State) :
  dhcpCustomOptionCallback s = None -> process_dhcp_ack len s = NullCall.
Proof.
  intros H. unfold process_dhcp_ack.
  destruct (Z.to_nat (len - first_option)); cbn [ack_scan];
    rewrite ack_turn_null by exact H; reflexivity.
Qed.

Lemma process_dhcp_offer_walk (len : Z) (s : State) :
  process_dhcp_offer len s
  = (peek_ip (gPB s) (UDP_DATA_P + DHCPdata_yiaddr),
     set_dhcpip (offered_server (gPB s) (frame_options (gPB s) len) (dhcpip s))
       s).
Proof.
  unfold process_dhcp_offer, offered_server, frame_options.
  rewrite offer_scan_walk.
  destruct (find _ _) as [[[o p] l]|]; [reflexivity|].
  destruct s; reflexivity.
Qed.

(** ** The transitions of [DhcpStateMachine] *)

(** X1: in REQUESTING or RENEWING, with a callback registered, a tick that
    accepts the frame as an ACK returns normally and binds the lease: the
    state is BOUND, [leaseStart] is the clock, [myip] is the frame's
    [yiaddr], mask, router and DNS server are the values of the last
    option 1, 3 and 6 up to the first End (the old value without one), the
    lease duration is that of the last option 51 or 58, [dhcpip] is kept,
    the callback is called once per option up to and including the first
    End, in frame order, and [setGwIp] follows exactly when the router's
    first octet is not 0. *)
Theorem ack_binds_lease (millis : nat -> Z) (fn : nat) (len : Z) (s : State) :
  dhcpState s = DHCP_STATE_REQUESTING \/ dhcpState s = DHCP_STATE_RENEWING ->
  dhcp_received_message_type len DHCP_ACK s = true ->
  dhcpCustomOptionCallback s = Some fn ->
  let m := gPB s in
  let opts := upto_end (frame_options m len) in
  exists s',
    DhcpStateMachine millis len s = Ok s'
    /\ dhcpState s' = DHCP_STATE_BOUND
    /\ leaseStart s' = u32 (millis 0%nat)
    /\ myip s' = peek_ip m (UDP_DATA_P + DHCPdata_yiaddr)
    /\ netmask s' = last_address m DHCP_OPT_SUBNET_MASK opts (netmask s)
    /\ gwip s' = last_address m DHCP_OPT_ROUTERS opts (gwip s)
    /\ dnsip s' = last_address m DHCP_OPT_DOMAIN_NAME_SERVERS opts (dnsip s)
    /\ leaseTime s' = lease_after m opts (leaseTime s)
    /\ dhcpip s' = dhcpip s
    /\ trace s'
       = (if ip_first (gwip s') =? 0 then [] else [EvSetGwIp (gwip s')])
         ++ rev (map (callback_event fn m) opts) ++ trace s.
Proof.
  intros Hs Hacc Hcb m opts.
  destruct (process_dhcp_ack_result fn len s Hcb)
    as (s1 & E & E1 & E2 & E3 & E4 & E5 & E6 & E7 & E8 & E9).
  fold m in E1, E2, E3, E4, E5, E8, E9. fold opts in E2, E3, E4, E5, E9.
  assert (Estep : DhcpStateMachine millis len s
                  = Ok (set_dhcpState DHCP_STATE_BOUND
                          (if ip_first (gwip s1) =? 0
                           then set_leaseStart (u32 (millis 0%nat)) s1
                           else setGwIp (gwip s1)
                                  (set_leaseStart (u32 (millis 0%nat)) s1)))).
  { unfold DhcpStateMachine.
    destruct Hs as [Hs | Hs]; rewrite Hs, Hacc, E; reflexivity. }
  rewrite Estep. eexists. split; [reflexivity|].
  destruct (ip_first (gwip s1) =? 0) eqn:Hg; cbn;
    rewrite ?Hg; cbn; rewrite E9; repeat split; assumption.
Qed.

(** X2: in SELECTING, with a host name that holds its NUL, a tick that
    accepts the frame as an OFFER broadcasts a REQUEST whose option 50 is
    the frame's [yiaddr] and whose option 54 is the value of the first
    option 54 of the frame ([dhcpip] as it was, without one); [dhcpip]
    becomes that server, [myip] and the transaction id are kept, and the
    state is REQUESTING with the timer restarted. *)
Theorem offer_requests_address (millis : nat -> Z) (len : Z) (s : State) :
  terminated (hostname s) = true ->
  dhcpState s = DHCP_STATE_SELECTING ->
  dhcp_received_message_type len DHCP_OFFER s = true ->
  let m := gPB s in
  let offered := peek_ip m (UDP_DATA_P + DHCPdata_yiaddr) in
  let server := offered_server m (frame_options m len) (dhcpip s) in
  exists (s' : State) (n : Z) (payload : list Z),
    DhcpStateMachine millis len s = Ok s'
    /\ dhcpState s' = DHCP_STATE_REQUESTING
    /\ stateTimer s' = u32 (millis 0%nat)
    /\ dhcpip s' = server
    /\ myip s' = myip s
    /\ currentXid s' = currentXid s
    /\ trace s'
       = EvUdpTransmit n payload
         :: EvUdpPrepare DHCP_CLIENT_PORT allOnes_ip DHCP_SERVER_PORT
         :: trace s
    /\ payload_options payload
       = map u8 (request_options_head s
                 ++ [DHCP_OPT_REQUESTED_ADDRESS; 4] ++ ip_bytes offered
                 ++ [DHCP_OPT_SERVER_IDENTIFIER; 4] ++ ip_bytes server
                 ++ request_options_tail s).
Proof.
  intros _ Hs Hacc m offered server.
  unfold DhcpStateMachine. rewrite Hs, Hacc.
  rewrite process_dhcp_offer_walk. fold m. fold offered. fold server.
  rewrite send_dhcp_message_eq.
  set (s1 := set_dhcpip server s).
  set (opts := request_options s1 (Some offered)).
  set (h := request_header s1).
  assert (Hptr : bufPtr h = UDP_DATA_P + sizeof_DHCPdata) by reflexivity.
  pose proof (sent_payload opts h Hptr) as Hpay.
  pose proof (request_header_trace s1) as Htr. fold h in Htr.
  change (dhcpState s1) with (dhcpState s) in Htr.
  rewrite Hs in Htr. cbn [DhcpState_eqb] in Htr.
  change (trace s1) with (trace s) in Htr.
  assert (Hf : dhcpip h = server /\ myip h = myip s
               /\ currentXid h = currentXid s) by (repeat split).
  destruct Hf as (F1 & F2 & F3).
  clearbody h.
  exists (set_stateTimer (u32 (millis 0%nat))
            (set_dhcpState DHCP_STATE_REQUESTING
               (udpTransmit (sizeof_DHCPdata + Z.of_nat (length opts))
                  (emit_bytes opts h)))),
    (sizeof_DHCPdata + Z.of_nat (length opts)),
    (peeks (gPB h) UDP_DATA_P (Z.to_nat sizeof_DHCPdata) ++ map u8 opts).
  split; [reflexivity|].
  split; [reflexivity|].
  split; [reflexivity|].
  split; [exact F1|].
  split; [exact F2|].
  split; [exact F3|].
  split.
  { change (trace (set_stateTimer ?a (set_dhcpState ?b ?x))) with (trace x).
    rewrite udpTransmit_trace, Hpay.
    change (trace (emit_bytes opts h)) with (trace h).
    rewrite Htr. reflexivity. }
  rewrite payload_options_sent. subst opts.
  unfold request_options, requested_address.
  rewrite <- !app_assoc. reflexivity.
Qed.


(** X3: with a host name that holds its NUL, a tick in INIT takes the
    clock as the new transaction id, zeroes [myip], broadcasts one message
    whose options are those of a message that requests no address,
    beginning with the cookie and Message Type DISCOVER, and ends in
    SELECTING with the timer set by a second reading of the clock. *)
Theorem init_sends_discover (millis : nat -> Z) (len : Z) (s : State) :
  terminated (hostname s) = true ->
  dhcpState s = DHCP_STATE_INIT ->
  exists (s' : State) (n : Z) (payload : list Z),
    DhcpStateMachine millis len s = Ok s'
    /\ dhcpState s' = DHCP_STATE_SELECTING
    /\ currentXid s' = u32 (millis 0%nat)
    /\ stateTimer s' = u32 (millis 1%nat)
    /\ myip s' = ip_zero
    /\ dhcpip s' = dhcpip s
    /\ trace s'
       = EvUdpTransmit n payload
         :: EvUdpPrepare DHCP_CLIENT_PORT allOnes_ip DHCP_SERVER_PORT
         :: trace s
    /\ payload_options payload
       = map u8 (request_options_head s ++ request_options_tail s)
    /\ firstn 7 (payload_options payload)
       = cookie ++ [DHCP_OPT_MESSAGE_TYPE; 1; DHCP_DISCOVER].
Proof.
  intros _ Hs.
  unfold DhcpStateMachine. rewrite Hs.
  rewrite send_dhcp_message_eq.
  set (s1 := set_myip ip_zero (set_currentXid (u32 (millis 0%nat)) s)).
  set (opts := request_options s1 None).
  set (h := request_header s1).
  assert (Hptr : bufPtr h = UDP_DATA_P + sizeof_DHCPdata) by reflexivity.
  pose proof (sent_payload opts h Hptr) as Hpay.
  pose proof (request_header_trace s1) as Htr. fold h in Htr.
  change (dhcpState s1) with (dhcpState s) in Htr.
  rewrite Hs in Htr. cbn [DhcpState_eqb] in Htr.
  change (trace s1) with (trace s) in Htr.
  assert (Hf : dhcpip h = dhcpip s /\ myip h = ip_zero
               /\ currentXid h = u32 (millis 0%nat)) by (repeat split).
  destruct Hf as (F1 & F2 & F3).
  clearbody h.
  exists (set_stateTimer (u32 (millis 1%nat))
            (set_dhcpState DHCP_STATE_SELECTING
               (udpTransmit (sizeof_DHCPdata + Z.of_nat (length opts))
                  (emit_bytes opts h)))),
    (sizeof_DHCPdata + Z.of_nat (length opts)),
    (peeks (gPB h) UDP_DATA_P (Z.to_nat sizeof_DHCPdata) ++ map u8 opts).
  split; [reflexivity|].
  split; [reflexivity|].
  split; [exact F3|].
  split; [reflexivity|].
  split; [exact F2|].
  split; [exact F1|].
  split.
  { change (trace (set_stateTimer ?a (set_dhcpState ?b ?x))) with (trace x).
    rewrite udpTransmit_trace, Hpay.
    change (trace (emit_bytes opts h)) with (trace h).
    rewrite Htr. reflexivity. }
  rewrite payload_options_sent. subst opts.
  unfold request_options, requested_address. cbn [app].
  split; [reflexivity|].
  unfold request_options_head.
  change (dhcpState s1) with (dhcpState s). rewrite Hs. reflexivity.
Qed.

(** X4: in BOUND, while less than [leaseTime] has passed since
    [leaseStart] (modulo 2^32), a tick does nothing at all, whatever frame
    is in the buffer. *)
Theorem bound_before_expiry_is_idle (millis : nat -> Z) (len : Z) (s : State) :
  dhcpState s = DHCP_STATE_BOUND ->
  sub32 (u32 (millis 0%nat)) (leaseStart s) < leaseTime s ->
  DhcpStateMachine millis len s = Ok s.
Proof.
  intros Hs Hlt. unfold DhcpStateMachine. rewrite Hs.
  apply Z.leb_gt in Hlt. rewrite Hlt, andb_false_r. reflexivity.
Qed.

(** X5: in REQUESTING or RENEWING, a tick whose frame is not accepted as
    an ACK leaves the state as it is up to and including 10000 ms after
    [stateTimer], and falls back to INIT, changing nothing else, once more
    than 10000 ms have passed. *)
Theorem requesting_timeout (millis : nat -> Z) (len : Z) (s : State) :
  dhcpState s = DHCP_STATE_REQUESTING \/ dhcpState s = DHCP_STATE_RENEWING ->
  dhcp_received_message_type len DHCP_ACK s = false ->
  (sub32 (u32 (millis 0%nat)) (stateTimer s) <= 10000 ->
   DhcpStateMachine millis len s = Ok s)
  /\ (10000 < sub32 (u32 (millis 0%nat)) (stateTimer s) ->
      DhcpStateMachine millis len s = Ok (set_dhcpState DHCP_STATE_INIT s)).
Proof.
  intros Hs Hr.
  rewrite (rejected_tick millis len s) by (right; auto).
  unfold timeout_tick, DHCP_REQUEST_TIMEOUT. split.
  - intros Hle. apply Z.ltb_ge in Hle. now rewrite Hle.
  - intros Hlt. apply Z.ltb_lt in Hlt. now rewrite Hlt.
Qed.

(** X6: after [dhcpRelease], every run of the caller's loop, whatever the
    clocks, the frames received into the buffer and the lengths, returns
    normally and changes nothing but the contents of the buffer, which are
    those of the last frame received: the state is and stays what
    [dhcpRelease] left, and nothing is sent. *)
Theorem released_absorbs_ticks (l : list ((nat -> Z) * buffer * Z))
  (s : State) :
  ticks l (dhcpRelease s)
  = Ok (set_gPB (last_frame l (gPB (dhcpRelease s))) (dhcpRelease s)).
Proof.
  assert (H : dhcpState (dhcpRelease s) = DHCP_STATE_RELEASED).
  { rewrite dhcpRelease_eq. reflexivity. }
  revert H. generalize (dhcpRelease s). intros r H.
  induction l as [|[[millis frame] len] l IH] in r, H |- *;
    cbn [ticks last_frame fold_left].
  - destruct r. reflexivity.
  - unfold DhcpStateMachine at 1.
    change (dhcpState (set_gPB frame r)) with (dhcpState r).
    rewrite H. cbn [bind].
    rewrite (IH (set_gPB frame r) H).
    cbn [fst snd]. unfold last_frame. destruct r. reflexivity.
Qed.

(** ** What no tick changes *)

Lemma send_dhcp_message_settings (requestip : option ip4) (s : State) :
  settings (send_dhcp_message requestip s) = settings s.
Proof. rewrite send_dhcp_message_eq. reflexivity. Qed.

Lemma settings_after_transition (t : Z) (st : DhcpState) (x : State) :
  settings (set_stateTimer t (set_dhcpState st x)) = settings x.
Proof. reflexivity. Qed.

Lemma tick_settings (millis : nat -> Z) (len : Z) (s s' : State) :
  DhcpStateMachine millis len s = Ok s' ->
  settings s' = settings s.
Proof.
  assert (Hack : (dhcpState s = DHCP_STATE_REQUESTING
                  \/ dhcpState s = DHCP_STATE_RENEWING) ->
                 DhcpStateMachine millis len s = Ok s' ->
                 settings s' = settings s).
  { intros Hs. unfold DhcpStateMachine.
    destruct (dhcp_received_message_type len DHCP_ACK s).
    - destruct (dhcpCustomOptionCallback s) as [fn|] eqn:Hcb.
      + rewrite (process_dhcp_ack_ok fn) by exact Hcb.
        destruct Hs as [Hs | Hs]; rewrite Hs; cbn [bind];
          intros H; injection H as <-;
          match goal with
          | |- context [fold_left ?f ?o ?x] =>
            destruct (fold_ack_effect_rest fn o x)
              as (_ & _ & _ & _ & _ & _ & E)
          end;
          destruct (ip_first _ =? 0); cbn; exact E.
      + rewrite (ack_without_callback_null len s Hcb).
        destruct Hs as [Hs | Hs]; rewrite Hs; discriminate.
    - destruct Hs as [Hs | Hs]; rewrite Hs;
        destruct (_ <? _); intros H; injection H as <-; reflexivity. }
  destruct (dhcpState s) eqn:Hs; try (apply Hack; auto; fail); clear Hack;
    unfold DhcpStateMachine; rewrite Hs.
  - intros H. injection H as <-.
    rewrite settings_after_transition, send_dhcp_message_settings.
    reflexivity.
  - destruct (dhcp_received_message_type len DHCP_OFFER s).
    + rewrite process_dhcp_offer_walk. intros H. injection H as <-.
      rewrite settings_after_transition, send_dhcp_message_settings.
      reflexivity.
    + destruct (_ <? _); intros H; injection H as <-; reflexivity.
  - destruct (_ && _).
    + intros H. injection H as <-.
      rewrite settings_after_transition, send_dhcp_message_settings.
      reflexivity.
    + intros H; injection H as <-; reflexivity.
  - intros H; injection H as <-; reflexivity.
  - intros H; injection H as <-; reflexivity.
Qed.


(** ** The frames that are accepted *)

(** X7: [dhcp_received_message_type] accepts a frame exactly when [len] is
    at least 70, the low octet of the UDP source port is 67, the
    transaction id is the current one, and one of the options the walk
    visits is a Message Type option with the wanted type as its first
    value octet. *)
Theorem frame_accepted_iff (len msgType : Z) (s : State) :
  dhcp_received_message_type len msgType s = true
  <-> 70 <= len
      /\ peek (gPB s) UDP_SRC_PORT_L_P = DHCP_SERVER_PORT
      /\ peek32 (gPB s) (UDP_DATA_P + DHCPdata_xid) = currentXid s
      /\ exists o, In o (frame_options (gPB s) len)
                   /\ is_message_type (gPB s) msgType o = true.
Proof.
  unfold dhcp_received_message_type, frame_options.
  rewrite message_type_scan_walk, <- existsb_exists.
  destruct (Z.leb_spec 70 len) as [H70 | H70];
    destruct (Z.eqb_spec (peek (gPB s) UDP_SRC_PORT_L_P) DHCP_SERVER_PORT)
      as [Hp | Hp];
    destruct (Z.eqb_spec (peek32 (gPB s) (UDP_DATA_P + DHCPdata_xid))
                (currentXid s)) as [Hx | Hx];
    cbn [andb]; split; try discriminate; try tauto; try lia.
Qed.

Lemma first_option_always_read (m : buffer) (len : Z) :
  exists rest,
    frame_options m len
    = (peek m first_option, first_option + 2, peek m (first_option + 1))
      :: rest.
Proof.
  unfold frame_options.
  destruct (Z.to_nat (len - first_option)); cbn; eexists; reflexivity.
Qed.

Lemma tlv_walk_starts (m : buffer) (len : Z) :
  forall (fuel : nat) (ptr : Z) (o : Z * Z * Z),
    In o (tl (tlv_walk fuel m len ptr)) ->
    ptr + 2 <= snd (fst o) - 2 < len.
Proof.
  induction fuel as [|fuel IH]; intros ptr o; cbn;
    pose proof (peek_range m (ptr + 1)) as Hlen;
    destruct (Z.ltb_spec (ptr + 2 + peek m (ptr + 1)) len) as [Hlt | Hge];
    cbn; try tauto.
  intros Hin.
  assert (Hc : o = (peek m (ptr + 2 + peek m (ptr + 1)),
                    ptr + 2 + peek m (ptr + 1) + 2,
                    peek m (ptr + 2 + peek m (ptr + 1) + 1))
               \/ In o (tl (tlv_walk fuel m len (ptr + 2 + peek m (ptr + 1))))).
  { destruct fuel; cbn in Hin |- *; destruct Hin as [<- | Hin]; auto. }
  destruct Hc as [-> | Hc]; cbn; [lia|].
  apply IH in Hc. lia.
Qed.

Lemma tlv_walk_length (m : buffer) (len : Z) :
  forall (fuel : nat) (ptr : Z),
    Z.of_nat (length (tlv_walk fuel m len ptr))
    <= 1 + Z.max 0 ((len - ptr - 1) / 2).
Proof.
  induction fuel as [|fuel IH]; intros ptr; cbn [tlv_walk length];
    pose proof (peek_range m (ptr + 1)) as Hlen;
    destruct (Z.ltb_spec (ptr + 2 + peek m (ptr + 1)) len) as [Hlt | Hge];
    cbn [length]; try lia.
  specialize (IH (ptr + 2 + peek m (ptr + 1))).
  rewrite Nat2Z.inj_succ.
  assert (Hd : (len - (ptr + 2 + peek m (ptr + 1)) - 1) / 2 + 1
               <= (len - ptr - 1) / 2).
  { replace ((len - (ptr + 2 + peek m (ptr + 1)) - 1) / 2 + 1)
      with ((len - (ptr + 2 + peek m (ptr + 1)) - 1 + 1 * 2) / 2)
      by (rewrite Z.div_add by lia; reflexivity).
    apply Z.div_le_mono; lia. }
  assert (0 <= (len - (ptr + 2 + peek m (ptr + 1)) - 1) / 2)
    by (apply Z.div_pos; lia).
  lia.
Qed.

(** X8: the walk over the options of a frame always reads the option at
    [first_option], even when [len] ends before it; it visits at most
    1 + max (0, (len - first_option - 1) / 2) options, so one option when
    [len] ends at or before [first_option + 2]; and every later option
    it visits starts before [len]. *)
Theorem option_walk_bounded (m : buffer) (len : Z) :
  (exists rest,
     frame_options m len
     = (peek m first_option, first_option + 2, peek m (first_option + 1))
       :: rest)
  /\ Z.of_nat (length (frame_options m len))
     <= 1 + Z.max 0 ((len - first_option - 1) / 2)
  /\ forall o, In o (tl (frame_options m len)) ->
               first_option + 2 <= snd (fst o) - 2 < len.
Proof.
  split; [apply first_option_always_read|].
  split; [apply tlv_walk_length | apply tlv_walk_starts].
Qed.

(** ** Options written and read back *)

Lemma u8_small (z : Z) : 0 <= z < 256 -> u8 z = z.
Proof. intros H. unfold u8. apply Z.mod_small. exact H. Qed.

Lemma u8_idem (z : Z) : u8 (u8 z) = u8 z.
Proof. unfold u8. apply Z.mod_mod. lia. Qed.

Lemma encode_tlvs_length_pos (o : Z * list Z) (l : list (Z * list Z)) :
  (2 <= length (encode_tlvs (o :: l)))%nat.
Proof. cbn. lia. Qed.

Lemma app_eq_length {A : Type} :
  forall (a c b d : list A),
    length a = length c -> a ++ b = c ++ d -> a = c /\ b = d.
Proof.
  induction a as [|x a IH]; intros [|y c] b d Hl H; cbn in *;
    try discriminate; [auto|].
  injection H as -> H. injection Hl as Hl.
  destruct (IH c b d Hl H) as [-> ->]. auto.
Qed.

(** Decoding what was encoded: the walk over a buffer that holds the
    encoding of [tlvs] from [ptr] to [len] gives [tlvs] back, octet for
    octet. *)
Lemma tlv_walk_encoded (m : buffer) :
  forall (tlvs : list (Z * list Z)) (ptr : Z) (fuel : nat),
    tlvs <> [] ->
    Forall (fun o => (length (snd o) < 256)%nat) tlvs ->
    peeks m ptr (length (encode_tlvs tlvs)) = map u8 (encode_tlvs tlvs) ->
    (length (encode_tlvs tlvs) <= fuel)%nat ->
    decode_options m
      (tlv_walk fuel m (ptr + Z.of_nat (length (encode_tlvs tlvs))) ptr)
    = map tlv_octets tlvs.
Proof.
  induction tlvs as [|[t v] rest IH]; intros ptr fuel Hne Hlen Hmem Hfuel;
    [congruence|].
  inversion Hlen as [|x y Hv Hrest]; subst x y. cbn [snd] in Hv.
  cbn [encode_tlvs flat_map encode_tlv fst snd] in Hmem, Hfuel |- *.
  fold (encode_tlvs rest) in Hmem, Hfuel |- *.
  cbn [app length peeks map] in Hmem.
  injection Hmem as Ht Hl Hmem.
  rewrite length_app in Hmem, Hfuel |- *.
  rewrite peeks_app, map_app in Hmem.
  apply app_eq_length in Hmem;
    [|rewrite peeks_length, length_map; reflexivity].
  destruct Hmem as [Hvmem Hrmem].
  rewrite u8_small in Hl by lia.
  change (length (encode_tlv (t, v))) with (S (S (length v))) in Hfuel |- *.
  destruct fuel as [|fuel]; [lia|].
  cbn [tlv_walk decode_options map fst snd].
  rewrite Ht, Hl, Nat2Z.id.
  replace (ptr + 2) with (ptr + 1 + 1) by lia.
  rewrite Hvmem. unfold tlv_octets at 2. cbn [fst snd]. f_equal.
  destruct rest as [|o rest].
  - cbn [encode_tlvs flat_map length map].
    destruct (Z.ltb_spec (ptr + 1 + 1 + Z.of_nat (length v))
                (ptr + Z.of_nat (S (S (length v)) + 0))) as [H | H];
      [lia | reflexivity].
  - pose proof (encode_tlvs_length_pos o rest) as Hpos.
    destruct (Z.ltb_spec (ptr + 1 + 1 + Z.of_nat (length v))
                (ptr + Z.of_nat (S (S (length v)) + length (encode_tlvs (o :: rest)))))
      as [H | H]; [|lia].
    replace (ptr + Z.of_nat (S (S (length v)) + length (encode_tlvs (o :: rest))))
      with (ptr + 1 + 1 + Z.of_nat (length v)
            + Z.of_nat (length (encode_tlvs (o :: rest)))) by lia.
    apply IH; [discriminate | exact Hrest | exact Hrmem |].
    lia.
Qed.


Lemma request_options_encoded (s : State) (requestip : option ip4) :
  map u8 (request_options s requestip)
  = map u8 (cookie ++ encode_tlvs (request_tlvs s requestip))
  /\ length (request_options s requestip)
     = length (cookie ++ encode_tlvs (request_tlvs s requestip)).
Proof.
  unfold request_options, request_options_head, requested_address,
    request_options_tail, request_tlvs, encode_tlvs.
  rewrite !flat_map_app.
  assert (Hh : Z.of_nat (Z.to_nat (u8 (strlen (hostname s))))
               = u8 (strlen (hostname s))).
  { apply Z2Nat.id. apply Z.mod_pos_bound. lia. }
  destruct (hd 0 (hostname s) =? 0);
    destruct requestip as [ip|];
    destruct (dhcpCustomOptionNum s =? 0);
    unfold encode_tlv; cbn [flat_map fst snd];
    rewrite ?app_nil_r; repeat rewrite <- app_assoc; cbn [app];
    (split;
     [ repeat (rewrite map_app; cbn [map app]); cbn [map length];
       rewrite <- ?app_assoc; cbn [app];
       rewrite ?length_app, ?take_bytes_length, ?ip_bytes_length, ?Hh, ?u8_idem;
       reflexivity
     | repeat (rewrite length_app; cbn [length]);
       rewrite ?take_bytes_length, ?ip_bytes_length; lia ]).
Qed.

Lemma request_tlvs_short (s : State) (requestip : option ip4) :
  Forall (fun o => (length (snd o) < 256)%nat) (request_tlvs s requestip).
Proof.
  unfold request_tlvs.
  assert (Hh : (Z.to_nat (u8 (strlen (hostname s))) < 256)%nat).
  { pose proof (Z.mod_pos_bound (strlen (hostname s)) 256 ltac:(lia)).
    unfold u8. lia. }
  destruct (hd 0 (hostname s) =? 0);
    destruct requestip as [ip|];
    destruct (dhcpCustomOptionNum s =? 0);
    cbn [app]; repeat (apply Forall_cons || apply Forall_nil);
    cbn [snd length app];
    rewrite ?length_app, ?take_bytes_length, ?ip_bytes_length;
    cbn [length]; lia.
Qed.

Lemma request_tlvs_tags (s : State) (requestip : option ip4) :
  Forall (fun o => fst o <> DHCP_OPT_END)
    (map tlv_octets (request_tlvs s requestip)).
Proof.
  unfold request_tlvs.
  destruct (hd 0 (hostname s) =? 0);
    destruct requestip as [ip|];
    destruct (dhcpCustomOptionNum s =? 0);
    cbn [app map]; repeat (apply Forall_cons || apply Forall_nil);
    cbn [tlv_octets fst]; intros H; vm_compute in H; discriminate.
Qed.

(** X9: for a host name that holds its NUL, what [send_dhcp_message] hands
    to [udpTransmit] is its own length and buffer, the cookie lies right
    after the [DHCPdata], and the walk of [dhcp.cpp] over that buffer
    reads back exactly the options written, tag by tag and value by value.  The End octet is read as the last
    value octet of the parameter request list (whose length octet counts
    one more than the codes written), so the walk meets no End option. *)
Theorem request_decodes_to_its_options (requestip : option ip4) (s : State) :
  terminated (hostname s) = true ->
  let before := emit_bytes (request_options s requestip) (request_header s) in
  send_dhcp_message requestip s
  = udpTransmit (bufPtr before - UDP_DATA_P) before
  /\ peeks (gPB before) (UDP_DATA_P + sizeof_DHCPdata) 4 = cookie
  /\ decode_options (gPB before) (frame_options (gPB before) (bufPtr before))
     = map tlv_octets (request_tlvs s requestip)
  /\ Forall (fun o => fst o <> DHCP_OPT_END)
       (decode_options (gPB before)
          (frame_options (gPB before) (bufPtr before))).
Proof.
  intros _ before.
  set (opts := request_options s requestip) in *.
  set (tlvs := request_tlvs s requestip).
  set (h := request_header s) in *.
  assert (Hptr : bufPtr h = UDP_DATA_P + sizeof_DHCPdata) by reflexivity.
  assert (Hbp : bufPtr before
                = UDP_DATA_P + sizeof_DHCPdata + Z.of_nat (length opts)).
  { unfold before. change (bufPtr (emit_bytes opts h))
      with (bufPtr h + Z.of_nat (length opts)). rewrite Hptr. reflexivity. }
  assert (Hmem : peeks (gPB before) (UDP_DATA_P + sizeof_DHCPdata)
                   (length opts) = map u8 opts).
  { unfold before.
    change (gPB (emit_bytes opts h)) with (pokes (gPB h) (bufPtr h) opts).
    rewrite Hptr. apply peeks_pokes. }
  assert (Hsend : send_dhcp_message requestip s
                  = udpTransmit (bufPtr before - UDP_DATA_P) before).
  { rewrite send_dhcp_message_eq. fold opts. fold h. fold before.
    f_equal. rewrite Hbp. lia. }
  destruct (request_options_encoded s requestip) as (Henc & Hlen).
  fold opts in Henc, Hlen. fold tlvs in Henc, Hlen.
  rewrite Henc, Hlen in Hmem. rewrite Hlen in Hbp.
  rewrite length_app in Hmem, Hbp. rewrite peeks_app, map_app in Hmem.
  apply app_eq_length in Hmem;
    [|rewrite peeks_length, length_map; reflexivity].
  destruct Hmem as [Hcookie Htl].
  clearbody h before.
  assert (Hdec : decode_options (gPB before)
                   (frame_options (gPB before) (bufPtr before))
                 = map tlv_octets tlvs).
  { unfold frame_options, first_option. rewrite Hbp.
    change (length cookie) with 4%nat in *.
    replace (UDP_DATA_P + sizeof_DHCPdata
             + Z.of_nat (4 + length (encode_tlvs tlvs)))
      with (UDP_DATA_P + sizeof_DHCPdata + 4
            + Z.of_nat (length (encode_tlvs tlvs))) by lia.
    apply tlv_walk_encoded.
    - discriminate.
    - apply request_tlvs_short.
    - exact Htl.
    - lia. }
  split; [exact Hsend|].
  split; [exact Hcookie|].
  split; [exact Hdec|].
  rewrite Hdec. apply request_tlvs_tags.
Qed.

Lemma le32_octets (v : Z) :
  le32 (map u8 [v; Z.shiftr v 8; Z.shiftr v 16; Z.shiftr v 24]) = u32 v.
Proof.
  cbn [map le32]. unfold u8, u32.
  rewrite !Z.shiftr_div_pow2 by lia.
  change (2 ^ 8) with 256. change (2 ^ 16) with 65536.
  change (2 ^ 24) with 16777216.
  pose proof (Z.div_mod v 256 ltac:(lia)) as H0.
  pose proof (Z.mod_pos_bound v 256 ltac:(lia)) as B0.
  pose proof (Z.div_mod (v / 256) 256 ltac:(lia)) as H1.
  pose proof (Z.mod_pos_bound (v / 256) 256 ltac:(lia)) as B1.
  pose proof (Z.div_mod (v / 256 / 256) 256 ltac:(lia)) as H2.
  pose proof (Z.mod_pos_bound (v / 256 / 256) 256 ltac:(lia)) as B2.
  pose proof (Z.div_mod (v / 256 / 256 / 256) 256 ltac:(lia)) as H3.
  pose proof (Z.mod_pos_bound (v / 256 / 256 / 256) 256 ltac:(lia)) as B3.
  replace (v / 65536) with (v / 256 / 256)
    by (rewrite Z.div_div by lia; reflexivity).
  replace (v / 16777216) with (v / 256 / 256 / 256)
    by (rewrite !Z.div_div by lia; reflexivity).
  apply Z.mod_unique_pos with (q := v / 256 / 256 / 256 / 256); lia.
Qed.

Lemma peek32_peeks (m : buffer) (p : Z) : peek32 m p = le32 (peeks m p 4).
Proof.
  unfold peek32. cbn [peeks le32].
  replace (p + 1 + 1) with (p + 2) by lia.
  replace (p + 2 + 1) with (p + 3) by lia. reflexivity.
Qed.

(** What is written is read back: the transaction id survives the trip
    through the buffer, reduced to 32 bits. *)
Lemma peek32_poke32 (m : buffer) (p v : Z) : peek32 (poke32 m p v) p = u32 v.
Proof.
  rewrite peek32_peeks. unfold poke32.
  change 4%nat with (length [v; Z.shiftr v 8; Z.shiftr v 16; Z.shiftr v 24]).
  rewrite peeks_pokes. apply le32_octets.
Qed.

Lemma peeks_poke_out (n : nat) (m : buffer) (p v q : Z) :
  p < q \/ q + Z.of_nat n <= p ->
  peeks (poke m p v) q n = peeks m q n.
Proof.
  intros H. change (poke m p v) with (pokes m p [v]).
  apply peeks_pokes_out. cbn [length]. lia.
Qed.

Lemma request_header_octets (s : State) :
  peeks (gPB (request_header s)) UDP_DATA_P 3
  = [DHCP_BOOTP_REQUEST; 1; 6]
  /\ peeks (gPB (request_header s)) (UDP_DATA_P + 4) 4
     = map u8 [currentXid s; Z.shiftr (currentXid s) 8;
               Z.shiftr (currentXid s) 16; Z.shiftr (currentXid s) 24]
  /\ peeks (gPB (request_header s)) (UDP_DATA_P + 28) 6
     = map u8 (take_bytes 6 (mymac s)).
Proof.
  unfold request_header. cbv beta zeta. cbn [gPB set_bufPtr set_gPB].
  unfold DHCPdata_chaddr, DHCPdata_ciaddr, DHCPdata_xid, DHCPdata_hlen,
    DHCPdata_htype, DHCPdata_op.
  split; [|split].
  - unfold poke_mac at 1.
    rewrite peeks_pokes_out by (left; lia).
    assert (Hci : forall m a,
               peeks (poke_ip m (UDP_DATA_P + 12) a) UDP_DATA_P 3
               = peeks m UDP_DATA_P 3).
    { intros m a. unfold poke_ip. apply peeks_pokes_out. left. lia. }
    destruct (DhcpState_eqb _ _); rewrite ?Hci;
      unfold poke32;
      rewrite peeks_pokes_out by (left; lia);
      cbn [peeks];
      rewrite !peek_poke;
      repeat match goal with
      | |- context [?a =? ?b] =>
        destruct (Z.eqb_spec a b); try lia
      end; reflexivity.
  - unfold poke_mac at 1.
    rewrite peeks_pokes_out by (left; lia).
    assert (Hci : forall m a,
               peeks (poke_ip m (UDP_DATA_P + 12) a) (UDP_DATA_P + 4) 4
               = peeks m (UDP_DATA_P + 4) 4).
    { intros m a. unfold poke_ip. apply peeks_pokes_out. left. lia. }
    destruct (DhcpState_eqb _ _); rewrite ?Hci; unfold poke32;
      apply (peeks_pokes [currentXid s; Z.shiftr (currentXid s) 8;
                          Z.shiftr (currentXid s) 16;
                          Z.shiftr (currentXid s) 24]).
  - unfold poke_mac at 1. change (Z.to_nat ETH_LEN) with 6%nat.
    rewrite <- (take_bytes_length 6 (mymac s)) at 1. apply peeks_pokes.
Qed.

(** ** Hexadecimal digits *)

Lemma land_15 (c : Z) : Z.land c 15 = c mod 16.
Proof. change 15 with (Z.ones 4). apply Z.land_ones. lia. Qed.

Lemma shiftr_4 (c : Z) : Z.shiftr c 4 = c / 16.
Proof. apply Z.shiftr_div_pow2. lia. Qed.

(** X14: [int2h] stores two hexadecimal digits and a NUL, and [h2int] of
    the two digits gives back the low eight bits of the character. *)
Theorem int2h_h2int (c : Z) :
  16 * h2int (nth 0 (int2h c) 0) + h2int (nth 1 (int2h c) 0) = c mod 256
  /\ nth 2 (int2h c) 0 = 0
  /\ length (int2h c) = 3%nat.
Proof.
  unfold int2h. cbv zeta. cbn [nth length].
  rewrite !land_15, shiftr_4.
  pose proof (Z.mod_pos_bound c 16 ltac:(lia)) as B0.
  pose proof (Z.mod_pos_bound (c / 16) 16 ltac:(lia)) as B1.
  pose proof (Z.div_mod c 16 ltac:(lia)) as H0.
  pose proof (Z.div_mod (c / 16) 16 ltac:(lia)) as H1.
  set (lo := c mod 16) in *. set (hi := (c / 16) mod 16) in *.
  assert (Hd : forall n, 0 <= n < 16 ->
               h2int (if 9 <? n then n - 10 + 97 else n + 48) = n).
  { intros n Hn. unfold h2int, u8.
    destruct (Z.ltb_spec 9 n).
    - replace ((48 <=? n - 10 + 97) && (n - 10 + 97 <=? 57)) with false
        by (symmetry; apply andb_false_iff; right; apply Z.leb_gt; lia).
      replace ((97 <=? n - 10 + 97) && (n - 10 + 97 <=? 102)) with true
        by (symmetry; apply andb_true_iff; split; apply Z.leb_le; lia).
      rewrite Z.mod_small by lia. lia.
    - replace ((48 <=? n + 48) && (n + 48 <=? 57)) with true
        by (symmetry; apply andb_true_iff; split; apply Z.leb_le; lia).
      rewrite Z.mod_small by lia. lia. }
  rewrite (Hd hi), (Hd lo) by assumption.
  repeat split.
  apply Z.mod_unique_pos with (q := c / 16 / 16); lia.
Qed.

Lemma h2int_toAsciiHex (b : Z) : h2int (toAsciiHex b) = b mod 16.
Proof.
  unfold toAsciiHex. cbv zeta. rewrite land_15.
  pose proof (Z.mod_pos_bound b 16 ltac:(lia)) as B.
  set (n := b mod 16) in *.
  unfold h2int, u8.
  destruct (Z.leb_spec n 9).
  - replace ((48 <=? n + 48) && (n + 48 <=? 57)) with true
      by (symmetry; apply andb_true_iff; split; apply Z.leb_le; lia).
    rewrite Z.mod_small by lia. lia.
  - replace ((48 <=? n + (65 - 10)) && (n + (65 - 10) <=? 57)) with false
      by (symmetry; apply andb_false_iff; right; apply Z.leb_gt; lia).
    replace ((97 <=? n + (65 - 10)) && (n + (65 - 10) <=? 102)) with false
      by (symmetry; apply andb_false_iff; left; apply Z.leb_gt; lia).
    replace ((65 <=? n + (65 - 10)) && (n + (65 - 10) <=? 70)) with true
      by (symmetry; apply andb_true_iff; split; apply Z.leb_le; lia).
    rewrite Z.mod_small by lia. lia.
Qed.

(** X15: [toAsciiHex] yields a digit or an upper-case letter A-F, and
    [h2int] maps it back to the low four bits of its argument. *)
Theorem toAsciiHex_h2int (b : Z) :
  h2int (toAsciiHex b) = b mod 16
  /\ (48 <= toAsciiHex b <= 57 \/ 65 <= toAsciiHex b <= 70).
Proof.
  split; [apply h2int_toAsciiHex|].
  unfold toAsciiHex. cbv zeta. rewrite land_15.
  pose proof (Z.mod_pos_bound b 16 ltac:(lia)) as B.
  destruct (Z.leb_spec (b mod 16) 9); lia.
Qed.

(** ** The host name *)

Lemma strlen_range (a : list Z) : 0 <= strlen a <= Z.of_nat (length a).
Proof.
  induction a as [|c a IH]; cbn [strlen length]; [lia|].
  destruct (c =? 0); lia.
Qed.

(** An array holds a NUL exactly when [strlen] ends inside it. *)
Lemma terminated_strlen (a : list Z) :
  terminated a = true <-> strlen a < Z.of_nat (length a).
Proof.
  unfold terminated.
  induction a as [|c a IH]; cbn [existsb strlen length].
  - split; [discriminate | lia].
  - destruct (c =? 0); cbn [orb].
    + split; [lia | reflexivity].
    + rewrite IH. lia.
Qed.

Lemma store_at_length (v : Z) :
  forall (a : list Z) (i : nat), length (store_at a i v) = length a.
Proof.
  induction a as [|c a IH]; intros [|i]; cbn; auto.
Qed.

Lemma store_at_nth (v : Z) :
  forall (a : list Z) (i j : nat),
    (i < length a)%nat ->
    nth j (store_at a i v) 0 = if Nat.eqb j i then v else nth j a 0.
Proof.
  induction a as [|c a IH]; intros [|i] [|j] H; cbn in *; try lia;
    try reflexivity.
  apply IH. lia.
Qed.

Lemma store_at_strlen (v : Z) :
  v <> 0 ->
  forall (a : list Z) (i : nat),
    Z.of_nat i < strlen a -> strlen (store_at a i v) = strlen a.
Proof.
  intros Hv.
  induction a as [|c a IH]; intros i H; cbn [strlen] in H; [lia|].
  destruct (Z.eqb_spec c 0) as [Hc | Hc]; [lia|].
  destruct i as [|i]; cbn [store_at strlen].
  - apply Z.eqb_neq in Hv, Hc. rewrite Hv, Hc. reflexivity.
  - apply Z.eqb_neq in Hc. rewrite Hc. rewrite IH by lia. reflexivity.
Qed.

Lemma toAsciiHex_nonzero (b : Z) : toAsciiHex b <> 0.
Proof.
  unfold toAsciiHex. cbv zeta. rewrite land_15.
  pose proof (Z.mod_pos_bound b 16 ltac:(lia)).
  destruct (_ <=? _); lia.
Qed.

(** X16: on a host name that holds its NUL and has at least two
    characters, [dhcpSetup] without a host name overwrites the last two
    characters in place by the upper-case hexadecimal digits of
    [mymac[5]] and leaves every other character, the NUL and the length
    as they were; [h2int] of the two characters gives [mymac[5]] back. *)
Theorem dhcpSetup_default_hostname (fromRam : bool) (s : State) :
  terminated (hostname s) = true ->
  2 <= strlen (hostname s) ->
  let n := Z.to_nat (strlen (hostname s)) in
  let s' := snd (dhcpSetup None fromRam s) in
  let mac5 := nth 5 (mymac s) 0 in
  strlen (hostname s') = strlen (hostname s)
  /\ terminated (hostname s') = true
  /\ length (hostname s') = length (hostname s)
  /\ nth (n - 2) (hostname s') 0 = toAsciiHex (Z.shiftr mac5 4)
  /\ nth (n - 1) (hostname s') 0 = toAsciiHex mac5
  /\ (forall j, j <> (n - 2)%nat -> j <> (n - 1)%nat ->
      nth j (hostname s') 0 = nth j (hostname s) 0)
  /\ 16 * h2int (nth (n - 2) (hostname s') 0)
     + h2int (nth (n - 1) (hostname s') 0) = mac5 mod 256.
Proof.
  intros Ht H n s' mac5.
  pose proof (strlen_range (hostname s)) as Hr.
  assert (Hs' : hostname s'
                = store_at
                    (store_at (hostname s) (n - 2)
                       (toAsciiHex (Z.shiftr mac5 4)))
                    (n - 1) (toAsciiHex mac5)).
  { unfold s', dhcpSetup. cbn [snd hostname set_hostname set_using_dhcp
                               set_dhcpState mymac].
    unfold store.
    assert (E1 : strlen (store_at (hostname s)
                           (Z.to_nat (strlen (hostname s) - 2))
                           (toAsciiHex (Z.shiftr mac5 4)))
                 = strlen (hostname s)).
    { apply store_at_strlen; [apply toAsciiHex_nonzero | lia]. }
    fold mac5.
    destruct (Z.ltb_spec (strlen (hostname s) - 2) 0); [lia|].
    rewrite E1.
    destruct (Z.ltb_spec (strlen (hostname s) - 1) 0); [lia|].
    replace (Z.to_nat (strlen (hostname s) - 2)) with (n - 2)%nat by lia.
    replace (Z.to_nat (strlen (hostname s) - 1)) with (n - 1)%nat by lia.
    reflexivity. }
  rewrite Hs'.
  assert (Hn2 : (n - 2 < length (hostname s))%nat) by lia.
  assert (Hn1 : (n - 1 < length (store_at (hostname s) (n - 2)
                                   (toAsciiHex (Z.shiftr mac5 4))))%nat)
    by (rewrite store_at_length; lia).
  assert (A : nth (n - 2)
                (store_at (store_at (hostname s) (n - 2)
                             (toAsciiHex (Z.shiftr mac5 4)))
                   (n - 1) (toAsciiHex mac5)) 0
              = toAsciiHex (Z.shiftr mac5 4)).
  { rewrite store_at_nth by exact Hn1.
    replace (Nat.eqb (n - 2) (n - 1)) with false
      by (symmetry; apply Nat.eqb_neq; lia).
    rewrite store_at_nth by exact Hn2. now rewrite Nat.eqb_refl. }
  assert (B : nth (n - 1)
                (store_at (store_at (hostname s) (n - 2)
                             (toAsciiHex (Z.shiftr mac5 4)))
                   (n - 1) (toAsciiHex mac5)) 0
              = toAsciiHex mac5).
  { rewrite store_at_nth by exact Hn1. now rewrite Nat.eqb_refl. }
  assert (Hstr : strlen
                   (store_at (store_at (hostname s) (n - 2)
                                (toAsciiHex (Z.shiftr mac5 4)))
                      (n - 1) (toAsciiHex mac5))
                 = strlen (hostname s)).
  { rewrite !store_at_strlen;
      try apply toAsciiHex_nonzero; try reflexivity; try lia.
    rewrite store_at_strlen; [lia | apply toAsciiHex_nonzero | lia]. }
  split; [exact Hstr|].
  split.
  { apply terminated_strlen. rewrite Hstr, !store_at_length.
    apply terminated_strlen. exact Ht. }
  split; [rewrite !store_at_length; reflexivity|].
  split; [exact A|]. split; [exact B|].
  split.
  { intros j J2 J1.
    rewrite store_at_nth by exact Hn1.
    apply Nat.eqb_neq in J1. rewrite J1.
    rewrite store_at_nth by exact Hn2.
    apply Nat.eqb_neq in J2. now rewrite J2. }
  rewrite A, B.
  rewrite !h2int_toAsciiHex, shiftr_4.
  pose proof (Z.mod_pos_bound mac5 16 ltac:(lia)) as B0.
  pose proof (Z.mod_pos_bound (mac5 / 16) 16 ltac:(lia)) as B1.
  pose proof (Z.div_mod mac5 16 ltac:(lia)) as H0.
  pose proof (Z.div_mod (mac5 / 16) 16 ltac:(lia)) as H1.
  apply Z.mod_unique_pos with (q := mac5 / 16 / 16); lia.
Qed.


Lemma strncpy_nil (n : nat) : strncpy [] n = repeat 0 n.
Proof. induction n; cbn; congruence. Qed.

Lemma strncpy_length (n : nat) :
  forall src : list Z, length (strncpy src n) = n.
Proof.
  induction n as [|n IH]; intros [|c src]; cbn; auto.
  destruct (c =? 0); cbn; auto.
Qed.

Lemma strncpy_short (n : nat) :
  forall src : list Z,
    strlen src < Z.of_nat n ->
    strncpy src n
    = firstn (Z.to_nat (strlen src)) src
      ++ repeat 0 (n - Z.to_nat (strlen src)).
Proof.
  induction n as [|n IH]; intros src H.
  - pose proof (strlen_range src). lia.
  - destruct src as [|c src]; cbn [strncpy strlen].
    + cbn. rewrite strncpy_nil. reflexivity.
    + cbn [strlen] in H. destruct (Z.eqb_spec c 0) as [Hc | Hc].
      * cbn. rewrite strncpy_nil. reflexivity.
      * pose proof (strlen_range src).
        replace (Z.to_nat (1 + strlen src)) with (S (Z.to_nat (strlen src)))
          by lia.
        cbn [firstn app Nat.sub]. rewrite IH by lia. reflexivity.
Qed.

Lemma strncpy_long (n : nat) :
  forall src : list Z,
    Z.of_nat n <= strlen src ->
    strncpy src n = firstn n src
    /\ Forall (fun c => c <> 0) (strncpy src n).
Proof.
  induction n as [|n IH]; intros src H; [cbn; auto|].
  destruct src as [|c src]; cbn [strlen] in H; [lia|].
  destruct (Z.eqb_spec c 0) as [Hc | Hc]; [lia|].
  cbn [strncpy firstn]. apply Z.eqb_neq in Hc. rewrite Hc.
  destruct (IH src ltac:(lia)) as (E & F).
  rewrite E in *. split; [reflexivity|].
  constructor; [now apply Z.eqb_neq | exact F].
Qed.

Lemma strlen_terminated (a : list Z) (k : nat) :
  Forall (fun c => c <> 0) a -> strlen (a ++ repeat 0 (S k)) = Z.of_nat (length a).
Proof.
  induction 1 as [|c a Hc _ IH]; cbn [app strlen length].
  - reflexivity.
  - apply Z.eqb_neq in Hc. rewrite Hc, IH. lia.
Qed.

Lemma firstn_strlen_nonzero :
  forall a : list Z,
    Forall (fun c => c <> 0) (firstn (Z.to_nat (strlen a)) a)
    /\ length (firstn (Z.to_nat (strlen a)) a) = Z.to_nat (strlen a).
Proof.
  induction a as [|c a IH]; cbn [strlen]; [cbn; auto|].
  destruct (Z.eqb_spec c 0) as [Hc | Hc]; [cbn; auto|].
  pose proof (strlen_range a).
  replace (Z.to_nat (1 + strlen a)) with (S (Z.to_nat (strlen a))) by lia.
  cbn [firstn length]. destruct IH as (F & L).
  split; [constructor; assumption | congruence].
Qed.

(** X17: [dhcpSetup] with a host name fills the 32 characters of
    [hostname]: a name shorter than 32 is copied and padded with NULs; of
    a name of 32 characters or more the first 32 are copied and no NUL is
    stored, so the array is left without a terminator. *)
Theorem dhcpSetup_given_hostname (name : list Z) (fromRam : bool) (s : State) :
  let s' := snd (dhcpSetup (Some name) fromRam s) in
  length (hostname s') = 32%nat
  /\ (strlen name < 32 ->
      hostname s'
      = firstn (Z.to_nat (strlen name)) name
        ++ repeat 0 (32 - Z.to_nat (strlen name))
      /\ strlen (hostname s') = strlen name)
  /\ (32 <= strlen name ->
      hostname s' = firstn 32 name
      /\ Forall (fun c => c <> 0) (hostname s')).
Proof.
  intros s'.
  assert (E : hostname s' = strncpy name 32) by reflexivity.
  rewrite E. split; [apply strncpy_length|]. split.
  - intros H. rewrite (strncpy_short 32 name) by exact H.
    split; [reflexivity|].
    pose proof (strlen_range name).
    destruct (firstn_strlen_nonzero name) as (F & L).
    replace (32 - Z.to_nat (strlen name))%nat
      with (S (31 - Z.to_nat (strlen name))) by lia.
    rewrite strlen_terminated by exact F. lia.
  - intros H. apply (strncpy_long 32 name). exact H.
Qed.


(** ** Runs of ticks *)

Lemma tick_total (millis : nat -> Z) (fn : nat) (len : Z) (s : State) :
  dhcpCustomOptionCallback s = Some fn ->
  exists s', DhcpStateMachine millis len s = Ok s'.
Proof.
  intros Hcb. unfold DhcpStateMachine.
  rewrite (process_dhcp_ack_ok fn) by exact Hcb. cbn [bind].
  destruct (dhcpState s);
    repeat match goal with
    | |- context [if ?c then _ else _] => destruct c
    | |- context [let '(_, _) := ?x in _] => destruct x
    end; eexists; reflexivity.
Qed.

Lemma settings_callback (s s' : State) :
  settings s' = settings s ->
  dhcpCustomOptionCallback s' = dhcpCustomOptionCallback s.
Proof. unfold settings. intros H. injection H. auto. Qed.

Lemma settings_set_gPB (m : buffer) (s : State) :
  settings (set_gPB m s) = settings s.
Proof. reflexivity. Qed.

(** X12: with a host name that holds its NUL, no run of the caller's loop
    that returns, whatever the clocks, the frames received and the
    lengths, changes the MAC address, the host name, the custom option
    number, the registered callback, [broadcastip], [hisip] or
    [using_dhcp]. *)
Theorem ticks_keep_settings (l : list ((nat -> Z) * buffer * Z)) :
  forall s s' : State,
    terminated (hostname s) = true ->
    ticks l s = Ok s' -> settings s' = settings s.
Proof.
  induction l as [|[[millis frame] len] l IH]; intros s s' Ht; cbn [ticks].
  - intros H. injection H as <-. reflexivity.
  - destruct (DhcpStateMachine millis len (set_gPB frame s)) as [s1|] eqn:E;
      cbn [bind]; [|discriminate].
    apply tick_settings in E. rewrite settings_set_gPB in E.
    intros H. rewrite (IH s1 s'); [exact E | | exact H].
    replace (hostname s1) with (hostname s); [exact Ht|].
    unfold settings in E. injection E. auto.
Qed.

(** X13: once a callback is registered, and with a host name that holds
    its NUL, every run of the caller's loop, whatever the clocks, the
    frames received and the lengths, returns normally, and the callback
    is still registered afterwards. *)
Theorem registered_callback_never_faults (l : list ((nat -> Z) * buffer * Z))
  (fn : nat) :
  forall s : State,
    terminated (hostname s) = true ->
    dhcpCustomOptionCallback s = Some fn ->
    exists s', ticks l s = Ok s' /\ dhcpCustomOptionCallback s' = Some fn.
Proof.
  induction l as [|[[millis frame] len] l IH]; intros s Ht Hcb; cbn [ticks].
  - eauto.
  - destruct (tick_total millis fn len (set_gPB frame s) Hcb) as (s1 & E).
    rewrite E. cbn [bind].
    pose proof (tick_settings millis len (set_gPB frame s) s1 E) as Hs.
    rewrite settings_set_gPB in Hs.
    apply IH.
    + replace (hostname s1) with (hostname s); [exact Ht|].
      unfold settings in Hs. injection Hs. auto.
    + rewrite (settings_callback s s1 Hs). exact Hcb.
Qed.

(** ** The message of [send_dhcp_message] *)

(** X10: for a host name that holds its NUL, [send_dhcp_message] prepares
    one UDP message from port 68 to port 67, to [dhcpip] in BOUND and to
    the broadcast address otherwise, and transmits sizeof(DHCPdata) octets
    plus the options: [op] is BOOTREQUEST, [htype] 1, [hlen] 6, [xid] is
    [currentXid] in the byte order of the machine (least significant
    octet first), [chaddr] begins with the MAC address, and the options
    are those of [request_options]. *)
Theorem request_message_format (requestip : option ip4) (s : State) :
  terminated (hostname s) = true ->
  exists (n : Z) (payload : list Z),
    trace (send_dhcp_message requestip s)
    = EvUdpTransmit n payload
      :: EvUdpPrepare DHCP_CLIENT_PORT
           (if DhcpState_eqb (dhcpState s) DHCP_STATE_BOUND
            then dhcpip s else allOnes_ip) DHCP_SERVER_PORT
      :: trace s
    /\ n = sizeof_DHCPdata + Z.of_nat (length (request_options s requestip))
    /\ Z.of_nat (length payload) = n
    /\ payload_op payload = [DHCP_BOOTP_REQUEST; 1; 6]
    /\ payload_xid payload = u32 (currentXid s)
    /\ payload_chaddr payload = map u8 (take_bytes 6 (mymac s))
    /\ payload_options payload = map u8 (request_options s requestip).
Proof.
  intros _.
  rewrite send_dhcp_message_eq.
  set (opts := request_options s requestip).
  set (h := request_header s).
  assert (Hptr : bufPtr h = UDP_DATA_P + sizeof_DHCPdata) by reflexivity.
  pose proof (sent_payload opts h Hptr) as Hpay.
  pose proof (request_header_trace s) as Htr. fold h in Htr.
  destruct (request_header_octets s) as (Hop & Hxid & Hmac).
  fold h in Hop, Hxid, Hmac.
  clearbody h.
  exists (sizeof_DHCPdata + Z.of_nat (length opts)),
    (peeks (gPB h) UDP_DATA_P (Z.to_nat sizeof_DHCPdata) ++ map u8 opts).
  split.
  { rewrite udpTransmit_trace, Hpay.
    change (trace (emit_bytes opts h)) with (trace h).
    rewrite Htr. reflexivity. }
  split; [reflexivity|].
  split.
  { rewrite length_app, peeks_length, length_map.
    unfold sizeof_DHCPdata. lia. }
  split.
  { unfold payload_op.
    change (firstn 3 ?l) with (firstn 3 (skipn 0 l)).
    change (Z.to_nat sizeof_DHCPdata) with (0 + 3 + 233)%nat.
    rewrite payload_field. change (Z.of_nat 0) with 0.
    rewrite Z.add_0_r. exact Hop. }
  split.
  { unfold payload_xid.
    change (Z.to_nat sizeof_DHCPdata) with (4 + 4 + 228)%nat.
    rewrite payload_field. change (Z.of_nat 4) with 4.
    rewrite Hxid. apply le32_octets. }
  split.
  { unfold payload_chaddr.
    change (Z.to_nat sizeof_DHCPdata) with (28 + 6 + 202)%nat.
    rewrite payload_field. exact Hmac. }
  apply payload_options_sent.
Qed.

Lemma request_options_length (requestip : option ip4) (s : State) :
  Z.of_nat (length (request_options s requestip))
  = 26
    + (if hd 0 (hostname s) =? 0 then 0 else 2 + u8 (strlen (hostname s)))
    + match requestip with Some _ => 12 | None => 0 end
    + (if dhcpCustomOptionNum s =? 0 then 0 else 1).
Proof.
  unfold request_options, request_options_head, requested_address,
    request_options_tail, cookie.
  assert (Hh : Z.of_nat (Z.to_nat (u8 (strlen (hostname s))))
               = u8 (strlen (hostname s))).
  { apply Z2Nat.id. apply Z.mod_pos_bound. lia. }
  destruct (hd 0 (hostname s) =? 0);
    destruct requestip as [ip|];
    destruct (dhcpCustomOptionNum s =? 0);
    repeat (rewrite length_app; cbn [length]);
    rewrite ?take_bytes_length, ?ip_bytes_length; lia.
Qed.

(** X11: for a host name that holds its NUL within the 32 characters of
    its array, the length [send_dhcp_message] transmits is 262 octets, plus
    2 and the host name's length when the host name is not empty, plus 12
    when an address is requested, plus 1 when a custom option is
    registered; it lies between 262 and 308. *)
Theorem request_length (requestip : option ip4) (s : State) :
  terminated (hostname s) = true ->
  (length (hostname s) <= 32)%nat ->
  exists (n : Z) (payload : list Z) (rest : list Event),
    trace (send_dhcp_message requestip s) = EvUdpTransmit n payload :: rest
    /\ n = 262
           + (if hd 0 (hostname s) =? 0 then 0 else 2 + strlen (hostname s))
           + match requestip with Some _ => 12 | None => 0 end
           + (if dhcpCustomOptionNum s =? 0 then 0 else 1)
    /\ 262 <= n <= 308.
Proof.
  intros Ht Hl. apply terminated_strlen in Ht.
  rewrite send_dhcp_message_eq, udpTransmit_trace.
  do 3 eexists. split; [reflexivity|].
  rewrite request_options_length. unfold sizeof_DHCPdata.
  pose proof (strlen_range (hostname s)) as Hr.
  rewrite (u8_small (strlen (hostname s))) by lia.
  split; [lia|].
  destruct (_ =? _); destruct requestip; destruct (_ =? _); lia.
Qed.

End More.

(** * Addresses as text: [parseIp] and [makeNetStr] *)

(** ** [parseIp] *)

Section ParseIpProps.

Variable atoi : list Z -> Z.

Lemma skipn_store_at (v : Z) :
  forall (a : list Z) (p : nat),
    skipn (S p) (store_at a p v) = skipn (S p) a.
Proof.
  induction a as [|c a IH]; intros [|p]; cbn [store_at skipn]; auto.
  apply IH.
Qed.

Lemma firstn_store_at (v : Z) :
  forall (a : list Z) (p k : nat),
    (k <= p)%nat -> firstn k (store_at a p v) = firstn k a.
Proof.
  induction a as [|c a IH]; intros [|p] [|k] H; cbn [store_at firstn]; auto;
    try lia.
  f_equal. apply IH. lia.
Qed.

Lemma skipn_nth :
  forall (a : list Z) (p : nat),
    (p < length a)%nat -> skipn p a = nth p a 0 :: skipn (S p) a.
Proof.
  induction a as [|c a IH]; intros [|p] H; cbn [length] in H; try lia.
  - reflexivity.
  - cbn [skipn nth]. rewrite IH by lia. reflexivity.
Qed.

Lemma store_at_middle (v c : Z) (done post : list Z) :
  store_at (done ++ c :: post) (length done) v = done ++ v :: post.
Proof. induction done as [|d done IH]; cbn; [reflexivity | now rewrite IH]. Qed.

Lemma store_at_end (v : Z) (a : list Z) : store_at a (length a) v = a.
Proof. induction a as [|c a IH]; cbn; [reflexivity | now rewrite IH]. Qed.

Lemma nth_middle' (c : Z) (done post : list Z) :
  nth (length done) (done ++ c :: post) 0 = c.
Proof. induction done; cbn; auto. Qed.

Lemma nth_end (done rest : list Z) :
  nth (length done) (done ++ rest) 0 = hd 0 rest.
Proof. induction done; cbn; [destruct rest; reflexivity | auto]. Qed.

Lemma skipn_middle (done rest : list Z) :
  skipn (length done) (done ++ rest) = rest.
Proof. induction done; cbn; auto. Qed.

(** One turn of the loop. *)
Lemma parseIp_loop_exit (n : nat) (a : list Z) (p : nat) (sptr : option nat)
  (i : Z) (b : list Z) :
  nth p a 0 = 0 \/ 4 <= i ->
  parseIp_loop atoi n a p sptr i b = Some (a, p, sptr, i, b).
Proof.
  intros H.
  assert (E : negb (nth p a 0 =? 0) && (i <? IP_LEN) = false).
  { destruct H as [H | H].
    - rewrite H. reflexivity.
    - apply andb_false_iff. right. apply Z.ltb_ge. exact H. }
  destruct n; cbn [parseIp_loop]; rewrite E; reflexivity.
Qed.

Lemma parseIp_loop_plain_step (n : nat) (a : list Z) (p : nat)
  (sptr : option nat) (i : Z) (b : list Z) :
  nth p a 0 <> 0 -> nth p a 0 <> 46 -> i < 4 ->
  parseIp_loop atoi (S n) a p sptr i b
  = parseIp_loop atoi n a (S p)
      match sptr with
      | None => if isdigit (nth p a 0) then Some p else None
      | Some q => Some q
      end i b.
Proof.
  intros H0 Hd Hi. cbn [parseIp_loop].
  apply Z.eqb_neq in H0. apply Z.eqb_neq in Hd. apply Z.ltb_lt in Hi.
  unfold IP_LEN. rewrite H0, Hd, Hi. reflexivity.
Qed.

Lemma parseIp_loop_dot_step (n : nat) (a : list Z) (p : nat)
  (sptr : option nat) (i : Z) (b : list Z) :
  nth p a 0 = 46 -> 0 <= i < 4 ->
  parseIp_loop atoi (S n) a p sptr i b
  = match sptr with
    | None => None
    | Some q =>
      parseIp_loop atoi n (store_at a p 0) (S p) None (i + 1)
        (store b i (Z.land (atoi (cstring (skipn q (store_at a p 0)))) 255))
    end.
Proof.
  intros Hd Hi. cbn [parseIp_loop]. rewrite Hd.
  assert (E : (i <? IP_LEN) = true) by (apply Z.ltb_lt; unfold IP_LEN; lia).
  rewrite E. cbn [negb andb Z.eqb Pos.eqb isdigit].
  change (isdigit 46) with false. cbv iota.
  destruct sptr as [q|]; [|reflexivity].
  unfold u8. rewrite Z.mod_small by lia. reflexivity.
Qed.

(** The bound on the number of turns is never met. *)
Lemma parseIp_loop_fuel :
  forall (n1 n2 : nat) (a : list Z) (p : nat) (sptr : option nat) (i : Z)
         (b : list Z),
    (length a - p <= n1)%nat -> (length a - p <= n2)%nat ->
    parseIp_loop atoi n1 a p sptr i b = parseIp_loop atoi n2 a p sptr i b.
Proof.
  induction n1 as [|n1 IH]; intros n2 a p sptr i b H1 H2.
  - rewrite !parseIp_loop_exit; auto; left; apply nth_overflow; lia.
  - destruct n2 as [|n2].
    + rewrite !parseIp_loop_exit; auto; left; apply nth_overflow; lia.
    + cbn [parseIp_loop].
      destruct (negb (nth p a 0 =? 0) && (i <? IP_LEN)); [|reflexivity].
      assert (Hl : forall v, (length (store_at a p v) - S p <= n1)%nat
                             /\ (length (store_at a p v) - S p <= n2)%nat)
        by (intros v; rewrite store_at_length; lia).
      destruct (nth p a 0 =? 46).
      * match goal with
        | |- match ?s with _ => _ end = _ => destruct s as [q|]
        end; [|reflexivity].
        apply IH; apply Hl.
      * apply IH; lia.
Qed.

Lemma from_digit_length (s : list Z) :
  (length (from_digit s) <= length s)%nat.
Proof.
  induction s as [|c s IH]; cbn [from_digit length]; [lia|].
  destruct (isdigit c); cbn [length]; lia.
Qed.

Lemma skipn_from_digit (s : list Z) :
  skipn (length s - length (from_digit s)) s = from_digit s.
Proof.
  induction s as [|c s IH]; cbn [from_digit length]; [reflexivity|].
  destruct (isdigit c).
  - cbn [length]. rewrite Nat.sub_diag. reflexivity.
  - pose proof (from_digit_length s).
    replace (S (length s) - length (from_digit s))%nat
      with (S (length s - length (from_digit s))) by lia.
    cbn [skipn]. exact IH.
Qed.

Lemma from_digit_nonzero (s : list Z) :
  plain s -> Forall (fun c => c <> 0) (from_digit s).
Proof.
  unfold plain.
  induction s as [|c s IH]; intros H; cbn [from_digit]; [constructor|].
  destruct (isdigit c).
  - eapply Forall_impl; [|exact H]. cbn. tauto.
  - apply IH. now inversion H.
Qed.

Lemma cstring_app_nul (l rest : list Z) :
  Forall (fun c => c <> 0) l -> hd 0 rest = 0 -> cstring (l ++ rest) = l.
Proof.
  intros Hl Hr. induction Hl as [|c l Hc Hl IH]; cbn [app cstring].
  - destruct rest as [|r rest]; [reflexivity|]. cbn in Hr. subst r.
    reflexivity.
  - apply Z.eqb_neq in Hc. rewrite Hc, IH. reflexivity.
Qed.

(** The loop over the characters of a field. *)
Lemma parseIp_loop_plain (s : list Z) :
  forall (done rest : list Z) (sp : option nat) (i : Z) (b : list Z) (n : nat),
    plain s -> i < 4 ->
    parseIp_loop atoi (length s + n) (done ++ s ++ rest) (length done) sp i b
    = parseIp_loop atoi n (done ++ s ++ rest) (length done + length s)
        match sp with
        | Some q => Some q
        | None =>
          if has_digit s
          then Some (length done + (length s - length (from_digit s)))%nat
          else None
        end i b.
Proof.
  unfold plain.
  induction s as [|c s IH]; intros done rest sp i b n Hp Hi.
  - cbn [length app has_digit existsb Nat.add]. rewrite Nat.add_0_r.
    destruct sp; reflexivity.
  - inversion Hp as [|c' s' [Hc0 Hcd] Hp']; subst c' s'.
    cbn [length Nat.add app].
    assert (Hn : nth (length done) (done ++ c :: s ++ rest) 0 = c)
      by apply nth_middle'.
    rewrite parseIp_loop_plain_step by (rewrite ?Hn; assumption).
    rewrite Hn.
    replace (done ++ c :: s ++ rest) with ((done ++ [c]) ++ s ++ rest)
      by (rewrite <- app_assoc; reflexivity).
    replace (S (length done)) with (length (done ++ [c]))
      by (rewrite length_app; cbn [length]; lia).
    rewrite IH by assumption.
    rewrite length_app. cbn [length].
    replace (length done + 1 + length s)%nat
      with (length done + S (length s))%nat by lia.
    f_equal.
    destruct sp as [q|]; [reflexivity|].
    cbn [has_digit existsb from_digit]. fold (has_digit s).
    pose proof (from_digit_length s).
    destruct (isdigit c); cbn [orb length].
    + f_equal. lia.
    + destruct (has_digit s); [|reflexivity]. f_equal. lia.
Qed.

Lemma skipn_field (done s post : list Z) :
  skipn (length done + (length s - length (from_digit s))) (done ++ s ++ post)
  = from_digit s ++ post.
Proof.
  pose proof (from_digit_length s).
  rewrite skipn_app, skipn_all2 by lia. cbn [app].
  replace (length done + (length s - length (from_digit s)) - length done)%nat
    with (length s - length (from_digit s))%nat by lia.
  rewrite skipn_app, skipn_from_digit.
  replace (length s - length (from_digit s) - length s)%nat with 0%nat by lia.
  reflexivity.
Qed.

(** A field with a digit and the dot behind it: its value is stored. *)
Lemma parseIp_loop_field (s done post : list Z) (i : Z) (b : list Z) (n : nat) :
  plain s -> has_digit s = true -> 0 <= i < 4 ->
  parseIp_loop atoi (length s + S n) (done ++ s ++ 46 :: post) (length done)
    None i b
  = parseIp_loop atoi n (done ++ s ++ 0 :: post) (length done + length s + 1)
      None (i + 1) (store b i (Z.land (atoi (from_digit s)) 255)).
Proof.
  intros Hp Hd Hi.
  rewrite parseIp_loop_plain by (assumption || lia). rewrite Hd.
  assert (Hn : nth (length done + length s) (done ++ s ++ 46 :: post) 0 = 46).
  { rewrite app_assoc, <- length_app. apply nth_middle'. }
  rewrite parseIp_loop_dot_step by (assumption || lia).
  assert (Hst : store_at (done ++ s ++ 46 :: post) (length done + length s) 0
                = done ++ s ++ 0 :: post).
  { rewrite !app_assoc, <- length_app. apply store_at_middle. }
  rewrite Hst, skipn_field.
  rewrite cstring_app_nul by (auto using from_digit_nonzero).
  f_equal. lia.
Qed.

(** A field without a digit and the dot behind it: [atoi(NULL)]. *)
Lemma parseIp_loop_empty_field (s done post : list Z) (i : Z) (b : list Z)
  (n : nat) :
  plain s -> has_digit s = false -> 0 <= i < 4 ->
  parseIp_loop atoi (length s + S n) (done ++ s ++ 46 :: post) (length done)
    None i b
  = None.
Proof.
  intros Hp Hd Hi.
  rewrite parseIp_loop_plain by (assumption || lia). rewrite Hd.
  assert (Hn : nth (length done + length s) (done ++ s ++ 46 :: post) 0 = 46).
  { rewrite app_assoc, <- length_app. apply nth_middle'. }
  rewrite parseIp_loop_dot_step by (assumption || lia).
  reflexivity.
Qed.

Lemma store_app (bp bo : list Z) (v : Z) :
  bo <> [] ->
  store (bp ++ bo) (Z.of_nat (length bp)) v = (bp ++ [v]) ++ tl bo.
Proof.
  intros Hbo. unfold store.
  destruct (Z.ltb_spec (Z.of_nat (length bp)) 0) as [H | _]; [lia|].
  rewrite Nat2Z.id. destruct bo as [|o bo]; [congruence|].
  rewrite store_at_middle, <- app_assoc. reflexivity.
Qed.

(** The loop over a run of fields, each with a digit and followed by a
    dot. *)
Lemma parseIp_loop_fields (fs : list (list Z)) :
  forall (done post bp bo : list Z) (n : nat),
    Forall plain fs ->
    Forall (fun s => has_digit s = true) fs ->
    (length bp + length fs <= 4)%nat ->
    (length fs <= length bo)%nat ->
    parseIp_loop atoi (length (flat_map (fun s => s ++ [46]) fs) + n)
      (done ++ flat_map (fun s => s ++ [46]) fs ++ post) (length done)
      None (Z.of_nat (length bp)) (bp ++ bo)
    = parseIp_loop atoi n
        (done ++ flat_map (fun s => s ++ [0]) fs ++ post)
        (length done + length (flat_map (fun s => s ++ [46]) fs))
        None (Z.of_nat (length bp + length fs))
        (bp ++ map (fun s => Z.land (atoi (from_digit s)) 255) fs
            ++ skipn (length fs) bo).
Proof.
  induction fs as [|s fs IH]; intros done post bp bo n Hp Hd Hb Ho.
  - cbn [flat_map length app map skipn Nat.add].
    rewrite !Nat.add_0_r. reflexivity.
  - inversion Hp as [|s' fs' Hps Hpfs]; subst s' fs'.
    inversion Hd as [|s' fs' Hds Hdfs]; subst s' fs'.
    cbn [length] in Hb, Ho.
    cbn [flat_map map length].
    set (text := flat_map (fun s => s ++ [46]) fs) in *.
    set (nul := flat_map (fun s => s ++ [0]) fs) in *.
    replace (length ((s ++ [46%Z]) ++ text) + n)%nat
      with (length s + S (length text + n))%nat
      by (rewrite !length_app; cbn [length]; lia).
    replace (done ++ ((s ++ [46]) ++ text) ++ post)
      with (done ++ s ++ 46 :: text ++ post)
      by (rewrite <- !app_assoc; reflexivity).
    rewrite parseIp_loop_field by (assumption || lia).
    rewrite store_app by (destruct bo; [cbn in Ho; lia | discriminate]).
    replace (done ++ s ++ 0 :: text ++ post)
      with ((done ++ s ++ [0]) ++ text ++ post)
      by (rewrite <- !app_assoc; reflexivity).
    replace (length done + length s + 1)%nat with (length (done ++ s ++ [0%Z]))
      by (rewrite !length_app; cbn [length]; lia).
    replace (Z.of_nat (length bp) + 1)
      with (Z.of_nat (length (bp ++ [Z.land (atoi (from_digit s)) 255])))
      by (rewrite length_app; cbn [length]; lia).
    rewrite IH; try assumption.
    + f_equal.
      * rewrite <- !app_assoc. reflexivity.
      * rewrite !length_app. cbn [length]. lia.
      * f_equal. rewrite length_app. cbn [length]. lia.
      * rewrite <- app_assoc. cbn [app]. do 3 f_equal.
        destruct bo; [cbn in Ho; lia | reflexivity].
    + rewrite length_app. cbn [length]. lia.
    + destruct bo; cbn [tl length] in *; lia.
Qed.

Lemma zeroed (b : list Z) :
  length b = 4%nat ->
  fold_left (fun b i => store b i 0) [0; 1; 2; 3] b = [0; 0; 0; 0].
Proof.
  destruct b as [|b0 [|b1 [|b2 [|b3 [|b4 b]]]]]; try discriminate.
  reflexivity.
Qed.

(** The loop on four fields with a digit each: it ends behind the fourth
    field with three octets stored, the dots overwritten, and [sptr] at
    the first digit of the fourth field. *)
Lemma parseIp_loop_dotted (s0 s1 s2 s3 rest : list Z) :
  Forall plain [s0; s1; s2; s3] ->
  Forall (fun s => has_digit s = true) [s0; s1; s2; s3] ->
  hd 0 rest = 0 ->
  let str := s0 ++ 46 :: s1 ++ 46 :: s2 ++ 46 :: s3 ++ rest in
  let a := s0 ++ 0 :: s1 ++ 0 :: s2 ++ 0 :: s3 ++ rest in
  exists p q : nat,
    parseIp_loop atoi (length str) str 0 None 0 [0; 0; 0; 0]
    = Some (a, p, Some q, 3,
            map (fun s => Z.land (atoi (from_digit s)) 255) [s0; s1; s2]
            ++ [0])
    /\ store_at a p 0 = a
    /\ cstring (skipn q a) = from_digit s3.
Proof.
  intros Hp Hd Hr str a. subst str a.
  apply Forall_cons_iff in Hp as (Hp0 & Hp).
  apply Forall_cons_iff in Hp as (Hp1 & Hp).
  apply Forall_cons_iff in Hp as (Hp2 & Hp).
  apply Forall_cons_iff in Hp as (Hp3 & _).
  apply Forall_cons_iff in Hd as (Hd0 & Hd).
  apply Forall_cons_iff in Hd as (Hd1 & Hd).
  apply Forall_cons_iff in Hd as (Hd2 & Hd).
  apply Forall_cons_iff in Hd as (Hd3 & _).
  set (fs := [s0; s1; s2]).
  set (text := flat_map (fun s => s ++ [46]) fs).
  set (nul := flat_map (fun s => s ++ [0]) fs).
  assert (Estr : s0 ++ 46 :: s1 ++ 46 :: s2 ++ 46 :: s3 ++ rest
                 = [] ++ text ++ s3 ++ rest).
  { unfold text, fs. cbn [flat_map app]. rewrite <- !app_assoc.
    reflexivity. }
  assert (Enul : s0 ++ 0 :: s1 ++ 0 :: s2 ++ 0 :: s3 ++ rest
                 = ([] ++ nul) ++ s3 ++ rest).
  { unfold nul, fs. cbn [flat_map app]. rewrite <- !app_assoc.
    reflexivity. }
  rewrite Estr, Enul.
  replace (length ([] ++ text ++ s3 ++ rest))
    with (length text + (length s3 + length rest))%nat
    by (cbn [app]; rewrite !length_app; reflexivity).
  pose proof (parseIp_loop_fields fs [] (s3 ++ rest) [] [0; 0; 0; 0]
                (length s3 + length rest)) as Hrun.
  cbn [length app Nat.add Z.of_nat] in Hrun. fold text nul in Hrun.
  cbn [app]. rewrite Hrun; clear Hrun;
    [| repeat (apply Forall_cons || apply Forall_nil); assumption
     | repeat (apply Forall_cons || apply Forall_nil); assumption
     | unfold fs; cbn [length]; lia
     | unfold fs; cbn [length]; lia ].
  change (Z.of_nat (length fs)) with 3.
  change (skipn (length fs) [0; 0; 0; 0]) with [0].
  replace (length text) with (length nul)
    by (unfold text, nul, fs; cbn [flat_map]; rewrite !length_app;
        reflexivity).
  rewrite (parseIp_loop_plain s3 nul rest None 3) by (assumption || lia).
  rewrite Hd3.
  assert (Hn : nth (length nul + length s3) (nul ++ s3 ++ rest) 0 = 0).
  { rewrite app_assoc, <- length_app, nth_end. exact Hr. }
  rewrite parseIp_loop_exit by (left; exact Hn).
  eexists _, _. split; [reflexivity|]. split.
  - rewrite app_assoc, <- length_app.
    destruct rest as [|r rest].
    + rewrite app_nil_r. apply store_at_end.
    + cbn in Hr. subst r. apply store_at_middle.
  - rewrite skipn_field.
    apply cstring_app_nul; auto using from_digit_nonzero.
Qed.

(** X18: [parseIp] on a string of four fields separated by dots, each field
    free of NUL and dot and holding a digit, returns 0; octet k is the low
    eight bits of what [atoi] makes of field k from its first digit on, and
    the three dots of the string are overwritten by NULs. *)
Theorem parseIp_dotted (s0 s1 s2 s3 rest bytestr : list Z) :
  length bytestr = 4%nat ->
  Forall plain [s0; s1; s2; s3] ->
  Forall (fun s => has_digit s = true) [s0; s1; s2; s3] ->
  hd 0 rest = 0 ->
  parseIp atoi bytestr (s0 ++ 46 :: s1 ++ 46 :: s2 ++ 46 :: s3 ++ rest)
  = Some (0,
          map (fun s => Z.land (atoi (from_digit s)) 255) [s0; s1; s2; s3],
          s0 ++ 0 :: s1 ++ 0 :: s2 ++ 0 :: s3 ++ rest).
Proof.
  intros Hb Hp Hd Hr.
  unfold parseIp. rewrite (zeroed bytestr Hb).
  destruct (parseIp_loop_dotted s0 s1 s2 s3 rest Hp Hd Hr)
    as (p & q & E & Hst & Hc).
  rewrite E. cbn [Z.eqb Pos.eqb].
  rewrite Hst, Hc. reflexivity.
Qed.

(** A field without a digit, after any fields: [atoi] is called with
    [NULL], at the dot behind the field or, behind the third dot, at the
    end of the string. *)
Lemma parseIp_loop_fault (pre : list Z) :
  forall (done s rest : list Z) (sp : option nat) (i : Z) (b : list Z)
         (n : nat),
    Forall (fun c => c <> 0) pre ->
    0 <= i -> i + Z.of_nat (count_dots pre) <= 3 ->
    (pre = [] -> sp = None) -> (pre <> [] -> last pre 0 = 46) ->
    plain s -> has_digit s = false ->
    hd 0 rest = 46 \/ hd 0 rest = 0 ->
    (length pre + length s + length rest <= n)%nat ->
    match parseIp_loop atoi n (done ++ pre ++ s ++ rest) (length done) sp i b
    with
    | None => True
    | Some (_, _, sp', i', _) =>
      hd 0 rest = 0 /\ sp' = None /\ i' = i + Z.of_nat (count_dots pre)
    end.
Proof.
  induction pre as [|c pre IH];
    intros done s rest sp i b n Hpre Hi0 Hi Hnil Hlast Hs Hd Hrest Hn.
  - cbn [app length count_dots count_occ Nat.add] in *.
    rewrite (Hnil eq_refl).
    rewrite (parseIp_loop_fuel n (length s + length rest))
      by (rewrite !length_app; lia).
    destruct Hrest as [Hr | Hr].
    + destruct rest as [|r post]; [discriminate|]. cbn in Hr. subst r.
      cbn [length]. rewrite parseIp_loop_empty_field by (assumption || lia).
      exact I.
    + rewrite parseIp_loop_plain by (assumption || lia). rewrite Hd.
      rewrite parseIp_loop_exit.
      * split; [exact Hr|]. split; [reflexivity | lia].
      * left. rewrite app_assoc, <- length_app, nth_end. exact Hr.
  - apply Forall_cons_iff in Hpre as (Hc & Hpre).
    cbn [length Nat.add] in Hn. destruct n as [|n]; [lia|].
    assert (Hnth : nth (length done) (done ++ (c :: pre) ++ s ++ rest) 0 = c)
      by apply nth_middle'.
    assert (Hlast' : pre <> [] -> last pre 0 = 46).
    { intros Hne. specialize (Hlast ltac:(discriminate)).
      destruct pre; [congruence | exact Hlast]. }
    assert (Hlen : forall x : Z, S (length done) = length (done ++ [x]))
      by (intros x; rewrite length_app; cbn [length]; lia).
    unfold count_dots in *. cbn [count_occ] in Hi |- *.
    destruct (Z.eq_dec c 46) as [E | E].
    + subst c. cbn [length] in Hi.
      rewrite parseIp_loop_dot_step by (rewrite ?Hnth; lia || reflexivity).
      destruct sp as [q|]; [|exact I].
      cbn [app]. rewrite store_at_middle.
      replace (done ++ 0 :: pre ++ s ++ rest)
        with ((done ++ [0]) ++ pre ++ s ++ rest)
        by (rewrite <- app_assoc; reflexivity).
      rewrite (Hlen 0).
      match goal with
      | |- match parseIp_loop _ _ _ _ _ _ ?b' with _ => _ end =>
        specialize (IH (done ++ [0]) s rest None (i + 1) b' n)
      end.
      destruct (parseIp_loop _ _ _ _ _ _ _) as [[[[[a' p'] sp'] i'] b']|];
        [|exact I].
      replace (i + Z.of_nat (S (count_occ Z.eq_dec pre 46)))
        with (i + 1 + Z.of_nat (count_occ Z.eq_dec pre 46)) by lia.
      apply IH; auto; lia.
    + rewrite parseIp_loop_plain_step by (rewrite ?Hnth; lia || assumption).
      rewrite Hnth. cbn [app].
      replace (done ++ c :: pre ++ s ++ rest)
        with ((done ++ [c]) ++ pre ++ s ++ rest)
        by (rewrite <- app_assoc; reflexivity).
      rewrite (Hlen c).
      match goal with
      | |- match parseIp_loop _ _ _ _ ?sp' _ _ with _ => _ end =>
        specialize (IH (done ++ [c]) s rest sp' i b n)
      end.
      destruct (parseIp_loop _ _ _ _ _ _ _) as [[[[[a' p'] sp'] i'] b']|];
        [|exact I].
      apply IH; auto; try lia.
      intros Hne. subst pre. specialize (Hlast ltac:(discriminate)).
      cbn in Hlast. congruence.
Qed.

(** X19: a field without a digit makes [parseIp] call [atoi] with [NULL]:
    at the dot that ends the field, when at most three dots come before the
    field, or at the end of the string, when the field follows the third
    dot.  What precedes the field is empty or ends with a dot, and holds
    no NUL. *)
Theorem parseIp_field_without_digit (pre s rest bytestr : list Z) :
  Forall (fun c => c <> 0) pre ->
  (count_dots pre <= 3)%nat ->
  pre = [] \/ last pre 0 = 46 ->
  plain s ->
  has_digit s = false ->
  hd 0 rest = 46 \/ (hd 0 rest = 0 /\ count_dots pre = 3%nat) ->
  parseIp atoi bytestr (pre ++ s ++ rest) = None.
Proof.
  intros Hpre Hdots Hlast Hs Hd Hrest.
  unfold parseIp.
  set (b := fold_left _ _ _). clearbody b.
  assert (H : match parseIp_loop atoi (length (pre ++ s ++ rest))
                       (pre ++ s ++ rest) 0 None 0 b with
               | None => True
               | Some (_, _, sp', i', _) =>
                 hd 0 rest = 0 /\ sp' = None
                 /\ i' = 0 + Z.of_nat (count_dots pre)
               end).
  { apply (parseIp_loop_fault pre [] s rest None 0 b); try assumption.
    - lia.
    - lia.
    - reflexivity.
    - intros Hne. destruct Hlast; [contradiction | assumption].
    - destruct Hrest as [H | [H _]]; [left | right]; exact H.
    - rewrite !length_app. lia. }
  destruct (parseIp_loop _ _ _ _ _ _ _) as [[[[[a' p'] sp'] i'] b']|];
    [|reflexivity].
  destruct H as (H0 & Hsp & Hi').
  destruct Hrest as [H | [_ H]]; [congruence|].
  subst sp' i'. rewrite H. reflexivity.
Qed.

Lemma cstring_skipn_nul (a : list Z) (p : nat) :
  nth p a 0 = 0 -> cstring (skipn p a) = [].
Proof.
  intros H. destruct (Nat.lt_ge_cases p (length a)) as [Hp | Hp].
  - rewrite skipn_nth, H by exact Hp. reflexivity.
  - rewrite skipn_all2 by exact Hp. reflexivity.
Qed.

Lemma cstring_skipn_char (a : list Z) (p : nat) :
  nth p a 0 <> 0 ->
  cstring (skipn p a) = nth p a 0 :: cstring (skipn (S p) a).
Proof.
  intros H. destruct (Nat.lt_ge_cases p (length a)) as [Hp | Hp].
  - rewrite skipn_nth by exact Hp. cbn [cstring].
    apply Z.eqb_neq in H. rewrite H. reflexivity.
  - rewrite nth_overflow in H by exact Hp. congruence.
Qed.

Lemma firstn_le_eq (k p : nat) (x y : list Z) :
  (k <= p)%nat -> firstn p x = firstn p y -> firstn k x = firstn k y.
Proof.
  intros Hk H.
  replace k with (Nat.min k p) by lia.
  rewrite <- !firstn_firstn, H. reflexivity.
Qed.

(** The loop leaves alone what lies before [str], and the size of the
    array. *)
Lemma parseIp_loop_prefix (n : nat) :
  forall (a : list Z) (p : nat) (sp : option nat) (i : Z) (b a' : list Z)
         (p' : nat) (sp' : option nat) (i' : Z) (b' : list Z),
    parseIp_loop atoi n a p sp i b = Some (a', p', sp', i', b') ->
    (p <= p')%nat /\ length a' = length a /\ firstn p a' = firstn p a.
Proof.
  induction n as [|n IH]; intros a p sp i b a' p' sp' i' b' H;
    cbn [parseIp_loop] in H.
  - destruct (_ && _); injection H as <- <- _ _ _; auto.
  - destruct (_ && _); [|injection H as <- <- _ _ _; auto].
    destruct (nth p a 0 =? 46).
    + match type of H with
      | match ?s with _ => _ end = _ => destruct s as [q|]
      end; [|discriminate].
      apply IH in H as (H1 & H2 & H3).
      rewrite store_at_length in H2.
      split; [lia|]. split; [exact H2|].
      rewrite <- (firstn_store_at 0 a p p) by lia.
      apply (firstn_le_eq p (S p)); [lia | exact H3].
    + apply IH in H as (H1 & H2 & H3).
      split; [lia|]. split; [exact H2|].
      apply (firstn_le_eq p (S p)); [lia | exact H3].
Qed.

Lemma loop_condition (c i : Z) :
  negb (c =? 0) && (i <? IP_LEN) = true <-> c <> 0 /\ i < 4.
Proof.
  unfold IP_LEN. rewrite andb_true_iff, negb_true_iff, Z.eqb_neq, Z.ltb_lt.
  tauto.
Qed.

Lemma loop_condition_false (c i : Z) :
  negb (c =? 0) && (i <? IP_LEN) = false <-> c = 0 \/ 4 <= i.
Proof.
  unfold IP_LEN. rewrite andb_false_iff, negb_false_iff, Z.eqb_eq, Z.ltb_ge.
  tauto.
Qed.

(** [i] counts the dots of the string, up to four. *)
Lemma parseIp_loop_count (n : nat) :
  forall (a : list Z) (p : nat) (sp : option nat) (i : Z) (b a' : list Z)
         (p' : nat) (sp' : option nat) (i' : Z) (b' : list Z),
    (length a - p <= n)%nat -> 0 <= i <= 4 ->
    parseIp_loop atoi n a p sp i b = Some (a', p', sp', i', b') ->
    i' = Z.min 4 (i + Z.of_nat (count_dots (cstring (skipn p a)))).
Proof.
  induction n as [|n IH]; intros a p sp i b a' p' sp' i' b' Hn Hi H.
  - rewrite parseIp_loop_exit in H by (left; apply nth_overflow; lia).
    injection H as <- <- _ <- _.
    rewrite skipn_all2 by lia. cbn. lia.
  - cbn [parseIp_loop] in H.
    destruct (negb (nth p a 0 =? 0) && (i <? IP_LEN)) eqn:E.
    + apply loop_condition in E as (Hc & Hi4).
      rewrite cstring_skipn_char by exact Hc.
      unfold count_dots in *. cbn [count_occ].
      destruct (Z.eqb_spec (nth p a 0) 46) as [Hd | Hd].
      * match type of H with
        | match ?s with _ => _ end = _ => destruct s as [q|]
        end; [|discriminate].
        apply IH in H.
        -- rewrite skipn_store_at in H. rewrite H.
           destruct (Z.eq_dec (nth p a 0) 46); [|congruence].
           unfold u8. rewrite Z.mod_small by lia. lia.
        -- rewrite store_at_length. lia.
        -- unfold u8. rewrite Z.mod_small by lia. lia.
      * apply IH in H; [|lia|lia]. rewrite H.
        destruct (Z.eq_dec (nth p a 0) 46); [congruence | reflexivity].
    + apply loop_condition_false in E.
      injection H as <- <- _ <- _.
      destruct E as [E | E].
      * rewrite cstring_skipn_nul by exact E. cbn. lia.
      * lia.
Qed.

Lemma nth_store_at_same (a : list Z) :
  forall p : nat, nth p (store_at a p 0) 0 = 0.
Proof.
  induction a as [|c a IH]; intros [|p]; cbn [store_at nth]; auto.
Qed.

Lemma nth_of_firstn (p : nat) (x y : list Z) :
  firstn (S p) x = firstn (S p) y -> nth p x 0 = nth p y 0.
Proof.
  revert x y. induction p as [|p IH]; intros [|a x] [|c y] H;
    cbn [firstn nth] in *; try congruence.
  injection H as _ H. apply IH. exact H.
Qed.

(** The C string at [str] after the call: the characters before the first
    dot. *)
Lemma parseIp_loop_first_field (n : nat) :
  forall (a : list Z) (p : nat) (sp : option nat) (i : Z) (b a' : list Z)
         (p' : nat) (sp' : option nat) (i' : Z) (b' : list Z),
    (length a - p <= n)%nat -> i < 4 ->
    parseIp_loop atoi n a p sp i b = Some (a', p', sp', i', b') ->
    cstring (skipn p (store_at a' p' 0))
    = first_field (cstring (skipn p a)).
Proof.
  induction n as [|n IH]; intros a p sp i b a' p' sp' i' b' Hn Hi H.
  - rewrite parseIp_loop_exit in H by (left; apply nth_overflow; lia).
    injection H as <- <- _ _ _.
    rewrite !skipn_all2 by (rewrite ?store_at_length; lia). reflexivity.
  - cbn [parseIp_loop] in H.
    destruct (negb (nth p a 0 =? 0) && (i <? IP_LEN)) eqn:E.
    + apply loop_condition in E as (Hc & _).
      rewrite (cstring_skipn_char a) by exact Hc. cbn [first_field].
      destruct (Z.eqb_spec (nth p a 0) 46) as [Hd | Hd].
      * match type of H with
        | match ?s with _ => _ end = _ => destruct s as [q|]
        end; [|discriminate].
        apply parseIp_loop_prefix in H as (H1 & H2 & H3).
        apply cstring_skipn_nul.
        rewrite (nth_of_firstn p _ a')
          by (apply firstn_store_at; lia).
        rewrite (nth_of_firstn p _ _ H3). apply nth_store_at_same.
      * pose proof (parseIp_loop_prefix _ _ _ _ _ _ _ _ _ _ _ H)
          as (H1 & H2 & H3).
        apply IH in H; [|lia|lia].
        assert (Hp : nth p (store_at a' p' 0) 0 = nth p a 0).
        { rewrite (nth_of_firstn p _ a') by (apply firstn_store_at; lia).
          apply nth_of_firstn. exact H3. }
        rewrite cstring_skipn_char by (rewrite Hp; exact Hc).
        rewrite Hp, H. reflexivity.
    + apply loop_condition_false in E.
      injection H as <- <- _ _ _.
      destruct E as [E | E]; [|lia].
      rewrite (cstring_skipn_nul a) by exact E.
      apply cstring_skipn_nul, nth_store_at_same.
Qed.

(** X20: whenever [parseIp] returns, the value is 0 or 1, and it is 0
    exactly when the string holds exactly three dots; the array keeps its
    size, and the C string left at [str] is what stood before the first
    dot. *)
Theorem parseIp_result (bytestr str : list Z) (r : Z) (b a : list Z) :
  parseIp atoi bytestr str = Some (r, b, a) ->
  (r = 0 <-> count_dots (cstring str) = 3%nat)
  /\ (r = 0 \/ r = 1)
  /\ length a = length str
  /\ cstring a = first_field (cstring str).
Proof.
  unfold parseIp.
  set (b0 := fold_left _ _ _). clearbody b0.
  destruct (parseIp_loop atoi (length str) str 0 None 0 b0)
    as [[[[[a' p'] sp'] i'] b']|] eqn:E; [|discriminate].
  pose proof (parseIp_loop_count (length str) str 0 None 0 b0 a' p' sp' i' b'
                ltac:(lia) ltac:(lia) E) as Hi.
  pose proof (parseIp_loop_first_field (length str) str 0 None 0 b0 a' p' sp'
                i' b' ltac:(lia) ltac:(lia) E) as Hf.
  pose proof (parseIp_loop_prefix _ _ _ _ _ _ _ _ _ _ _ E) as (_ & Hl & _).
  cbn [skipn] in Hi, Hf.
  assert (Hr : forall r, r = (if i' =? 3 then 0 else 1) ->
               (r = 0 <-> count_dots (cstring str) = 3%nat)
               /\ (r = 0 \/ r = 1)).
  { intros r0 ->. destruct (Z.eqb_spec i' 3) as [H3 | H3].
    - split; [|auto]. split; [intros _; lia | reflexivity].
    - split; [|auto]. split; [discriminate | intros H; lia]. }
  destruct (i' =? 3) eqn:E3.
  - destruct sp' as [q|]; [|discriminate].
    intros H. injection H as <- _ <-.
    destruct (Hr 0 eq_refl) as (H1 & H2).
    rewrite store_at_length. auto.
  - intros H. injection H as <- _ <-.
    destruct (Hr 1 eq_refl) as (H1 & H2).
    rewrite store_at_length. auto.
Qed.

End ParseIpProps.

(** ** [makeNetStr] *)

Section MakeNetStrProps.

Variable ltoa : Z -> Z -> list Z.

Lemma pokes_ext (l : list Z) :
  forall (m1 m2 : buffer) (p : Z),
    (forall q, m1 q = m2 q) -> forall q, pokes m1 p l q = pokes m2 p l q.
Proof.
  induction l as [|c l IH]; intros m1 m2 p H q; cbn [pokes]; [apply H|].
  apply IH. intros q'. unfold poke. rewrite H. reflexivity.
Qed.

Lemma poke_over (m : buffer) (d : list Z) (j x y : Z) :
  forall q,
    poke (pokes m j (d ++ [x])) (j + Z.of_nat (length d)) y q
    = pokes m j (d ++ [y]) q.
Proof.
  intros q. rewrite !pokes_app. cbn [pokes]. unfold poke.
  destruct (q =? j + Z.of_nat (length d)); reflexivity.
Qed.

(** The search ends at the NUL [ltoa] has stored. *)
Lemma find_nul_number (d : list Z) :
  forall (m : buffer) (j : Z) (fuel : nat),
    Forall (fun c => u8 c <> 0) d ->
    0 <= j -> j + Z.of_nat (length d) <= 255 ->
    (length d <= fuel)%nat ->
    find_nul fuel (pokes m j (d ++ [0])) j = Some (j + Z.of_nat (length d)).
Proof.
  induction d as [|c d IH]; intros m j fuel Hd Hj Hl Hf.
  - cbn [app pokes length]. rewrite Z.add_0_r.
    destruct fuel; cbn [find_nul]; rewrite peek_poke, Z.eqb_refl; reflexivity.
  - apply Forall_cons_iff in Hd as (Hc & Hd).
    cbn [length] in Hl, Hf. destruct fuel as [|fuel]; [lia|].
    cbn [app pokes find_nul].
    rewrite peek_pokes_out by lia. rewrite peek_poke, Z.eqb_refl.
    apply Z.eqb_neq in Hc. rewrite Hc.
    unfold u8 at 1. rewrite Z.mod_small by lia.
    rewrite IH by (assumption || lia). f_equal. cbn [length]. lia.
Qed.

(** The outer loop, as long as [j] stays within a [uint8_t]. *)
Lemma makeNetStr_loop_joins (n : nat) :
  forall (m : buffer) (bytestr : list Z) (separator base i j : Z),
    let todo := firstn n (skipn (Z.to_nat i) bytestr) in
    0 <= i -> 0 <= j <= 255 ->
    (Z.to_nat i + n <= length bytestr)%nat ->
    Forall (fun v => Forall (fun c => u8 c <> 0) (ltoa v base)) todo ->
    j + Z.of_nat (length (joined ltoa todo separator base)) <= 256 ->
    exists m',
      makeNetStr_loop ltoa n m bytestr separator base i j
      = Some (m', u8 (j + Z.of_nat (length (joined ltoa todo separator base))))
      /\ forall q, m' q = pokes m j (joined ltoa todo separator base) q.
Proof.
  induction n as [|n IH]; intros m bytestr separator base i j todo Hi Hj Hn Hd Hl.
  - exists m. subst todo. cbn [firstn joined flat_map length] in *.
    cbn [makeNetStr_loop pokes]. rewrite Z.add_0_r.
    split; [|reflexivity].
    unfold u8. rewrite Z.mod_small by lia. reflexivity.
  - assert (Htodo : todo
                    = nth (Z.to_nat i) bytestr 0
                      :: firstn n (skipn (Z.to_nat (i + 1)) bytestr)).
    { subst todo. rewrite (skipn_nth bytestr (Z.to_nat i)) by lia.
      cbn [firstn]. do 3 f_equal. lia. }
    set (v := nth (Z.to_nat i) bytestr 0) in *.
    set (todo' := firstn n (skipn (Z.to_nat (i + 1)) bytestr)) in *.
    clearbody todo. subst todo.
    apply Forall_cons_iff in Hd as (Hv & Hd).
    change (joined ltoa (v :: todo') separator base)
      with ((ltoa v base ++ [separator]) ++ joined ltoa todo' separator base)
      in Hl |- *.
    set (d := ltoa v base) in *.
    set (text := joined ltoa todo' separator base) in *.
    rewrite !length_app in Hl. cbn [length] in Hl.
    cbn [makeNetStr_loop]. fold v. fold d.
    rewrite find_nul_number by (assumption || lia).
    assert (Hu : j + Z.of_nat (length d) + 1 <= 255
                 \/ (text = [] /\ j + Z.of_nat (length d) + 1 = 256)).
    { destruct (Z.eq_dec (j + Z.of_nat (length d) + 1) 256) as [E | E].
      - right. split; [|exact E]. destruct text; [reflexivity|].
        cbn [length] in Hl. lia.
      - left. lia. }
    destruct Hu as [Hu | (Ht & Hu)].
    + rewrite (u8_small (j + Z.of_nat (length d) + 1)) by lia.
      destruct (IH (poke (pokes m j (d ++ [0])) (j + Z.of_nat (length d))
                      separator)
                  bytestr separator base (i + 1)
                  (j + Z.of_nat (length d) + 1))
        as (m' & E & Hm'); try assumption; try lia.
      { fold todo' text. lia. }
      fold todo' text in E, Hm'.
      exists m'. split.
      * rewrite E. do 3 f_equal. rewrite !length_app. cbn [length]. lia.
      * intros q. rewrite Hm'. rewrite <- app_assoc. cbn [app].
        replace (d ++ separator :: text) with ((d ++ [separator]) ++ text)
          by (rewrite <- app_assoc; reflexivity).
        rewrite (pokes_app (d ++ [separator])).
        rewrite length_app. cbn [length].
        replace (j + Z.of_nat (length d + 1)) with (j + Z.of_nat (length d) + 1)
          by lia.
        apply pokes_ext. apply poke_over.
    + (* the text ends at element 255 *)
      assert (Hn0 : n = 0%nat \/ todo' = []).
      { destruct n; [left; reflexivity|]. right.
        unfold text, joined in Ht. destruct todo'; [reflexivity|].
        cbn [flat_map] in Ht. destruct (ltoa z base); discriminate. }
      assert (Hnil : todo' = []) by (destruct Hn0; [subst n|]; auto).
      assert (Hn0' : n = 0%nat).
      { destruct n; [reflexivity|]. exfalso.
        unfold todo' in Hnil.
        assert (length (firstn (S n) (skipn (Z.to_nat (i + 1)) bytestr))
                = S n) by (rewrite firstn_length_le; [reflexivity|];
                           rewrite length_skipn; lia).
        rewrite Hnil in H. discriminate. }
      subst n. cbn [makeNetStr_loop].
      eexists. split.
      * do 3 f_equal. rewrite Ht, app_nil_r, length_app. cbn [length]. lia.
      * intros q. rewrite Ht, app_nil_r. apply poke_over.
Qed.

Lemma peeks_ext (n : nat) :
  forall (m1 m2 : buffer) (p : Z),
    (forall q, m1 q = m2 q) -> peeks m1 p n = peeks m2 p n.
Proof.
  induction n as [|n IH]; intros m1 m2 p H; cbn [peeks]; [reflexivity|].
  unfold peek at 1 2. rewrite H. f_equal. apply IH. exact H.
Qed.

Lemma joined_length (bytes : list Z) (separator base : Z) :
  (length bytes <= length (joined ltoa bytes separator base))%nat.
Proof.
  induction bytes as [|v bytes IH]; cbn [joined flat_map length]; [lia|].
  fold (joined ltoa bytes separator base).
  rewrite !length_app. cbn [length]. lia.
Qed.

(** X22: with [len] = 0 [makeNetStr] stores exactly one character, a NUL at
    [resultstr[255]] ([j] is decremented from 0); [resultstr[0]] is not
    written. *)
Theorem makeNetStr_of_nothing (m : buffer) (bytestr : list Z)
  (separator base : Z) :
  exists m',
    makeNetStr ltoa m bytestr 0 separator base = Some m'
    /\ peek m' 255 = 0
    /\ forall q, q <> 255 -> m' q = m q.
Proof.
  exists (poke m 255 0). split; [reflexivity|]. split; [reflexivity|].
  intros q Hq. unfold poke. apply Z.eqb_neq in Hq. rewrite Hq. reflexivity.
Qed.

(** The memory after [makeNetStr], cell by cell. *)
Lemma makeNetStr_memory (m : buffer) (bytestr : list Z)
  (len separator base : Z) :
  let bytes := firstn (Z.to_nat len) bytestr in
  let text := joined ltoa bytes separator base in
  0 < len <= 255 ->
  (Z.to_nat len <= length bytestr)%nat ->
  Forall (fun v => Forall (fun c => u8 c <> 0) (ltoa v base)) bytes ->
  (length text <= 256)%nat ->
  exists m',
    makeNetStr ltoa m bytestr len separator base = Some m'
    /\ length (removelast text ++ [0]) = length text
    /\ forall q, m' q = pokes m 0 (removelast text ++ [0]) q.
Proof.
  intros bytes text Hlen Hb Hd Hl.
  destruct (makeNetStr_loop_joins (Z.to_nat len) m bytestr separator base 0 0)
    as (m1 & E & Hm1); try lia.
  { exact Hd. }
  { cbn [Z.to_nat skipn]. fold bytes text. lia. }
  cbn [Z.to_nat skipn] in E, Hm1. fold bytes text in E, Hm1.
  cbn [Z.add] in E.
  assert (Hpos : (1 <= length text)%nat).
  { pose proof (joined_length bytes separator base) as H. fold text in H.
    unfold bytes in H. rewrite firstn_length_le in H by exact Hb. lia. }
  assert (Hj : u8 (u8 (Z.of_nat (length text)) - 1)
               = Z.of_nat (length text) - 1).
  { destruct (Nat.eq_dec (length text) 256) as [E256 | E256].
    - rewrite E256. reflexivity.
    - rewrite (u8_small (Z.of_nat (length text))) by lia.
      apply u8_small. lia. }
  assert (Htext : text = removelast text ++ [last text 0]).
  { apply app_removelast_last. destruct text; [cbn in Hpos; lia|discriminate]. }
  assert (Hrl : Z.of_nat (length text) - 1
                = 0 + Z.of_nat (length (removelast text))).
  { rewrite Htext at 1. rewrite length_app. cbn [length]. lia. }
  exists (poke m1 (Z.of_nat (length text) - 1) 0).
  split.
  { unfold makeNetStr. rewrite (u8_small len) by lia. rewrite E, Hj.
    reflexivity. }
  split.
  { rewrite Htext at 2. rewrite !length_app. reflexivity. }
  intros q. rewrite Hrl.
  rewrite <- (poke_over m (removelast text) 0 (last text 0) 0 q).
  rewrite <- Htext. unfold poke.
  destruct (q =? _); [reflexivity | apply Hm1].
Qed.

(** X21: when the numbers [ltoa] stores hold no NUL and the text, with one
    separator after each number, has at most 256 characters, [makeNetStr]
    returns and [resultstr] holds the text with its last separator
    replaced by a NUL; nothing before or after the text is changed. *)
Theorem makeNetStr_text (m : buffer) (bytestr : list Z)
  (len separator base : Z) :
  let bytes := firstn (Z.to_nat len) bytestr in
  let text := joined ltoa bytes separator base in
  0 < len <= 255 ->
  (Z.to_nat len <= length bytestr)%nat ->
  Forall (fun v => Forall (fun c => u8 c <> 0) (ltoa v base)) bytes ->
  (length text <= 256)%nat ->
  exists m',
    makeNetStr ltoa m bytestr len separator base = Some m'
    /\ peeks m' 0 (length text) = map u8 (removelast text ++ [0])
    /\ forall q, q < 0 \/ Z.of_nat (length text) <= q -> peek m' q = peek m q.
Proof.
  intros bytes text Hlen Hb Hd Hl.
  destruct (makeNetStr_memory m bytestr len separator base Hlen Hb Hd Hl)
    as (m' & E & Hlen' & Hm').
  fold bytes in Hlen', Hm'. fold text in Hlen', Hm'.
  exists m'. split; [exact E|]. split.
  - rewrite (peeks_ext _ _ _ 0 Hm'). rewrite <- Hlen'. apply peeks_pokes.
  - intros q Hq. unfold peek at 1. rewrite Hm'.
    change (peek (pokes m 0 (removelast text ++ [0])) q = peek m q).
    apply peek_pokes_out. rewrite Hlen'. lia.
Qed.

End MakeNetStrProps.

(** ** [makeNetStr], then [parseIp] *)

Section RoundTrip.

Variable atoi : list Z -> Z.
Variable ltoa : Z -> Z -> list Z.

Lemma digits_u8 (d : list Z) :
  Forall (fun c => isdigit c = true) d -> map u8 d = d.
Proof.
  induction 1 as [|c d Hc _ IH]; cbn [map]; [reflexivity|].
  rewrite IH. f_equal. unfold isdigit in Hc.
  apply andb_true_iff in Hc as (H1 & H2).
  apply Z.leb_le in H1, H2. apply u8_small. lia.
Qed.

Lemma digits_plain (d : list Z) :
  Forall (fun c => isdigit c = true) d -> plain d.
Proof.
  unfold plain. apply Forall_impl. intros c Hc. unfold isdigit in Hc.
  apply andb_true_iff in Hc as (H1 & H2).
  apply Z.leb_le in H1, H2. lia.
Qed.

Lemma digits_nonzero (d : list Z) :
  Forall (fun c => isdigit c = true) d -> Forall (fun c => u8 c <> 0) d.
Proof.
  apply Forall_impl. intros c Hc. unfold isdigit in Hc.
  apply andb_true_iff in Hc as (H1 & H2).
  apply Z.leb_le in H1, H2. rewrite u8_small by lia. lia.
Qed.

Lemma digits_from_digit (d : list Z) :
  Forall (fun c => isdigit c = true) d -> d <> [] ->
  has_digit d = true /\ from_digit d = d.
Proof.
  intros H Hne. destruct H as [|c d Hc _]; [congruence|].
  unfold has_digit. cbn [existsb from_digit]. rewrite Hc. auto.
Qed.

Lemma nth_peeks (n : nat) :
  forall (m : buffer) (p : Z) (k : nat),
    (k < n)%nat -> nth k (peeks m p n) 0 = peek m (p + Z.of_nat k).
Proof.
  induction n as [|n IH]; intros m p [|k] H; cbn [peeks nth]; try lia.
  - rewrite Z.add_0_r. reflexivity.
  - rewrite IH by lia. f_equal. lia.
Qed.

(** X23: for an [ltoa] that prints the four octets in at most three decimal
    digits each and an [atoi] that reads them back, [makeNetStr] with a
    dot and base 10 returns, the text ends in a NUL within 16 characters,
    and [parseIp] on it returns 0 with the four octets. *)
Theorem parseIp_makeNetStr (m : buffer) (ip bytestr : list Z) :
  length ip = 4%nat ->
  length bytestr = 4%nat ->
  Forall (fun v =>
            0 <= v < 256
            /\ ltoa v 10 <> []
            /\ (length (ltoa v 10) <= 3)%nat
            /\ Forall (fun c => isdigit c = true) (ltoa v 10)
            /\ atoi (ltoa v 10) = v) ip ->
  exists (m' : buffer) (n : nat) (a : list Z),
    makeNetStr ltoa m ip 4 46 10 = Some m'
    /\ (8 <= n <= 16)%nat
    /\ peek m' (Z.of_nat n - 1) = 0
    /\ parseIp atoi bytestr (peeks m' 0 n) = Some (0, ip, a).
Proof.
  intros Hip Hb H.
  destruct ip as [|v0 [|v1 [|v2 [|v3 [|v4 ip]]]]]; try discriminate.
  apply Forall_cons_iff in H as ((R0 & N0 & L0 & D0 & A0) & H).
  apply Forall_cons_iff in H as ((R1 & N1 & L1 & D1 & A1) & H).
  apply Forall_cons_iff in H as ((R2 & N2 & L2 & D2 & A2) & H).
  apply Forall_cons_iff in H as ((R3 & N3 & L3 & D3 & A3) & _).
  set (d0 := ltoa v0 10) in *. set (d1 := ltoa v1 10) in *.
  set (d2 := ltoa v2 10) in *. set (d3 := ltoa v3 10) in *.
  set (text := joined ltoa [v0; v1; v2; v3] 46 10).
  set (body := d0 ++ 46 :: d1 ++ 46 :: d2 ++ 46 :: d3).
  assert (Et : text = body ++ [46]).
  { unfold text, body, joined. cbn [flat_map]. fold d0 d1 d2 d3.
    repeat (rewrite <- app_assoc; cbn [app]). rewrite ?app_nil_r.
    reflexivity. }
  assert (Hlb : length body
                = (length d0 + length d1 + length d2 + length d3 + 3)%nat).
  { unfold body. repeat (rewrite length_app; cbn [length]). lia. }
  assert (Hlt : length text = S (length body))
    by (rewrite Et, length_app; cbn [length]; lia).
  assert (Hpos : forall d : list Z, d <> [] -> (1 <= length d)%nat)
    by (intros [|c d] Hd; [congruence | cbn [length]; lia]).
  pose proof (Hpos d0 N0). pose proof (Hpos d1 N1).
  pose proof (Hpos d2 N2). pose proof (Hpos d3 N3).
  destruct (makeNetStr_memory ltoa m [v0; v1; v2; v3] 4 46 10)
    as (m' & E & Hlen' & Hm').
  - lia.
  - cbn. lia.
  - cbn [Z.to_nat Pos.to_nat Pos.iter_op Nat.add firstn].
    fold d0 d1 d2 d3.
    repeat (apply Forall_cons || apply Forall_nil);
      apply digits_nonzero; assumption.
  - change (length text <= 256)%nat. lia.
  - change (joined ltoa (firstn (Z.to_nat 4) [v0; v1; v2; v3]) 46 10)
      with text in Hlen', Hm'.
    assert (Hpeeks : peeks m' 0 (length text)
                     = map u8 (removelast text ++ [0])).
    { rewrite (peeks_ext _ _ _ 0 Hm'), <- Hlen'. apply peeks_pokes. }
    rewrite Et, removelast_last in Hpeeks. rewrite <- Et in Hpeeks.
    assert (Hbody : map u8 (body ++ [0])
                    = d0 ++ 46 :: d1 ++ 46 :: d2 ++ 46 :: d3 ++ [0]).
    { unfold body. repeat (rewrite map_app; cbn [map]).
      rewrite !digits_u8 by assumption.
      repeat (rewrite <- app_assoc; cbn [app]). reflexivity. }
    exists m', (length text),
      (d0 ++ 0 :: d1 ++ 0 :: d2 ++ 0 :: d3 ++ [0]).
    split; [exact E|]. split; [lia|].
    split.
    + replace (Z.of_nat (length text) - 1) with (0 + Z.of_nat (length body))
        by lia.
      rewrite <- (nth_peeks (length text)) by lia.
      rewrite Hpeeks, map_app, <- (length_map u8 body).
      apply nth_middle'.
    + rewrite Hpeeks, Hbody.
      unfold parseIp. rewrite (zeroed bytestr Hb).
      destruct (parseIp_loop_dotted atoi d0 d1 d2 d3 [0])
        as (p & q & El & Hst & Hcs).
      * repeat (apply Forall_cons || apply Forall_nil);
          apply digits_plain; assumption.
      * repeat (apply Forall_cons || apply Forall_nil);
          apply digits_from_digit; assumption.
      * reflexivity.
      * rewrite El. cbn [Z.eqb Pos.eqb]. rewrite Hst, Hcs. cbn [map app].
        destruct (digits_from_digit d0 D0 N0) as (_ & ->).
        destruct (digits_from_digit d1 D1 N1) as (_ & ->).
        destruct (digits_from_digit d2 D2 N2) as (_ & ->).
        destruct (digits_from_digit d3 D3 N3) as (_ & ->).
        rewrite A0, A1, A2, A3.
        change 255 with (Z.ones 8). rewrite !Z.land_ones by lia.
        rewrite !Z.mod_small by (cbn; lia).
        reflexivity.
Qed.

End RoundTrip.

(** ** Concrete runs of the further properties *)

Lemma lease_time_stored_witness :
  let s := dhcpAddOptionCallback 43 (Some 1%nat)
             (waiting DHCP_STATE_REQUESTING 7 0 sample_ack) in
  lease_seconds (gPB s) 299 = 3600
  /\ exists s',
       DhcpStateMachine (fun _ => 100) 308 s = Ok s'
       /\ dhcpState s' = DHCP_STATE_BOUND
       /\ leaseTime s' = 3600 * 1000.
Proof.
  intros s. split; [reflexivity|].
  destruct (lease_time_stored (fun _ => 100) 1%nat 308 s eq_refl)
    as (s1 & _ & Htick & _ & Hlast).
  destruct (Htick (or_introl eq_refl)) as (s' & E & Hb & Hl).
  { vm_compute. reflexivity. }
  destruct (Hlast [(53, 284, 1); (1, 287, 4); (3, 293, 4)]
              [(43, 305, 2); (255, 309, 0)] 51 299 4) as (_ & H).
  - vm_compute. reflexivity.
  - left. reflexivity.
  - intros o [<- | [<- | []]]; split; discriminate.
  - destruct H as (_ & _ & _ & _ & H5).
    + vm_compute. discriminate.
    + exists s'. split; [exact E|]. split; [exact Hb|].
      rewrite Hl. apply H5. vm_compute. reflexivity.
Defined.

(** C10 as stated fails: an ACK with a Lease Time of 3600 s that is followed
    by a Renewal Time of 1800 s is accepted, and the duration stored is
    1800000 ms. *)
Lemma later_renewal_time_overrides_lease_time :
  let s := dhcpAddOptionCallback 43 (Some 1%nat)
             (waiting DHCP_STATE_REQUESTING 7 0 two_lease_ack) in
  dhcp_received_message_type 298 DHCP_ACK s = true
  /\ peek (gPB s) 285 = DHCP_OPT_LEASE_TIME
  /\ lease_seconds (gPB s) 287 = 3600
  /\ 3600 <> DHCP_INFINITE_LEASE
  /\ exists s',
       DhcpStateMachine (fun _ => 100) 298 s = Ok s'
       /\ dhcpState s' = DHCP_STATE_BOUND
       /\ leaseTime s' = 1800000
       /\ leaseTime s' <> (3600 * 1000) mod 2 ^ 32.
Proof.
  cbv zeta.
  split; [vm_compute; reflexivity|].
  split; [reflexivity|]. split; [reflexivity|].
  split; [discriminate|].
  eexists. split; [vm_compute; reflexivity|].
  repeat split. discriminate.
Qed.

Lemma ack_binds_lease_witness :
  let s := dhcpAddOptionCallback 43 (Some 1%nat)
             (waiting DHCP_STATE_REQUESTING 7 0 sample_ack) in
  exists s',
    DhcpStateMachine (fun _ => 100) 308 s = Ok s'
    /\ dhcpState s' = DHCP_STATE_BOUND
    /\ leaseStart s' = 100
    /\ myip s' = (192, 168, 1, 50)
    /\ netmask s' = (255, 255, 255, 0)
    /\ gwip s' = (192, 168, 1, 1)
    /\ leaseTime s' = 3600000.
Proof.
  intros s.
  destruct (ack_binds_lease (fun _ => 100) 1%nat 308 s)
    as (s' & E & H1 & H2 & H3 & H4 & H5 & _ & H7 & _).
  - left. reflexivity.
  - vm_compute. reflexivity.
  - reflexivity.
  - exists s'. rewrite H1, H2, H3, H4, H5, H7.
    split; [exact E|]. repeat split.
Defined.

Lemma offer_requests_address_witness :
  let s := waiting DHCP_STATE_SELECTING 7 0 sample_offer in
  exists (s' : State) (n : Z) (payload : list Z),
    DhcpStateMachine (fun _ => 40) 292 s = Ok s'
    /\ dhcpState s' = DHCP_STATE_REQUESTING
    /\ dhcpip s' = (192, 168, 1, 1)
    /\ trace s'
       = EvUdpTransmit n payload
         :: EvUdpPrepare DHCP_CLIENT_PORT allOnes_ip DHCP_SERVER_PORT
         :: trace s
    /\ payload_options payload
       = map u8 (request_options_head s
                 ++ [50; 4; 192; 168; 1; 50]
                 ++ [54; 4; 192; 168; 1; 1]
                 ++ request_options_tail s).
Proof.
  intros s.
  destruct (offer_requests_address (fun _ => 40) 292 s)
    as (s' & n & payload & E & H1 & _ & H3 & _ & _ & H6 & H7).
  - reflexivity.
  - reflexivity.
  - vm_compute. reflexivity.
  - exists s', n, payload. rewrite H1, H3, H6, H7.
    split; [exact E|]. repeat split.
Defined.

Lemma init_sends_discover_witness :
  let s := snd (dhcpSetup None false (boot sample_mac)) in
  exists (s' : State) (n : Z) (payload : list Z),
    DhcpStateMachine (fun k => 5 + Z.of_nat k) 0 s = Ok s'
    /\ dhcpState s' = DHCP_STATE_SELECTING
    /\ currentXid s' = 5
    /\ stateTimer s' = 6
    /\ firstn 7 (payload_options payload) = [99; 130; 83; 99; 53; 1; 1]
    /\ trace s'
       = EvUdpTransmit n payload
         :: EvUdpPrepare DHCP_CLIENT_PORT allOnes_ip DHCP_SERVER_PORT
         :: trace s.
Proof.
  intros s.
  destruct (init_sends_discover (fun k => 5 + Z.of_nat k) 0 s)
    as (s' & n & payload & E & H1 & H2 & H3 & _ & _ & H6 & _ & H8).
  - reflexivity.
  - reflexivity.
  - exists s', n, payload. rewrite H1, H2, H3, H6, H8.
    split; [exact E|]. repeat split.
Defined.

Lemma bound_before_expiry_is_idle_witness :
  DhcpStateMachine (fun _ => 3600099) 308
    (set_gPB (buffer_of sample_ack) bound_sample)
  = Ok (set_gPB (buffer_of sample_ack) bound_sample).
Proof.
  apply (bound_before_expiry_is_idle (fun _ => 3600099) 308
           (set_gPB (buffer_of sample_ack) bound_sample)).
  - reflexivity.
  - vm_compute. reflexivity.
Defined.

Lemma requesting_timeout_witness :
  let s := waiting DHCP_STATE_REQUESTING 7 0 [] in
  DhcpStateMachine (fun _ => 10000) 0 s = Ok s
  /\ DhcpStateMachine (fun _ => 10001) 0 s
     = Ok (set_dhcpState DHCP_STATE_INIT s).
Proof.
  intros s. split.
  - apply (proj1 (requesting_timeout (fun _ => 10000) 0 s
                    (or_introl eq_refl) eq_refl)).
    vm_compute. discriminate.
  - apply (proj2 (requesting_timeout (fun _ => 10001) 0 s
                    (or_introl eq_refl) eq_refl)).
    vm_compute. reflexivity.
Defined.

Lemma ticks_keep_settings_witness :
  let s := dhcpAddOptionCallback 43 (Some 1%nat)
             (snd (dhcpSetup None false (boot sample_mac))) in
  exists s',
    ticks handshake s = Ok s'
    /\ dhcpState s' = DHCP_STATE_BOUND
    /\ settings s' = settings s.
Proof.
  intros s.
  assert (Hb : match ticks handshake s with
               | Ok x => dhcpState x
               | NullCall => DHCP_STATE_INIT
               end = DHCP_STATE_BOUND) by (vm_compute; reflexivity).
  destruct (ticks handshake s) as [s'|] eqn:E; [|discriminate].
  exists s'. split; [reflexivity|]. split; [exact Hb|].
  apply (ticks_keep_settings handshake s s'); [reflexivity | exact E].
Defined.

Lemma registered_callback_never_faults_witness :
  let s := dhcpAddOptionCallback 43 (Some 1%nat)
             (snd (dhcpSetup None false (boot sample_mac))) in
  exists s',
    ticks handshake s = Ok s' /\ dhcpCustomOptionCallback s' = Some 1%nat.
Proof.
  intros s.
  apply (registered_callback_never_faults handshake 1%nat s); reflexivity.
Defined.

Lemma request_decodes_to_its_options_witness :
  let s := bound_sample in
  let before := emit_bytes (request_options s (Some (myip s)))
                  (request_header s) in
  send_dhcp_message (Some (myip s)) s
  = udpTransmit (bufPtr before - UDP_DATA_P) before
  /\ peeks (gPB before) (UDP_DATA_P + sizeof_DHCPdata) 4 = cookie
  /\ decode_options (gPB before) (frame_options (gPB before) (bufPtr before))
     = map tlv_octets (request_tlvs s (Some (myip s)))
  /\ Forall (fun o => fst o <> DHCP_OPT_END)
       (decode_options (gPB before)
          (frame_options (gPB before) (bufPtr before))).
Proof.
  intros s.
  apply (request_decodes_to_its_options (Some (myip s)) s).
  reflexivity.
Defined.

Lemma request_message_format_witness :
  exists (n : Z) (payload : list Z),
    trace (send_dhcp_message (Some (myip bound_sample)) bound_sample)
    = EvUdpTransmit n payload
      :: EvUdpPrepare DHCP_CLIENT_PORT (192, 168, 1, 1) DHCP_SERVER_PORT
      :: trace bound_sample
    /\ n = 295
    /\ Z.of_nat (length payload) = n
    /\ payload_op payload = [1; 1; 6]
    /\ payload_xid payload = 0
    /\ payload_chaddr payload = sample_mac.
Proof.
  destruct (request_message_format (Some (myip bound_sample)) bound_sample)
    as (n & payload & E & Hn & Hl & Hop & Hx & Hc & _).
  - reflexivity.
  - exists n, payload. split; [exact E|].
    rewrite Hop, Hx, Hc, Hl. split; [exact Hn|]. repeat split.
Defined.

Lemma request_length_witness :
  exists (n : Z) (payload : list Z) (rest : list Event),
    trace (send_dhcp_message (Some (myip bound_sample)) bound_sample)
    = EvUdpTransmit n payload :: rest
    /\ n = 295
    /\ 262 <= n <= 308.
Proof.
  destruct (request_length (Some (myip bound_sample)) bound_sample)
    as (n & payload & rest & E & Hn & Hb).
  - reflexivity.
  - apply Nat.leb_le. reflexivity.
  - exists n, payload, rest. split; [exact E|]. split; [|exact Hb].
    rewrite Hn. reflexivity.
Defined.

Lemma dhcpSetup_default_hostname_witness :
  let s' := snd (dhcpSetup None false (boot sample_mac)) in
  strlen (hostname s') = 19
  /\ terminated (hostname s') = true
  /\ nth 17 (hostname s') 0 = 70
  /\ nth 18 (hostname s') 0 = 70
  /\ 16 * h2int (nth 17 (hostname s') 0) + h2int (nth 18 (hostname s') 0)
     = 255.
Proof.
  intros s'.
  assert (H : 2 <= strlen (hostname (boot sample_mac)))
    by (vm_compute; discriminate).
  pose proof (dhcpSetup_default_hostname false (boot sample_mac) eq_refl H)
    as P.
  cbv zeta in P. destruct P as (H1 & H2 & _ & H3 & H4 & _ & H6).
  exact (conj H1 (conj H2 (conj H3 (conj H4 H6)))).
Defined.

Lemma parseIp_dotted_witness :
  parseIp (digits_value 0) [9; 9; 9; 9]
    [49; 57; 50; 46; 49; 54; 56; 46; 49; 46; 49]
  = Some (0, [192; 168; 1; 1], [49; 57; 50; 0; 49; 54; 56; 0; 49; 0; 49]).
Proof.
  apply (parseIp_dotted (digits_value 0) [49; 57; 50] [49; 54; 56] [49] [49]
           [] [9; 9; 9; 9]).
  - reflexivity.
  - unfold plain.
    repeat (apply Forall_cons || apply Forall_nil); split; discriminate.
  - repeat (apply Forall_cons || apply Forall_nil); reflexivity.
  - reflexivity.
Defined.

Lemma parseIp_field_without_digit_witness :
  parseIp (digits_value 0) [9; 9; 9; 9] [49; 46; 46; 50] = None
  /\ parseIp (digits_value 0) [9; 9; 9; 9] [49; 46; 50; 46; 51; 46] = None.
Proof.
  split.
  - apply (parseIp_field_without_digit (digits_value 0) [49; 46] [] [46; 50]
             [9; 9; 9; 9]).
    + repeat (apply Forall_cons || apply Forall_nil); discriminate.
    + cbn. lia.
    + right. reflexivity.
    + apply Forall_nil.
    + reflexivity.
    + left. reflexivity.
  - apply (parseIp_field_without_digit (digits_value 0)
             [49; 46; 50; 46; 51; 46] [] [] [9; 9; 9; 9]).
    + repeat (apply Forall_cons || apply Forall_nil); discriminate.
    + cbn. lia.
    + right. reflexivity.
    + apply Forall_nil.
    + reflexivity.
    + right. split; reflexivity.
Defined.

Lemma parseIp_result_witness :
  let str := [49; 46; 50; 46; 51; 46; 52; 46; 53] in
  let a := [49; 0; 50; 0; 51; 0; 52; 0; 0] in
  parseIp (digits_value 0) [9; 9; 9; 9] str = Some (1, [1; 2; 3; 4], a)
  /\ (1 = 0 <-> count_dots (cstring str) = 3%nat)
  /\ (1 = 0 \/ 1 = 1)
  /\ length a = length str
  /\ cstring a = first_field (cstring str).
Proof.
  intros str a. split; [reflexivity|].
  apply (parseIp_result (digits_value 0) [9; 9; 9; 9] str 1 [1; 2; 3; 4] a).
  reflexivity.
Defined.

Lemma makeNetStr_text_witness :
  exists m',
    makeNetStr (fun v _ => decimal v) (fun _ => 9) [192; 168; 1; 1] 4 46 10
    = Some m'
    /\ peeks m' 0 12 = [49; 57; 50; 46; 49; 54; 56; 46; 49; 46; 49; 0]
    /\ forall q, q < 0 \/ 12 <= q -> peek m' q = peek (fun _ => 9) q.
Proof.
  apply (makeNetStr_text (fun v _ => decimal v) (fun _ => 9) [192; 168; 1; 1]
           4 46 10).
  - lia.
  - apply Nat.leb_le. reflexivity.
  - repeat (apply Forall_cons || apply Forall_nil); discriminate.
  - apply Nat.leb_le. reflexivity.
Defined.

Lemma parseIp_makeNetStr_witness :
  exists (m' : buffer) (n : nat) (a : list Z),
    makeNetStr (fun v _ => decimal v) (fun _ => 9) [192; 168; 1; 1] 4 46 10
    = Some m'
    /\ (8 <= n <= 16)%nat
    /\ peek m' (Z.of_nat n - 1) = 0
    /\ parseIp (digits_value 0) [9; 9; 9; 9] (peeks m' 0 n)
       = Some (0, [192; 168; 1; 1], a).
Proof.
  apply (parseIp_makeNetStr (digits_value 0) (fun v _ => decimal v)
           (fun _ => 9) [192; 168; 1; 1] [9; 9; 9; 9]).
  - reflexivity.
  - reflexivity.
  - repeat (apply Forall_cons || apply Forall_nil);
      (split; [lia|]; split; [discriminate|]; split; [apply Nat.leb_le; reflexivity|];
       split; [repeat (apply Forall_cons || apply Forall_nil); reflexivity
              | reflexivity]).
Defined.
